(** * js-hono-deno: OpenAPI aggregation core of YelixHono

    A shallow embedding of the path utilities of [Hono.ts], of the schema
    translator of [zod-to-openapi.ts] and of the endpoint registry of the
    [YelixHono] class, with the properties its documentation states.

    The sources hold two revisions of [Hono.ts]. The current one (with
    [exposeScalarOpenAPI], request validations and responses) is embedded
    in the modules [Path] and [Hono]; what the earlier one does differently
    ([mergePaths], the default summary) is in [Legacy] and [LegacyHono].

    Conventions of the embedding.
    - A JavaScript string is a [string]; a character stands for the code
      unit of the same number (the Latin-1 range). A string the code
      computes by [toUpperCase] is a list of 16-bit code units.
    - A value typed [unknown] or [any] in the source is a [JsVal]; what the
      source declares with a TypeScript type is a record.
    - Code that can throw returns a [result]. *)

From Stdlib Require Import QArith Ascii String DecimalString.
From stdpp Require Import base list strings.

Local Open Scope char_scope.
Local Open Scope string_scope.
Local Open Scope list_scope.

(** ** String primitives of the runtime *)

Module JsString.

(** [WhiteSpace] and [LineTerminator] code units below 256: TAB, LF, VT,
    FF, CR, SP and NBSP. *)
Definition isWhiteSpace (c : ascii) : bool :=
  let n := nat_of_ascii c in
  (Nat.leb 9 n && Nat.leb n 13) || Nat.eqb n 32 || Nat.eqb n 160.

(** A string is truthy when it is not empty. *)
Definition truthy (s : string) : bool :=
  match s with
  | EmptyString => false
  | String _ _ => true
  end.

Fixpoint trimStart (s : string) : string :=
  match s with
  | EmptyString => EmptyString
  | String c t => if isWhiteSpace c then trimStart t else s
  end.

Fixpoint trimEnd (s : string) : string :=
  match s with
  | EmptyString => EmptyString
  | String c t =>
      match trimEnd t with
      | EmptyString =>
          if isWhiteSpace c then EmptyString else String c EmptyString
      | String d t' => String c (String d t')
      end
  end.

(** [String.prototype.trim] *)
Definition trim (s : string) : string := trimEnd (trimStart s).

(** [s.split(sep)] for a one-character separator: the result is never
    empty, and [split sep ""] is [[""]]. *)
Fixpoint split (sep : ascii) (s : string) : list string :=
  match s with
  | EmptyString => [EmptyString]
  | String c t =>
      if Ascii.eqb c sep then EmptyString :: split sep t
      else match split sep t with
           | seg :: segs => String c seg :: segs
           | [] => [String c EmptyString]
           end
  end.

(** [l.join(sep)] *)
Fixpoint join (sep : string) (l : list string) : string :=
  match l with
  | [] => EmptyString
  | x :: rest =>
      match rest with
      | [] => x
      | _ :: _ => x +:+ sep +:+ join sep rest
      end
  end.

(** The code units of a string. A string of the model holds code units
    below 256; the upper-case form of a string can leave that range, and
    is a list of 16-bit code units. *)
Definition units (s : string) : list N :=
  map N_of_ascii (list_ascii_of_string s).

(** The upper-case form of one code unit below 256, as
    [String.prototype.toUpperCase] gives it: a–z and the Latin-1 letters
    224–254 (without the division sign 247) lose 32; the micro sign 181
    becomes U+039C, the sharp s 223 becomes the two letters SS, and 255
    becomes U+0178; every other code unit is kept. *)
Definition upperChar (c : ascii) : list N :=
  let n := N_of_ascii c in
  if (N.leb 97 n && N.leb n 122)
     || (N.leb 224 n && N.leb n 254 && negb (N.eqb n 247))
  then [(n - 32)%N]
  else if N.eqb n 181 then [924%N]
  else if N.eqb n 223 then [83%N; 83%N]
  else if N.eqb n 255 then [376%N]
  else [n].

(** [String.prototype.toUpperCase] *)
Fixpoint toUpperCase (s : string) : list N :=
  match s with
  | EmptyString => []
  | String c t => upperChar c ++ toUpperCase t
  end.

(** No character of the string is white space. *)
Fixpoint noWhiteSpace (s : string) : bool :=
  match s with
  | EmptyString => true
  | String c t => negb (isWhiteSpace c) && noWhiteSpace t
  end.

(** [s.includes(c)] for a single character. *)
Fixpoint includesChar (c : ascii) (s : string) : bool :=
  match s with
  | EmptyString => false
  | String d t => Ascii.eqb d c || includesChar c t
  end.

End JsString.

(** ** PathMerger and PathNormalizer ([Hono.ts]) *)

Module Path.
Import JsString.

(** [mergePaths(...parts)], current revision:
<<
  const segments = parts
    .flatMap((p) => p.split('/'))
    .filter((p) => p && p.trim())
    .map((p) => p.trim());
  return '/' + segments.join('/');
>> *)
Definition keepSegment (p : string) : bool := truthy p && truthy (trim p).

Definition mergePaths (parts : list string) : string :=
  "/" +:+ join "/" (map trim (List.filter keepSegment (flat_map (split "/") parts))).

(** The segments one part contributes to the merged path. *)
Definition segmentsOf (p : string) : list string :=
  map trim (List.filter keepSegment (split "/" p)).

(** A segment as [mergePaths] writes it: not empty, trimmed, without
    ["/"]. *)
Definition cleanSegment (x : string) : Prop :=
  truthy x = true /\ trim x = x /\ includesChar "/" x = false.

(** [mergeMountPath(parentPrefix, childPath)] of the documentation is the
    call [mergePaths(path, ePath)] made by [route]. *)
Definition mergeMountPath (parentPrefix childPath : string) : string :=
  mergePaths [parentPrefix; childPath].

(** The same operation following the words of the documentation (split
    both inputs on ["/"], discard empty segments, rejoin with a single
    ["/"], prefix one ["/"]): the reference the code is compared with. *)
Definition mergeMountPath_doc (parentPrefix childPath : string) : string :=
  "/" +:+ join "/" (List.filter truthy (split "/" parentPrefix ++ split "/" childPath)).

(** [path.replace(/:([^/]+)/g, (_, param) => `{${param}}`)].

    The scanner is the global replace of that pattern: outside a match, a
    [":"] followed by a character other than ["/"] opens a match and is
    written as ["{"]; the match runs (greedily, colons included) up to the
    next ["/"] or the end of the string, where ["}"] is written; a [":"]
    followed by ["/"] or by nothing matches nothing and is kept. *)
Fixpoint replaceParams (inParam : bool) (s : string) : string :=
  match s with
  | EmptyString => if inParam then "}" else EmptyString
  | String c t =>
      if inParam then
        if Ascii.eqb c "/" then String "}" (String "/" (replaceParams false t))
        else String c (replaceParams true t)
      else if Ascii.eqb c ":" then
        match t with
        | EmptyString => ":"
        | String d _ =>
            if Ascii.eqb d "/" then String ":" (replaceParams false t)
            else String "{" (replaceParams true t)
        end
      else String c (replaceParams false t)
  end.

Definition convertColonRoutesToBraces (path : string) : string :=
  replaceParams false path.

(** A path segment of the colon style: [":"] followed by a name. *)
Definition isColonParam (seg : string) : bool :=
  match seg with
  | String c (String _ _) => Ascii.eqb c ":"
  | _ => false
  end.

Definition hasColonParam (path : string) : bool :=
  existsb isColonParam (split "/" path).

End Path.

(** ** The earlier revision of [mergePaths] ([src/Hono.ts]) *)

Module Legacy.
Import JsString.

(** [p.replace(/\/+$/, '')] *)
Fixpoint stripTrailingSlashes (s : string) : string :=
  match s with
  | EmptyString => EmptyString
  | String c t =>
      match stripTrailingSlashes t with
      | EmptyString => if Ascii.eqb c "/" then EmptyString else String c EmptyString
      | String d t' => String c (String d t')
      end
  end.

(** [p.replace(/^\/+/, '')] *)
Fixpoint stripLeadingSlashes (s : string) : string :=
  match s with
  | EmptyString => EmptyString
  | String c t => if Ascii.eqb c "/" then stripLeadingSlashes t else s
  end.

Fixpoint stripRest (l : list string) : list string :=
  match l with
  | [] => []
  | p :: rest => stripLeadingSlashes p :: stripRest rest
  end.

(**
<<
  const merged = parts
    .map(p => p.trim())
    .filter(p => p.length > 0)
    .map((p, i) => i === 0 ? p.replace(/\/+$/, '') : p.replace(/^\/+/, ''))
    .join('/');
  return '/' + merged;
>> *)
Definition mergePaths (parts : list string) : string :=
  "/" +:+ join "/"
    match List.filter truthy (map trim parts) with
    | [] => []
    | p :: rest => stripTrailingSlashes p :: stripRest rest
    end.

End Legacy.

(** ** JavaScript values *)

Module Js.
Import JsString.

(** A number of the runtime: apart from the three special values, every
    double is a rational, and the source only copies and compares
    numbers. *)
Inductive number : Type :=
| NaN
| PosInf
| NegInf
| Fin (q : Q).

(** [a > b] *)
Definition num_gt (a b : number) : bool :=
  match a, b with
  | NaN, _ => false
  | _, NaN => false
  | PosInf, PosInf => false
  | PosInf, _ => true
  | NegInf, _ => false
  | Fin _, PosInf => false
  | Fin _, NegInf => true
  | Fin x, Fin y => negb (Qle_bool x y)
  end.

(** [a < b] *)
Definition num_lt (a b : number) : bool := num_gt b a.

Definition ofNat (n : nat) : number := Fin (inject_Z (Z.of_nat n)).

Definition MAX_SAFE_INTEGER : number := Fin (9007199254740991 # 1).
Definition MIN_SAFE_INTEGER : number := Fin (-9007199254740991 # 1).

(** A value typed [unknown] in the source. An object is the list of its
    own enumerable properties in enumeration order; a function is a
    producer without arguments, given by the value it returns. *)
#[warnings="-register-all"] Inductive JsVal : Type :=
| VUndefined
| VNull
| VBool (b : bool)
| VNum (n : number)
| VStr (s : string)
| VArr (items : list JsVal)
| VObj (fields : list (string * JsVal))
| VFun (ret : JsVal)
| VRegExp (source : string).

(** [TypeError] is the exception of the runtime; [OutsideModel] marks a
    step the embedding does not interpret (a coercion of a string or an
    object to a number, a write to the prototype). *)
Inductive JsError : Type :=
| TypeError
| OutsideModel.

Inductive result (A : Type) : Type :=
| Ok (a : A)
| Err (e : JsError).
Arguments Ok {A} a.
Arguments Err {A} e.

#[export] Instance result_ret : MRet result := fun A a => Ok a.
#[export] Instance result_bind : MBind result := fun A B f r =>
  match r with
  | Ok a => f a
  | Err e => Err e
  end.

Fixpoint mapResult {A B : Type} (f : A -> result B) (l : list A) : result (list B) :=
  match l with
  | [] => Ok []
  | x :: rest =>
      y ← f x;
      ys ← mapResult f rest;
      Ok (y :: ys)
  end.

(** *** Operators *)

Definition truthy (v : JsVal) : bool :=
  match v with
  | VUndefined | VNull => false
  | VBool b => b
  | VNum NaN => false
  | VNum (Fin q) => negb (Qeq_bool q 0)
  | VNum _ => true
  | VStr s => JsString.truthy s
  | VArr _ | VObj _ | VFun _ | VRegExp _ => true
  end.

Definition isNullish (v : JsVal) : bool :=
  match v with
  | VUndefined | VNull => true
  | _ => false
  end.

Definition isUndefined (v : JsVal) : bool :=
  match v with
  | VUndefined => true
  | _ => false
  end.

(** [typeof v] *)
Definition typeOf (v : JsVal) : string :=
  match v with
  | VUndefined => "undefined"
  | VNull => "object"
  | VBool _ => "boolean"
  | VNum _ => "number"
  | VStr _ => "string"
  | VArr _ | VObj _ | VRegExp _ => "object"
  | VFun _ => "function"
  end.

Definition isNumber (v : JsVal) : bool := String.eqb (typeOf v) "number".
Definition isFunction (v : JsVal) : bool := String.eqb (typeOf v) "function".

(** [check && typeof check === "object"] *)
Definition isObject (v : JsVal) : bool :=
  truthy v && String.eqb (typeOf v) "object".

Definition isArray (v : JsVal) : bool :=
  match v with
  | VArr _ => true
  | _ => false
  end.

(** A value built by an object literal. *)
Definition isPlainObject (v : JsVal) : bool :=
  match v with
  | VObj _ => true
  | _ => false
  end.

(** [v instanceof RegExp] *)
Definition isRegExp (v : JsVal) : bool :=
  match v with
  | VRegExp _ => true
  | _ => false
  end.

(** [v === "s"] *)
Definition isStr (v : JsVal) (s : string) : bool :=
  match v with
  | VStr x => String.eqb x s
  | _ => false
  end.

(** [a || b] *)
Definition jsOr (a b : JsVal) : JsVal := if truthy a then a else b.

Fixpoint lookupField (k : string) (fields : list (string * JsVal)) : JsVal :=
  match fields with
  | [] => VUndefined
  | (k', v) :: rest => if String.eqb k k' then v else lookupField k rest
  end.

(** [v.k] on a value that is neither [null] nor [undefined]. The names
    the source reads are its own literals; of these only [length] and
    [source] exist on values that are not plain objects. *)
Definition prop (v : JsVal) (k : string) : JsVal :=
  match v with
  | VObj fields => lookupField k fields
  | VArr items => if String.eqb k "length" then VNum (ofNat (length items)) else VUndefined
  | VStr s => if String.eqb k "length" then VNum (ofNat (String.length s)) else VUndefined
  | VFun _ => if String.eqb k "length" then VNum (ofNat 0) else VUndefined
  | VRegExp src => if String.eqb k "source" then VStr src else VUndefined
  | _ => VUndefined
  end.

(** [v.k]: reading a property of [null] or [undefined] throws. *)
Definition get (v : JsVal) (k : string) : result JsVal :=
  if isNullish v then Err TypeError else Ok (prop v k).

(** [v?.k] *)
Definition getOpt (v : JsVal) (k : string) : JsVal :=
  if isNullish v then VUndefined else prop v k.

(** [v[0]] *)
Definition get0 (v : JsVal) : result JsVal :=
  match v with
  | VUndefined | VNull => Err TypeError
  | VArr items => Ok (hd VUndefined items)
  | VStr (String c _) => Ok (VStr (String c EmptyString))
  | VObj fields => Ok (lookupField "0" fields)
  | _ => Ok VUndefined
  end.

Definition hasKey (k : string) (fields : list (string * JsVal)) : bool :=
  existsb (fun kv => String.eqb k (fst kv)) fields.

(** ["k" in v], evaluated by the source on objects only; arrays and
    regular expressions have none of the names it asks for. *)
Definition hasProp (v : JsVal) (k : string) : bool :=
  match v with
  | VObj fields => hasKey k fields
  | _ => false
  end.

(** [x > 0] for a value of any type: [undefined] is [NaN], [null] is 0,
    [true] is 1; the conversion of strings and objects is not modelled. *)
Definition gtZero (x : JsVal) : result bool :=
  match x with
  | VNum n => Ok (num_gt n (ofNat 0))
  | VUndefined | VNull => Ok false
  | VBool b => Ok b
  | _ => Err OutsideModel
  end.

(** [x === 1] *)
Definition isOne (x : JsVal) : bool :=
  match x with
  | VNum (Fin q) => Qeq_bool q 1
  | _ => false
  end.

Fixpoint indexed (i : nat) (l : list JsVal) : list (string * JsVal) :=
  match l with
  | [] => []
  | x :: rest => (NilEmpty.string_of_uint (Nat.to_uint i), x) :: indexed (S i) rest
  end.

Fixpoint chars (s : string) : list JsVal :=
  match s with
  | EmptyString => []
  | String c t => VStr (String c EmptyString) :: chars t
  end.

(** [Object.entries(v)], also the properties an object spread copies. *)
Definition entriesOf (v : JsVal) : list (string * JsVal) :=
  match v with
  | VObj fields => fields
  | VArr items => indexed 0 items
  | VStr s => indexed 0 (chars s)
  | _ => []
  end.

(** The array index a property name stands for: the name is the decimal
    numeral, without sign or leading zero, of an integer from 0 to
    2^32 - 2. *)
Definition arrayIndex (k : string) : option N :=
  match NilEmpty.uint_of_string k with
  | Some d =>
      let n := N.of_uint d in
      if String.eqb (NilEmpty.string_of_uint (N.to_uint n)) k
         && N.ltb n 4294967295
      then Some n else None
  | None => None
  end.

(** The write of a property the object has: it keeps its place. *)
Fixpoint replaceField (fields : list (string * JsVal)) (k : string) (v : JsVal)
  : list (string * JsVal) :=
  match fields with
  | [] => []
  | (k', v') :: rest =>
      if String.eqb k k' then (k, v) :: rest
      else (k', v') :: replaceField rest k v
  end.

(** The place of a new property whose name is the array index [n]: behind
    the smaller indices at the head of the list, before everything else. *)
Fixpoint insertIndex (fields : list (string * JsVal)) (n : N) (k : string) (v : JsVal)
  : list (string * JsVal) :=
  match fields with
  | [] => [(k, v)]
  | (k', v') :: rest =>
      match arrayIndex k' with
      | Some m => if N.ltb m n then (k', v') :: insertIndex rest n k v
                  else (k, v) :: fields
      | None => (k, v) :: fields
      end
  end.

(** [o[k] = v] on a property list, which is in the order of enumeration:
    the array indices in ascending order, then the other names in the
    order of their creation. An existing property keeps its place. *)
Definition assignField (fields : list (string * JsVal)) (k : string) (v : JsVal)
  : list (string * JsVal) :=
  if hasKey k fields then replaceField fields k v
  else match arrayIndex k with
       | Some n => insertIndex fields n k v
       | None => fields ++ [(k, v)]
       end.

(** [o.k = v] for a name written in the source. *)
Definition assign (o : JsVal) (k : string) (v : JsVal) : JsVal :=
  match o with
  | VObj fields => VObj (assignField fields k v)
  | _ => o
  end.

(** [o[key] = v] for a computed key: the key [__proto__] would set the
    prototype, which an object of the model does not have. *)
Definition assignKey (fields : list (string * JsVal)) (key : string) (v : JsVal)
  : result (list (string * JsVal)) :=
  if String.eqb key "__proto__" then Err OutsideModel
  else Ok (assignField fields key v).

(** [delete o.k] *)
Definition deleteProp (o : JsVal) (k : string) : JsVal :=
  match o with
  | VObj fields => VObj (List.filter (fun kv => negb (String.eqb k (fst kv))) fields)
  | _ => o
  end.

(** [{...inner, k: v}] *)
Definition spreadWith (inner : JsVal) (k : string) (v : JsVal) : JsVal :=
  VObj (assignField (entriesOf inner) k v).

(** [v.map(cb)]: an array maps its items; another value is called
    through its own [map] property, if that is a function. *)
Definition jsMap (v : JsVal) (cb : JsVal -> result JsVal) : result JsVal :=
  match v with
  | VUndefined | VNull => Err TypeError
  | VArr items => l ← mapResult cb items; Ok (VArr l)
  | _ => match prop v "map" with
         | VFun r => Ok r
         | _ => Err TypeError
         end
  end.

(** [typeof f === "function" ? f() : f] *)
Definition callIfFunction (f : JsVal) : JsVal :=
  match f with
  | VFun r => r
  | _ => f
  end.

Fixpoint height (v : JsVal) : nat :=
  match v with
  | VArr items => S (fold_right (fun x acc => Nat.max (height x) acc) 0 items)
  | VObj fields => S (fold_right (fun kv acc => Nat.max (height (snd kv)) acc) 0 fields)
  | VFun r => S (height r)
  | _ => 0
  end.

End Js.

(** ** SchemaTranslator ([zod-to-openapi.ts]) *)

Module Translator.
Import Js.

(** The schema objects are built as the source builds them: object
    literals, property writes, spreads. *)
Definition fallbackSchema : JsVal :=
  VObj [("type", VStr "object"); ("example", VObj [])].

(** [schemaWithDef._zod?.def || schemaWithDef._def || schemaWithDef.def] *)
Definition findDef (schema : JsVal) : result JsVal :=
  zod ← get schema "_zod";
  Ok (jsOr (getOpt zod "def") (jsOr (prop schema "_def") (prop schema "def"))).

(** *** Strings *)

Definition formatNames : list string :=
  ["email"; "url"; "uuid"; "datetime"; "date"; "time"].

(** The branch of the [if]/[else if] chain (or the [case]) taken for a
    pair of values compared with the format names. *)
Definition matchFormat (a b : JsVal) : option string :=
  List.find (fun name => isStr a name || isStr b name) formatNames.

Definition cannedFormat (name : string) : string * string :=
  if String.eqb name "email" then ("email", "user@example.com")
  else if String.eqb name "url" then ("uri", "https://example.com")
  else if String.eqb name "uuid" then ("uuid", "123e4567-e89b-12d3-a456-426614174000")
  else if String.eqb name "datetime" then ("date-time", "2023-12-25T10:30:00Z")
  else if String.eqb name "date" then ("date", "2023-12-25")
  else ("time", "10:30:00").

Definition applyFormat (base : JsVal) (name : option string) : JsVal :=
  match name with
  | Some n =>
      let '(fmt, ex) := cannedFormat n in
      assign (assign base "format" (VStr fmt)) "example" (VStr ex)
  | None => base
  end.

(** One round of the loop over [def.checks] of a string node. *)
Definition stringCheck (base check : JsVal) : JsVal :=
  if negb (isObject check) then base else
  (* the nested definition of a check *)
  let base :=
    if hasProp check "def" then
      let checkDef := prop check "def" in
      if truthy checkDef
      then applyFormat base (matchFormat (prop checkDef "format") (prop checkDef "check"))
      else base
    else base in
  (* the format at the top level of a check *)
  let base :=
    if hasProp check "format"
    then applyFormat base (matchFormat (prop check "format") VNull)
    else base in
  (* length constraints *)
  let base :=
    if hasProp check "minLength" && isNumber (prop check "minLength")
    then assign base "minLength" (prop check "minLength") else base in
  let base :=
    if hasProp check "maxLength" && isNumber (prop check "maxLength")
    then assign base "maxLength" (prop check "maxLength") else base in
  (* the traditional structure *)
  if hasProp check "kind" then
    let kind := prop check "kind" in
    if isStr kind "min" then
      if isNumber (prop check "value") then assign base "minLength" (prop check "value") else base
    else if isStr kind "max" then
      if isNumber (prop check "value") then assign base "maxLength" (prop check "value") else base
    else if isStr kind "regex" then
      if isRegExp (prop check "regex")
      then assign base "pattern" (prop (prop check "regex") "source") else base
    else applyFormat base (matchFormat kind VNull)
  else base.

(** [if (def.checks && Array.isArray(def.checks)) for (const check of def.checks)] *)
Definition forChecks (step : JsVal -> JsVal -> JsVal) (def base : JsVal) : JsVal :=
  match prop def "checks" with
  | VArr checks => fold_left step checks base
  | _ => base
  end.

Definition stringSchema (schema def : JsVal) : JsVal :=
  let base := VObj [("type", VStr "string"); ("example", VStr "string")] in
  let base :=
    if isNumber (prop schema "minLength")
    then assign base "minLength" (prop schema "minLength") else base in
  let base :=
    if isNumber (prop schema "maxLength")
    then assign base "maxLength" (prop schema "maxLength") else base in
  let base := forChecks stringCheck def base in
  if isStr (getOpt (getOpt (prop schema "_zod") "bag") "format") "email"
  then applyFormat base (Some "email")
  else base.

(** *** Numbers *)

Definition toInteger (base : JsVal) : JsVal :=
  assign (assign base "type" (VStr "integer")) "example" (VNum (Fin (123 # 1))).

(** The [switch] on [check.kind] shared by the number and the integer
    branch; [withInt] tells whether the [case "int"] is present. *)
Definition kindCheck (withInt : bool) (base check : JsVal) : JsVal :=
  let kind := prop check "kind" in
  if isStr kind "min" then
    if isNumber (prop check "value") then
      let base := assign base "minimum" (prop check "value") in
      if negb (truthy (prop check "inclusive"))
      then assign base "exclusiveMinimum" (VBool true) else base
    else base
  else if isStr kind "max" then
    if isNumber (prop check "value") then
      let base := assign base "maximum" (prop check "value") in
      if negb (truthy (prop check "inclusive"))
      then assign base "exclusiveMaximum" (VBool true) else base
    else base
  else if withInt && isStr kind "int" then toInteger base
  else if isStr kind "multipleOf" then
    if isNumber (prop check "value")
    then assign base "multipleOf" (prop check "value") else base
  else base.

(** The blocks of one round of the loop over [def.checks] of a number
    node, in the order of the source. *)
Definition isIntCheck (base check : JsVal) : JsVal :=
  if hasProp check "isInt" && truthy (prop check "isInt") then toInteger base else base.

Definition safeintCheck (base check : JsVal) : JsVal :=
  if hasProp check "format" && isStr (prop check "format") "safeint"
  then toInteger base else base.

Definition minValueCheck (base check : JsVal) : JsVal :=
  if hasProp check "minValue" then
    match prop check "minValue" with
    | VNum minValue =>
        (* only set if not the default safe integer min *)
        if num_gt minValue MIN_SAFE_INTEGER
        then assign base "minimum" (VNum minValue) else base
    | _ => base
    end
  else base.

Definition maxValueCheck (base check : JsVal) : JsVal :=
  if hasProp check "maxValue" then
    match prop check "maxValue" with
    | VNum maxValue =>
        (* only set if not the default safe integer max *)
        if num_lt maxValue MAX_SAFE_INTEGER
        then assign base "maximum" (VNum maxValue) else base
    | _ => base
    end
  else base.

Definition nestedDefCheck (base check : JsVal) : JsVal :=
  if hasProp check "def" then
    let checkDef := prop check "def" in
    if isStr (getOpt checkDef "format") "safeint" || isStr (getOpt checkDef "check") "int"
    then toInteger base else base
  else base.

(** The blocks in front of the [switch] on [check.kind]. *)
Definition structuredCheck (base check : JsVal) : JsVal :=
  nestedDefCheck
    (maxValueCheck (minValueCheck (safeintCheck (isIntCheck base check) check) check) check)
    check.

(** One round of the loop over [def.checks] of a number node. *)
Definition numberCheck (base check : JsVal) : JsVal :=
  if negb (isObject check) then base else
  let base := structuredCheck base check in
  if hasProp check "kind" then kindCheck true base check else base.

Definition numberSchema (def : JsVal) : JsVal :=
  forChecks numberCheck def
    (VObj [("type", VStr "number"); ("example", VNum (Fin (12345 # 100)))]).

Definition integerCheck (base check : JsVal) : JsVal :=
  if isObject check && hasProp check "kind" then kindCheck false base check else base.

Definition integerSchema (def : JsVal) : JsVal :=
  forChecks integerCheck def
    (VObj [("type", VStr "integer"); ("example", VNum (Fin (123 # 1)))]).

(** *** Literals and enumerations *)

Definition literalSchema (def : JsVal) : result JsVal :=
  let values := prop def "values" in
  value ← (if truthy values then
             positive ← gtZero (prop values "length");
             if positive : bool then get0 values else Ok VUndefined
           else Ok VUndefined);
  let ty := typeOf value in
  if String.eqb ty "string" || String.eqb ty "number" || String.eqb ty "boolean"
  then Ok (VObj [("type", VStr ty); ("enum", VArr [value]); ("example", value)])
  else Ok (VObj [("const", value); ("example", value)]).

Definition enumSchema (def : JsVal) : result JsVal :=
  let values :=
    jsOr (prop def "values")
      (jsOr (prop def "options")
         (VArr (map snd (entriesOf (jsOr (prop def "entries") (VObj [])))))) in
  first ← get0 values;
  Ok (VObj [("type", VStr "string"); ("enum", values);
            ("example", jsOr first (VStr "option"))]).

(** *** Composite nodes *)

Section Recursive.
(** The translator itself, for the nodes below the current one. *)
Variable rec : JsVal -> result JsVal.

Definition arraySchema (def : JsVal) : result JsVal :=
  let itemType :=
    jsOr (prop def "element") (jsOr (prop def "type") (prop def "items")) in
  itemSchema ← (if truthy itemType then rec itemType
                else Ok (VObj [("type", VStr "string"); ("example", VStr "item")]));
  example ← get itemSchema "example";
  let base :=
    VObj [("type", VStr "array"); ("items", itemSchema); ("example", VArr [example])] in
  if negb (isUndefined (prop def "exactLength")) then
    exactLengthValue ← get (prop def "exactLength") "value";
    Ok (assign (assign base "minItems" exactLengthValue) "maxItems" exactLengthValue)
  else
    base ← (if negb (isUndefined (prop def "minLength")) then
              v ← get (prop def "minLength") "value";
              Ok (assign base "minItems" v)
            else Ok base);
    if negb (isUndefined (prop def "maxLength")) then
      v ← get (prop def "maxLength") "value";
      Ok (assign base "maxItems" v)
    else Ok base.

(** [propDef?.type !== "optional" && propDef?.type !== "default"] *)
Definition isRequired (propDef : JsVal) : bool :=
  let ty := getOpt propDef "type" in
  negb (isStr ty "optional") && negb (isStr ty "default").

(** The loop over [Object.entries(shape || {})]. *)
Fixpoint objectFields (entries : list (string * JsVal))
    (properties : list (string * JsVal)) (required : list string)
  : result (list (string * JsVal) * list string) :=
  match entries with
  | [] => Ok (properties, required)
  | (key, value) :: rest =>
      propDef ← findDef value;
      propSchema ← rec value;
      properties ← assignKey properties key propSchema;
      objectFields rest properties
        (if isRequired propDef then required ++ [key] else required)
  end.

(** The loop over [Object.entries(properties)] that collects the
    examples. *)
Fixpoint objectExample (properties exampleObj : list (string * JsVal))
  : result (list (string * JsVal)) :=
  match properties with
  | [] => Ok exampleObj
  | (key, p) :: rest =>
      example ← get p "example";
      if negb (isUndefined example) then
        exampleObj ← assignKey exampleObj key example;
        objectExample rest exampleObj
      else objectExample rest exampleObj
  end.

Definition objectSchema (def : JsVal) : result JsVal :=
  let shape := callIfFunction (prop def "shape") in
  '(properties, required) ← objectFields (entriesOf (jsOr shape (VObj []))) [] [];
  let result := VObj [("type", VStr "object"); ("properties", VObj properties)] in
  let result :=
    match required with
    | [] => result
    | _ :: _ => assign result "required" (VArr (map VStr required))
    end in
  exampleObj ← objectExample properties [];
  match exampleObj with
  | [] => Ok result
  | _ :: _ => Ok (assign result "example" (VObj exampleObj))
  end.

Definition nullableSchema (def : JsVal) : result JsVal :=
  innerSchema ← rec (prop def "innerType");
  Ok (spreadWith innerSchema "nullable" (VBool true)).

Definition defaultSchema (def : JsVal) : result JsVal :=
  innerSchema ← rec (prop def "innerType");
  Ok (spreadWith innerSchema "default" (callIfFunction (prop def "defaultValue"))).

Definition unionSchema (def : JsVal) : result JsVal :=
  options ← jsMap (jsOr (prop def "options") (VArr [])) rec;
  Ok (VObj [("anyOf", options)]).

Definition intersectionSchema (def : JsVal) : result JsVal :=
  left ← rec (prop def "left");
  right ← rec (prop def "right");
  Ok (VObj [("allOf", VArr [left; right])]).

Definition recordSchema (def : JsVal) : result JsVal :=
  let valueType := prop def "valueType" in
  valueSchema ← (if truthy valueType then rec valueType
                 else Ok (VObj [("type", VStr "string"); ("example", VStr "value")]));
  example ← get valueSchema "example";
  Ok (VObj [("type", VStr "object"); ("additionalProperties", valueSchema);
            ("example", VObj [("key", example)])]).

Definition tupleSchema (def : JsVal) : result JsVal :=
  items ← jsMap (jsOr (prop def "items") (VArr [])) rec;
  len ← get items "length";
  itemsSchema ← (if isOne len then get0 items else Ok (VObj [("anyOf", items)]));
  example ← jsMap items (fun item => get item "example");
  let result :=
    VObj [("type", VStr "array"); ("items", itemsSchema); ("minItems", len);
          ("maxItems", len); ("example", example)] in
  if truthy (prop def "rest") then
    additionalItems ← rec (prop def "rest");
    Ok (deleteProp (assign result "additionalItems" additionalItems) "maxItems")
  else Ok result.

Definition setSchema (def : JsVal) : result JsVal :=
  itemSchema ← rec (prop def "valueType");
  example ← get itemSchema "example";
  Ok (VObj [("type", VStr "array"); ("items", itemSchema);
            ("uniqueItems", VBool true); ("example", VArr [example])]).

Definition mapSchema (def : JsVal) : result JsVal :=
  valueSchema ← rec (prop def "valueType");
  example ← get valueSchema "example";
  Ok (VObj [("type", VStr "object"); ("additionalProperties", valueSchema);
            ("example", VObj [("key", example)])]).

(** The chain of [if (def.type === ...)] of the source, in its order. *)
Definition translateDef (schema def : JsVal) : result JsVal :=
  let ty := prop def "type" in
  if isStr ty "string" then Ok (stringSchema schema def)
  else if isStr ty "number" then Ok (numberSchema def)
  else if isStr ty "integer" then Ok (integerSchema def)
  else if isStr ty "boolean" then Ok (VObj [("type", VStr "boolean"); ("example", VBool true)])
  else if isStr ty "literal" then literalSchema def
  else if isStr ty "enum" then enumSchema def
  else if isStr ty "array" then arraySchema def
  else if isStr ty "object" then objectSchema def
  else if isStr ty "optional" then nullableSchema def
  else if isStr ty "nullable" then nullableSchema def
  else if isStr ty "default" then defaultSchema def
  else if isStr ty "union" then unionSchema def
  else if isStr ty "intersection" then intersectionSchema def
  else if isStr ty "record" then recordSchema def
  else if isStr ty "tuple" then tupleSchema def
  else if isStr ty "pipe" then rec (prop def "out")
  else if isStr ty "transform" then rec (prop def "schema")
  else if isStr ty "any" then Ok (VObj [("example", VStr "any value")])
  else if isStr ty "unknown" then Ok (VObj [("example", VStr "unknown value")])
  else if isStr ty "void" then Ok (VObj [("type", VStr "null")])
  else if isStr ty "null" then Ok (VObj [("type", VStr "null"); ("example", VNull)])
  else if isStr ty "undefined" then Ok (VObj [("type", VStr "null"); ("example", VNull)])
  else if isStr ty "date" then
    Ok (VObj [("type", VStr "string"); ("format", VStr "date-time");
              ("example", VStr "2023-12-25T10:30:00Z")])
  else if isStr ty "bigint" then
    (* the literal 9223372036854775807 denotes the double 2^63 *)
    Ok (VObj [("type", VStr "integer"); ("format", VStr "int64");
              ("example", VNum (Fin (9223372036854775808 # 1)))])
  else if isStr ty "set" then setSchema def
  else if isStr ty "map" then mapSchema def
  else Ok fallbackSchema.

Definition translateNode (schema : JsVal) : result JsVal :=
  def ← findDef schema;
  if negb (truthy def) then Ok fallbackSchema
  else translateDef schema def.

End Recursive.

(** The recursion of the source descends into the node; [fuel] bounds the
    depth, and the height of the node is enough of it
    ([zodSchemaToOpenAPISchema_unfold]). *)
Fixpoint translate (fuel : nat) (schema : JsVal) : result JsVal :=
  match fuel with
  | O => Err OutsideModel
  | S n => translateNode (translate n) schema
  end.

Definition zodSchemaToOpenAPISchema (schema : JsVal) : result JsVal :=
  translate (S (height schema)) schema.

(** *** Vocabulary of the properties *)

(** The tag of a node: the [type] of its definition. *)
Definition tagOf (node : JsVal) : JsVal :=
  match findDef node with
  | Ok def => getOpt def "type"
  | Err _ => VUndefined
  end.

(** The fields of an object node, in the order of [Object.entries]. *)
Definition shapeOf (def : JsVal) : list (string * JsVal) :=
  entriesOf (jsOr (callIfFunction (prop def "shape")) (VObj [])).

(** The keys of the fields whose tag is neither [optional] nor [default]. *)
Definition requiredKeys (entries : list (string * JsVal)) : list string :=
  map fst
    (List.filter
       (fun kv => negb (isStr (tagOf (snd kv)) "optional")
                  && negb (isStr (tagOf (snd kv)) "default"))
       entries).

(** What a check put at the end of the checks of a number node does to one
    bound. [before] and [after] are the schemas without and with the check;
    [kind] is ["min"] or ["max"], [bound] the field [minimum] or [maximum],
    [exclusive] its exclusive flag, [valueKey] is [minValue] or [maxValue],
    and [inside m] tells that [m] is on the inner side of the sentinel. *)
Definition boundRule (kind bound exclusive valueKey : string) (inside : number -> bool)
    (before after check : JsVal) : Prop :=
  (* a check of the traditional structure *)
  (forall v : number,
      isStr (prop check "kind") kind = true ->
      prop check "value" = VNum v ->
      prop after bound = VNum v
      /\ prop after exclusive
         = if truthy (prop check "inclusive") then prop before exclusive else VBool true)
  /\
  (* a structured check without [kind] *)
  (forall m : number,
      hasProp check "kind" = false ->
      hasProp check valueKey = true ->
      prop check valueKey = VNum m ->
      prop after bound = (if inside m then VNum m else prop before bound)
      /\ prop after exclusive = prop before exclusive).

(** The tags the translator recognises. *)
Definition tagNames : list string :=
  ["string"; "number"; "integer"; "boolean"; "literal"; "enum"; "array";
   "object"; "optional"; "nullable"; "default"; "union"; "intersection";
   "record"; "tuple"; "pipe"; "transform"; "any"; "unknown"; "void"; "null";
   "undefined"; "date"; "bigint"; "set"; "map"].

Definition recognised (tag : JsVal) : bool :=
  existsb (fun name => isStr tag name) tagNames.

(** [zodToResponseSchema] *)
Definition zodToResponseSchema (schema : JsVal) : result JsVal :=
  s ← zodSchemaToOpenAPISchema schema;
  Ok (VObj [("application/json", VObj [("schema", s)])]).

End Translator.

(** ** Endpoint descriptors and the document ([@yelix/openapi]) *)

Module EndpointBuilder.
Import Js.

(** Modelled from the spec: the class [EndpointBuilder] of the package
    [@yelix/openapi] is imported by [Hono.ts] and is not among the sources.
    It is the endpoint descriptor of the documentation: the fields
    [method], [path], [summary], [description], [tags], [parameters],
    [requestBody] and [responses], each written by its setter. The
    summary is held as code units, since the code computes its default
    with [toUpperCase]. *)
Record t : Type := mk {
  method : string;
  path : string;
  summary : list N;
  description : string;
  tags : list string;
  parameters : list JsVal;
  requestBody : option JsVal;
  responses : option JsVal
}.

Definition createEndpointBuilder : t := mk "" "" [] "" [] [] None None.

Definition setMethod (e : t) (m : string) : t :=
  mk m (path e) (summary e) (description e) (tags e) (parameters e) (requestBody e) (responses e).

Definition setPath (e : t) (p : string) : t :=
  mk (method e) p (summary e) (description e) (tags e) (parameters e) (requestBody e) (responses e).

Definition setSummary (e : t) (s : list N) : t :=
  mk (method e) (path e) s (description e) (tags e) (parameters e) (requestBody e) (responses e).

Definition setDescription (e : t) (d : string) : t :=
  mk (method e) (path e) (summary e) d (tags e) (parameters e) (requestBody e) (responses e).

Definition setTags (e : t) (l : list string) : t :=
  mk (method e) (path e) (summary e) (description e) l (parameters e) (requestBody e) (responses e).

Definition setResponses (e : t) (r : JsVal) : t :=
  mk (method e) (path e) (summary e) (description e) (tags e) (parameters e) (requestBody e) (Some r).

Definition setRawRequestBodyContent (e : t) (json : JsVal) : t :=
  mk (method e) (path e) (summary e) (description e) (tags e) (parameters e) (Some json) (responses e).

Definition addRawParameter (e : t) (p : JsVal) : t :=
  mk (method e) (path e) (summary e) (description e) (tags e) (parameters e ++ [p])
     (requestBody e) (responses e).

End EndpointBuilder.

Module OpenAPI.
Import Js.

(** [OpenAPIInformation] of [types.ts]: what [setTitle], [setDescription]
    and [setVersion] record. *)
Record Info : Type := mkInfo {
  title : string;
  description : string;
  version : string
}.

Record Operation : Type := mkOperation {
  op_summary : list N;
  op_description : string;
  op_tags : list string;
  op_parameters : list JsVal;
  op_requestBody : option JsVal;
  op_responses : option JsVal
}.

Record Document : Type := mkDocument {
  info : Info;
  paths : list (string * list (string * Operation))
}.

Definition operationOf (e : EndpointBuilder.t) : Operation :=
  mkOperation (EndpointBuilder.summary e) (EndpointBuilder.description e)
    (EndpointBuilder.tags e) (EndpointBuilder.parameters e)
    (EndpointBuilder.requestBody e) (EndpointBuilder.responses e).

Fixpoint findAssoc {A : Type} (k : string) (l : list (string * A)) : option A :=
  match l with
  | [] => None
  | (k', v) :: rest => if String.eqb k k' then Some v else findAssoc k rest
  end.

Fixpoint putAssoc {A : Type} (k : string) (v : A) (l : list (string * A))
  : list (string * A) :=
  match l with
  | [] => [(k, v)]
  | (k', v') :: rest =>
      if String.eqb k k' then (k, v) :: rest else (k', v') :: putAssoc k v rest
  end.

Definition addEndpoint (paths : list (string * list (string * Operation)))
    (e : EndpointBuilder.t) : list (string * list (string * Operation)) :=
  let operations := default [] (findAssoc (EndpointBuilder.path e) paths) in
  putAssoc (EndpointBuilder.path e)
    (putAssoc (EndpointBuilder.method e) (operationOf e) operations) paths.

(** Modelled from the spec: [addEndpoints] and [getJSON] of the class
    [OpenAPI] of [@yelix/openapi] are not among the sources. The
    documentation gives the assembly as a fold without side effects that
    groups the descriptors by path, then by method, an operation carrying
    [summary], [description], [tags], [parameters], [requestBody] and
    [responses]. *)
Definition assemble (i : Info) (descriptors : list EndpointBuilder.t) : Document :=
  mkDocument i (fold_left addEndpoint descriptors []).

Definition hasPath (d : Document) (p : string) : bool :=
  match findAssoc p (paths d) with
  | Some _ => true
  | None => false
  end.

End OpenAPI.

(** ** The class [YelixHono] ([Hono.ts], current revision) *)

Module EndpointDocs.
Import Js.

(** One entry of [responses]. *)
Record Response : Type := mkResponse {
  r_description : option string;
  r_content : option (list (string * JsVal))
}.

(** [EndpointDocs] of [types.ts]; an optional field is an [option]. *)
Record t : Type := mk {
  hide : option bool;
  method : option string;
  path : option string;
  summary : option string;
  description : option string;
  tags : option (list string);
  responses : option (list (string * option Response))
}.

End EndpointDocs.

Module Hono.
Import JsString Path Js.

(** [metadata: Record<string, any>] with the keys the class reads. *)
Record Metadata : Type := mkMetadata {
  _yelixKeys : option (list string);
  endpointDocs : option EndpointDocs.t;
  from : JsVal;
  schema : JsVal
}.

(** An entry of [handlers]: a function, or a [YelixHonoMiddleware] with
    its [name], [handler] and [metadata]. *)
Inductive Handler : Type :=
| HFunction (name : string)
| HMiddleware (name : string) (handler : Handler) (metadata : Metadata).

(** [openapi(endpointDocs)] of [openapi.ts] *)
Definition openapi (docs : EndpointDocs.t) : Handler :=
  HMiddleware "openapi" (HFunction "")
    (mkMetadata (Some ["openapi"]) (Some docs) VUndefined VUndefined).

(** What [ensureMiddleware(name, handler)] hands to the router. *)
Record Wrapped : Type := mkWrapped {
  w_name : option string;
  w_handler : Handler
}.

(** The router of the underlying framework, as the calls it has received.
    [UseRaw] is a call of [this.hono.use] with a function that does not
    pass through [ensureMiddleware]. *)
#[warnings="-register-all"] Inductive RouterEntry : Type :=
| Route (method path : string) (handlers : list Wrapped)
| Use (path : option string) (handlers : list Wrapped)
| UseRaw (path : string) (handler : Handler)
| Mount (path : string) (sub : list RouterEntry).

Record YelixHono : Type := mkYelixHono {
  hono : list RouterEntry;
  __openapi : OpenAPI.Info;
  __endpoints : list nat
}.

(** The objects of a program: the endpoint builders, which the
    collections of the applications refer to by their address, and the
    applications. *)
Record World : Type := mkWorld {
  heap : list EndpointBuilder.t;
  apps : list YelixHono
}.

Definition emptyWorld : World := mkWorld [] [].

(** The middleware of the constructor, an arrow function without name:
    it logs the request and reads its body with [parseAndCloneBody]. *)
Definition requestMiddleware : Handler := HFunction "".

(** [new YelixHono()]: the constructor sets the title, the description and
    the version, and registers its middleware with
    [this.hono.use('*', ...)]. *)
Definition newApp : YelixHono :=
  mkYelixHono [UseRaw "*" requestMiddleware]
    (OpenAPI.mkInfo "Yelix Hono API" "Yelix Hono API Documentation" "1.0.0") [].

Definition create (w : World) : World := mkWorld (heap w) (apps w ++ [newApp]).

Definition updateApp (w : World) (a : nat) (f : YelixHono -> YelixHono) : World :=
  mkWorld (heap w) (alter f a (apps w)).

(** The descriptors of an application, read through its collection. *)
Definition endpointsOf (w : World) (a : nat) : list EndpointBuilder.t :=
  match apps w !! a with
  | Some app => omap (fun l => heap w !! l) (__endpoints app)
  | None => []
  end.

(** [x?.metadata?._yelixKeys?.includes(key)] *)
Definition hasYelixKey (key : string) (h : Handler) : bool :=
  match h with
  | HMiddleware _ _ md =>
      match _yelixKeys md with
      | Some keys => existsb (String.eqb key) keys
      | None => false
      end
  | HFunction _ => false
  end.

Definition getMiddlewareByKey (key : string) (handlers : list Handler) : option Handler :=
  List.find (hasYelixKey key) handlers.

(** [!!handler?.name] followed by the test of the key. *)
Definition getMiddlewaresByKey (key : string) (handlers : list Handler) : list Handler :=
  List.filter (hasYelixKey key)
    (List.filter (fun h => match h with
                           | HFunction n | HMiddleware n _ _ => JsString.truthy n
                           end) handlers).

(** [openapi?.metadata.endpointDocs] *)
Definition docsOf (handlers : list Handler) : option EndpointDocs.t :=
  match getMiddlewareByKey "openapi" handlers with
  | Some (HMiddleware _ _ md) => endpointDocs md
  | _ => None
  end.

(** [endpointDocs?.hide] as a condition *)
Definition hidden (docs : option EndpointDocs.t) : bool :=
  match docs with
  | Some d => default false (EndpointDocs.hide d)
  | None => false
  end.

(** [endpointDocs?.field || fallback] for a string field *)
Definition strOr (docs : option EndpointDocs.t) (field : EndpointDocs.t -> option string)
    (fallback : string) : string :=
  match docs ≫= field with
  | Some s => if JsString.truthy s then s else fallback
  | None => fallback
  end.

(** [Object.assign(json, schema)]: the properties of the source, in their
    order, are written to the target. A key [__proto__] of the source
    would set the prototype of the target, which an object of the model
    does not have: it is written like any other key, and what is stated
    of the request body leaves it out. *)
Definition objectAssign (target : list (string * JsVal)) (source : JsVal)
  : list (string * JsVal) :=
  fold_left (fun (t : list (string * JsVal)) (kv : string * JsVal) =>
               assignField t (fst kv) (snd kv))
    (entriesOf source) target.

(** The state of the loop over the request validations. *)
Record Validations : Type := mkValidations {
  haveJson : bool;
  json : list (string * JsVal);
  haveParameter : bool;
  parameters : list JsVal
}.

(** One turn of the loop over the request validations. In the branch of
    the parameters the source writes its log inside the [try], before the
    push:
<<
    parametersToAdd: schema.map((p) => ({ name: p.name, ... })),
    ...
    parameters.push(...schema);
>>
    so an array with an item [null] or [undefined] throws at [p.name] and
    nothing of it is pushed. In the branch of the bodies the assignment
    comes first, and what the log after it throws is caught. *)
Definition validationStep (v : Validations) (requestValidation : Handler) : Validations :=
  match requestValidation with
  | HMiddleware _ _ md =>
      if isStr (from md) "json" || isStr (from md) "form" then
        mkValidations true (objectAssign (json v) (schema md)) (haveParameter v) (parameters v)
      else if existsb (isStr (from md)) ["query"; "header"; "cookie"; "path"; "param"] then
        mkValidations (haveJson v) (json v) true
          (match schema md with
           | VArr l => if existsb isNullish l then parameters v else parameters v ++ l
           | _ => parameters v
           end)
      else v
  | HFunction _ => v
  end.

(** [JSON.stringify(json)] is [undefined], so that [.substring] on it
    throws: the object has a function [toJSON] of its own whose result is
    [undefined] or a function. *)
Definition previewFails (json : list (string * JsVal)) : bool :=
  match lookupField "toJSON" json with
  | VFun VUndefined | VFun (VFun _) => true
  | _ => false
  end.

(** [endpointDocs?.summary || fallback], as code units. *)
Definition summaryOr (docs : option EndpointDocs.t) (fallback : list N) : list N :=
  match docs ≫= EndpointDocs.summary with
  | Some s => if JsString.truthy s then units s else fallback
  | None => fallback
  end.

(** The inner [reduce] over [Object.entries(response.content)]. *)
Definition transformContent (content : list (string * JsVal)) : JsVal :=
  VObj (fold_left
          (fun (contentAcc : list (string * JsVal)) (kv : string * JsVal) =>
             let mediaValue := snd kv in
             if truthy mediaValue && truthy (getOpt mediaValue "schema")
             then assignField contentAcc (fst kv) (VObj [("schema", prop mediaValue "schema")])
             else contentAcc)
          content []).

(** The outer [reduce] over [Object.entries(responses)]. *)
Definition transformResponses (responses : list (string * option EndpointDocs.Response))
  : JsVal :=
  VObj (fold_left
          (fun (acc : list (string * JsVal))
               (kv : string * option EndpointDocs.Response) =>
             match snd kv with
             | Some response =>
                 assignField acc (fst kv)
                   (VObj [("description",
                           VStr (match EndpointDocs.r_description response with
                                 | Some d => if JsString.truthy d then d
                                             else "HTTP " +:+ fst kv +:+ " response"
                                 | None => "HTTP " +:+ fst kv +:+ " response"
                                 end));
                          ("content",
                           match EndpointDocs.r_content response with
                           | Some c => transformContent c
                           | None => VUndefined
                           end)])
             | None => acc
             end)
          responses []).

(** [this.__endpoints.push(endpointPath)] for a builder just created. *)
Definition pushEndpoint (w : World) (a : nat) (e : EndpointBuilder.t) : World :=
  mkWorld (heap w ++ [e])
    (alter (fun app => mkYelixHono (hono app) (__openapi app)
                         (__endpoints app ++ [length (heap w)]))
       a (apps w)).

(** The descriptor [loadEndpointDocs] builds for a route that is not
    hidden. The request body is set inside a [try] whose first statement
    writes [JSON.stringify(json).substring(0, 200)] to the log: where that
    throws, the descriptor keeps no request body.

    The loop over the parameters writes [parameter.name || index] into a
    message before it adds the parameter, and again in its [catch]. The
    conversion of a value to a string is not modelled and is taken to
    succeed: with a parameter whose [name] is an object whose conversion
    throws, the source would reach its outer [catch] and store no
    descriptor for the route. *)
Definition buildEndpoint (_path _method : string) (handlers : list Handler)
  : EndpointBuilder.t :=
  let endpointDocs := docsOf handlers in
  let v := fold_left validationStep (getMiddlewaresByKey "requestValidation" handlers)
             (mkValidations false [] false []) in
  let openapiFriendlyPath :=
    convertColonRoutesToBraces (strOr endpointDocs EndpointDocs.path _path) in
  let method := strOr endpointDocs EndpointDocs.method _method in
  let summary :=
    summaryOr endpointDocs (toUpperCase method ++ units (" " +:+ _path)) in
  let endpointPath :=
    EndpointBuilder.setTags
      (EndpointBuilder.setDescription
         (EndpointBuilder.setSummary
            (EndpointBuilder.setPath
               (EndpointBuilder.setMethod EndpointBuilder.createEndpointBuilder
                  (strOr endpointDocs EndpointDocs.method method))
               openapiFriendlyPath)
            summary)
         (strOr endpointDocs EndpointDocs.description ""))
      (default [] (endpointDocs ≫= EndpointDocs.tags)) in
  let endpointPath :=
    match endpointDocs ≫= EndpointDocs.responses with
    | Some responses =>
        EndpointBuilder.setResponses endpointPath (transformResponses responses)
    | None => endpointPath
    end in
  let endpointPath :=
    if haveJson v && negb (previewFails (json v))
    then EndpointBuilder.setRawRequestBodyContent endpointPath (VObj (json v))
    else endpointPath in
  if haveParameter v
  then fold_left EndpointBuilder.addRawParameter (parameters v) endpointPath
  else endpointPath.

(** [loadEndpointDocs(_path, _method, ...handlers)] *)
Definition loadEndpointDocs (w : World) (a : nat) (_path _method : string)
    (handlers : list Handler) : World :=
  if hidden (docsOf handlers) then w
  else pushEndpoint w a (buildEndpoint _path _method handlers).

(** [parseMiddlewares(Middlewares, updateNameForHandler)] *)
Definition nameLast (handlers : list Handler) : list Handler :=
  match reverse handlers with
  | [] => []
  | lastMiddleware :: front =>
      reverse front
      ++ [HMiddleware "handler" lastMiddleware
            (mkMetadata (Some ["handler"]) None VUndefined VUndefined)]
  end.

Definition parseMiddlewares (handlers : list Handler) (updateNameForHandler : bool)
  : list Wrapped :=
  map (fun h => match h with
                | HMiddleware n inner _ => mkWrapped (Some n) inner
                | HFunction _ => mkWrapped None h
                end)
    (if updateNameForHandler then nameLast handlers else handlers).

Definition addRoute (w : World) (a : nat) (r : RouterEntry) : World :=
  updateApp w a (fun app => mkYelixHono (hono app ++ [r]) (__openapi app) (__endpoints app)).

(** [get], [post], [put], [delete], [patch], [options] and [on]: the
    documentation of the route is loaded, then the route is handed to the
    router. *)
Definition on (w : World) (a : nat) (method path : string) (handlers : list Handler)
  : World :=
  addRoute (loadEndpointDocs w a path method handlers) a
    (Route method path (parseMiddlewares handlers true)).

Definition get (w : World) (a : nat) := on w a "get".
Definition post (w : World) (a : nat) := on w a "post".
Definition put (w : World) (a : nat) := on w a "put".
Definition delete (w : World) (a : nat) := on w a "delete".
Definition patch (w : World) (a : nat) := on w a "patch".
Definition options (w : World) (a : nat) := on w a "options".

Definition all (w : World) (a : nat) (path : string) (handlers : list Handler) : World :=
  addRoute
    (fold_left (fun (w : World) (method : string) =>
                  loadEndpointDocs w a path method handlers)
       ["post"; "get"; "put"; "delete"; "patch"; "options"] w)
    a (Route "all" path (parseMiddlewares handlers true)).

(** [use(pathOrHandler, ...handlers)] *)
Definition use (w : World) (a : nat) (path : option string) (handlers : list Handler)
  : World :=
  addRoute w a (Use path (parseMiddlewares handlers false)).

(** The rewrite of one descriptor of the mounted instance, in place:
<<
    const merged = this.mergePaths(path, ePath);
    const openapiFriendlyPath = this.convertColonRoutesToBraces(merged);
    endpoint.setPath(openapiFriendlyPath);
>> *)
Definition mountPath (path ePath : string) : string :=
  convertColonRoutesToBraces (mergePaths [path; ePath]).

Definition remount (path : string) (endpoint : EndpointBuilder.t) : EndpointBuilder.t :=
  EndpointBuilder.setPath endpoint (mountPath path (EndpointBuilder.path endpoint)).

(** The builder at address [l] is the object the collection of the mounted
    instance refers to: the write is seen through every reference. *)
Definition rewriteEndpoint (path : string) (h : list EndpointBuilder.t) (l : nat)
  : list EndpointBuilder.t :=
  alter (remount path) l h.

(** The instance given to [route]: a [YelixHono] of the world, or a plain
    router. *)
Inductive Instance : Type :=
| IYelix (b : nat)
| IHono (router : list RouterEntry).

(** [route(path, instance)] *)
Definition route (w : World) (a : nat) (path : string) (instance : Instance) : World :=
  match instance with
  | IYelix b =>
      match apps w !! b with
      | Some child =>
          let endpoints := __endpoints child in
          mkWorld
            (fold_left (rewriteEndpoint path) endpoints (heap w))
            (alter (fun app => mkYelixHono (hono app ++ [Mount path (hono child)])
                                 (__openapi app) (__endpoints app ++ endpoints))
               a (apps w))
      | None => w
      end
  | IHono router => addRoute w a (Mount path router)
  end.

(** [getOpenAPI()]: the document, and the world after the call.
<<
    const clone = Object.assign(
      Object.create(Object.getPrototypeOf(this.__openapi)), this.__openapi);
    clone.addEndpoints(this.__endpoints);
    return clone.getJSON();
>>
    (the earlier revision fills a new [OpenAPI] object at each call). The
    method itself writes nothing. What [addEndpoints] and [getJSON] of the
    package do with the array they receive, and with the members the copy
    shares with [this.__openapi], is not in the sources: the document is
    the assembly modelled from the spec, and the world is given back as it
    is. Nothing is proved here of the purity of the call. *)
Definition getOpenAPI (w : World) (a : nat) : OpenAPI.Document * World :=
  match apps w !! a with
  | Some app => (OpenAPI.assemble (__openapi app) (endpointsOf w a), w)
  | None => (OpenAPI.assemble (__openapi newApp) [], w)
  end.

(** [OpenAPIExposeOptions] of [types.ts] *)
Record OpenAPIExposeOptions : Type := mkExpose {
  x_title : option string;
  x_description : option string;
  openapiJsonPath : option string;
  docsPath : option string
}.

Definition orDefault (o : option string) (d : string) : string :=
  match o with
  | Some s => if JsString.truthy s then s else d
  | None => d
  end.

(** [exposeScalarOpenAPI(params)] *)
Definition exposeScalarOpenAPI (w : World) (a : nat) (params : OpenAPIExposeOptions)
  : World :=
  let hide := openapi (EndpointDocs.mk (Some true) None None None None None None) in
  let w := get w a (default "/openapi.json" (openapiJsonPath params))
             [hide; HFunction ""] in
  let w := updateApp w a (fun app =>
             mkYelixHono (hono app)
               (OpenAPI.mkInfo (orDefault (x_title params) "API Documentation")
                  (orDefault (x_description params) "API Documentation")
                  (OpenAPI.version (__openapi app)))
               (__endpoints app)) in
  get w a (default "/docs" (docsPath params)) [hide; HFunction ""].

(** A call that changed nothing but the router of the application [a]:
    [w'] has the descriptors of [w], in the world and in every application,
    every document is the same, and the router of [a] has received [r]. *)
Definition onlyRouted (w w' : World) (a : nat) (app : YelixHono) (r : RouterEntry)
  : Prop :=
  heap w' = heap w
  /\ (forall b, endpointsOf w' b = endpointsOf w b)
  /\ (forall b, fst (getOpenAPI w' b) = fst (getOpenAPI w b))
  /\ apps w' !! a = Some (mkYelixHono (hono app ++ [r]) (__openapi app) (__endpoints app)).

(** The calls a program makes on the applications of its world. *)
Inductive Call : Type :=
| CNew
| COn (a : nat) (method path : string) (handlers : list Handler)
| CAll (a : nat) (path : string) (handlers : list Handler)
| CUse (a : nat) (path : option string) (handlers : list Handler)
| CRoute (a : nat) (path : string) (instance : Instance)
| CGetOpenAPI (a : nat)
| CExpose (a : nat) (params : OpenAPIExposeOptions).

Definition exec (w : World) (c : Call) : World :=
  match c with
  | CNew => create w
  | COn a method path handlers => on w a method path handlers
  | CAll a path handlers => all w a path handlers
  | CUse a path handlers => use w a path handlers
  | CRoute a path instance => route w a path instance
  | CGetOpenAPI a => snd (getOpenAPI w a)
  | CExpose a params => exposeScalarOpenAPI w a params
  end.

Definition run (calls : list Call) : World := fold_left exec calls emptyWorld.

(** Every descriptor of the world has a path without colon parameter. *)
Definition braceSyntax (w : World) : Prop :=
  Forall (fun e => hasColonParam (EndpointBuilder.path e) = false) (heap w).

End Hono.

(** ** The earlier revision of [loadEndpointDocs] ([src/Hono.ts]) *)

Module LegacyHono.
Import Hono Path.

(** [.setSummary(endpointDocs?.summary || '')]: no default from the method
    and the path. *)
Definition buildEndpoint (path method : string) (handlers : list Handler)
  : EndpointBuilder.t :=
  let endpointDocs := docsOf handlers in
  EndpointBuilder.setTags
    (EndpointBuilder.setDescription
       (EndpointBuilder.setSummary
          (EndpointBuilder.setPath
             (EndpointBuilder.setMethod EndpointBuilder.createEndpointBuilder
                (strOr endpointDocs EndpointDocs.method method))
             (convertColonRoutesToBraces (strOr endpointDocs EndpointDocs.path path)))
          (JsString.units (strOr endpointDocs EndpointDocs.summary "")))
       (strOr endpointDocs EndpointDocs.description ""))
    (default [] (endpointDocs ≫= EndpointDocs.tags)).

End LegacyHono.

(** ** Worlds and nodes of the examples *)

Module Examples.
Import Js Hono.

(** Two applications, the second with the route [GET /ping]. *)
Definition twoApps : World :=
  run [CNew; CNew; COn 1 "get" "/ping" [HFunction "ping"]].


Definition stringNode : JsVal := VObj [("def", VObj [("type", VStr "string")])].
Definition numberNode : JsVal := VObj [("def", VObj [("type", VStr "number")])].

(** The node of an object with a string [q], an optional [page] and a
    [limit] with a default. *)
Definition searchNode : JsVal :=
  VObj [("def",
         VObj [("type", VStr "object");
               ("shape",
                VObj [("q", stringNode);
                      ("page", VObj [("def", VObj [("type", VStr "optional");
                                                   ("innerType", numberNode)])]);
                      ("limit", VObj [("def", VObj [("type", VStr "default");
                                                    ("innerType", numberNode);
                                                    ("defaultValue", VNum (Fin (10 # 1)))])])])])].

(** The node a validator builds for a string followed by a transformation:
    a [pipe] from the string node into a [transform] node, whose definition
    holds the function and no [schema]. *)
Definition transformedString : JsVal :=
  VObj [("_zod",
         VObj [("def",
                VObj [("type", VStr "pipe");
                      ("in", VObj [("_zod", VObj [("def", VObj [("type", VStr "string")])])]);
                      ("out",
                       VObj [("_zod",
                              VObj [("def",
                                     VObj [("type", VStr "transform");
                                           ("transform", VFun VUndefined)])])])])])].

(** A number node with the given checks, and a check of kind [min]. *)
Definition numberWith (checks : list JsVal) : JsVal :=
  VObj [("def", VObj [("type", VStr "number"); ("checks", VArr checks)])].

Definition minCheck (value : Z) (inclusive : JsVal) : JsVal :=
  VObj [("kind", VStr "min"); ("value", VNum (Fin (value # 1))); ("inclusive", inclusive)].

End Examples.

(** ** Shapes of paths *)

Module PathShape.
Import JsString.

(** Every [":"] of the path is the first character of its segment;
    [atStart] tells whether the string begins at the start of a segment. *)
Fixpoint colonsLead (atStart : bool) (s : string) : bool :=
  match s with
  | EmptyString => true
  | String c t =>
      if Ascii.eqb c "/" then colonsLead true t
      else if Ascii.eqb c ":" then atStart && colonsLead false t
      else colonsLead false t
  end.

(** Every [":"] of the path is followed by ["/"] or ends the path: the
    pattern [/:([^/]+)/] matches nowhere. *)
Fixpoint loneColons (s : string) : bool :=
  match s with
  | EmptyString => true
  | String c t =>
      (if Ascii.eqb c ":" then
         match t with
         | EmptyString => true
         | String d _ => Ascii.eqb d "/"
         end
       else true)
      && loneColons t
  end.

End PathShape.

(** ** Vocabulary of the checks *)

Module Checks.
Import Js.

(** A round of the loop over the checks of a string node that writes the
    length bound [field]: a check with a numeric [field] of its own, or a
    check of the kind [kind] with a numeric [value]. *)
Definition writesLength (field kind : string) (check : JsVal) : bool :=
  isObject check
  && ((hasProp check field && isNumber (prop check field))
      || (hasProp check "kind" && isStr (prop check "kind") kind
          && isNumber (prop check "value"))).

(** The two length bounds of a string schema, each with the kind of check
    that writes it. *)
Definition lengthBound (field kind : string) : Prop :=
  (field = "minLength" /\ kind = "min") \/ (field = "maxLength" /\ kind = "max").

(** A round of the loop over the checks of a number node that makes the
    schema an integer: a check with a truthy [isInt], with the format
    [safeint], with a nested definition of the format [safeint] or of the
    check [int], or of the kind [int]. *)
Definition promotes (check : JsVal) : bool :=
  isObject check
  && ((hasProp check "isInt" && truthy (prop check "isInt"))
      || (hasProp check "format" && isStr (prop check "format") "safeint")
      || (hasProp check "def"
          && (isStr (getOpt (prop check "def") "format") "safeint"
              || isStr (getOpt (prop check "def") "check") "int"))
      || (hasProp check "kind" && isStr (prop check "kind") "int")).

End Checks.

(** ** Further nodes of the examples *)

Module MoreExamples.
Import Js Examples.

(** A string node with a check of the kind [min] followed by one of the
    kind [max]. *)
Definition boundedString : JsVal :=
  VObj [("def",
         VObj [("type", VStr "string");
               ("checks",
                VArr [VObj [("kind", VStr "min"); ("value", VNum (Fin (3 # 1)))];
                      VObj [("kind", VStr "max"); ("value", VNum (Fin (10 # 1)))]])])].

Definition nodeOf (def : list (string * JsVal)) : JsVal := VObj [("def", VObj def)].

Definition stringOrNumber : JsVal :=
  nodeOf [("type", VStr "union"); ("options", VArr [stringNode; numberNode])].

Definition optionalNumber : JsVal :=
  nodeOf [("type", VStr "optional"); ("innerType", numberNode)].

Definition numberWithDefault : JsVal :=
  nodeOf [("type", VStr "default"); ("innerType", numberNode);
          ("defaultValue", VFun (VNum (Fin (10 # 1))))].

Definition bareArray : JsVal := nodeOf [("type", VStr "array")].

Definition pairTuple : JsVal :=
  nodeOf [("type", VStr "tuple"); ("items", VArr [stringNode; numberNode])].

(** A number node with a bound followed by a check of the format
    [safeint]. *)
Definition safeInteger : JsVal :=
  nodeOf [("type", VStr "number");
          ("checks", VArr [VObj [("kind", VStr "min"); ("value", VNum (Fin (0 # 1)))];
                           VObj [("format", VStr "safeint")]])].

Definition literalOf (values : list JsVal) : JsVal :=
  nodeOf [("type", VStr "literal"); ("values", VArr values)].

Definition openTuple : JsVal :=
  nodeOf [("type", VStr "tuple"); ("items", VArr [stringNode]); ("rest", numberNode)].

End MoreExamples.

(** ** Vocabulary of the registry *)

Module Registry.
Import Js Hono.

(** [requestValidation.metadata.schema] *)
Definition schemaOf (h : Handler) : JsVal :=
  match h with
  | HMiddleware _ _ md => schema md
  | HFunction _ => VUndefined
  end.

(** A request validation of the body: [from === 'json' || from === 'form']. *)
Definition isBodyValidation (h : Handler) : bool :=
  match h with
  | HMiddleware _ _ md => isStr (from md) "json" || isStr (from md) "form"
  | HFunction _ => false
  end.

(** A request validation of parameters: the [else if] of the loop. *)
Definition isParameterValidation (h : Handler) : bool :=
  match h with
  | HMiddleware _ _ md =>
      negb (isStr (from md) "json" || isStr (from md) "form")
      && existsb (isStr (from md)) ["query"; "header"; "cookie"; "path"; "param"]
  | HFunction _ => false
  end.

(** The parameters a schema lists: its items when it is an array. *)
Definition schemaItems (schema : JsVal) : list JsVal :=
  match schema with
  | VArr l => l
  | _ => []
  end.

(** A descriptor without its path. *)
Definition forgetPath (e : EndpointBuilder.t) : EndpointBuilder.t :=
  EndpointBuilder.setPath e "".

(** Every reference of a collection is the address of a builder. *)
Definition wellFormed (w : World) : Prop :=
  forall a app, apps w !! a = Some app ->
                Forall (fun l => l < length (heap w)) (__endpoints app).

(** Every application of [w'] has the descriptors it has in [w], in their
    order and up to their paths, followed by further descriptors. *)
Definition extends (w w' : World) : Prop :=
  forall b, exists added,
    map forgetPath (endpointsOf w' b) = map forgetPath (endpointsOf w b) ++ added.

End Registry.

(** ** Further worlds and handlers of the examples *)

Module RegistryExamples.
Import Js Hono Examples.

(** The second application of [twoApps]. *)
Definition pingApp : YelixHono :=
  mkYelixHono (hono newApp ++ [Route "get" "/ping" (parseMiddlewares [HFunction "ping"] true)])
    (__openapi newApp) [0].

(** A documentation descriptor with a path of its own. *)
Definition userDocs : EndpointDocs.t :=
  EndpointDocs.mk None None (Some "/users/:id") None None None None.


(** A validator of the query and one of the headers, each with one
    parameter, around a validator of the body. *)
Definition validator (source : string) (schema : JsVal) : Handler :=
  HMiddleware "zValidator" (HFunction "")
    (mkMetadata (Some ["requestValidation"]) None (VStr source) schema).

Definition queryParameter : JsVal := VObj [("name", VStr "q"); ("in", VStr "query")].
Definition headerParameter : JsVal := VObj [("name", VStr "x-id"); ("in", VStr "header")].

Definition validatedHandlers : list Handler :=
  [validator "query" (VArr [queryParameter]);
   validator "json" (VObj [("application/json", VObj [("schema", VObj [])])]);
   validator "header" (VArr [headerParameter]);
   HFunction "search"].

(** Responses with a described and an undescribed status. *)
Definition someResponses : list (string * option EndpointDocs.Response) :=
  [("200", Some (EndpointDocs.mkResponse (Some "The task") None));
   ("404", Some (EndpointDocs.mkResponse None
                   (Some [("application/json", VObj [("schema", VObj [])]);
                          ("text/plain", VObj [])])))].

(** Three applications, the second with the route [GET /ping]. *)
Definition threeApps : World :=
  run [CNew; CNew; COn 1 "get" "/ping" [HFunction "ping"]; CNew].

End RegistryExamples.

(** ** The body of a request ([parseAndCloneBody] of [Hono.ts]) *)

Module Body.

(** [s.includes(sub)] *)
Fixpoint includes (sub s : string) : bool :=
  String.prefix sub s
  || match s with
     | EmptyString => false
     | String _ t => includes sub t
     end.

(** The [type] of the result. *)
Inductive BodyType : Type :=
| json
| formData
| text
| arrayBuffer
| blob
| none.

Section Readers.
(** [RequestBody]: what a reader of the request resolves to. *)
Variable RequestBody : Type.

(** The clone of the request, [req.clone()], as the outcome of each of
    its readers: [None] when the promise of the reader rejects. The request
    is one whose body has not been read, so that it has a clone. *)
Record Clone : Type := mkClone {
  c_json : option RequestBody;
  c_formData : option RequestBody;
  c_text : option RequestBody;
  c_arrayBuffer : option RequestBody;
  c_blob : option RequestBody
}.

(** One [try] of the current revision: [type] and [parsed] are assigned
    after the reader has resolved, and the [catch] leaves them as they
    are.
<<
  try {
    const json = await clone.json();
    type = 'json';
    parsed = json;
  } catch (error) { ... }
>> *)
Definition attempt (type : BodyType) (outcome : option RequestBody)
  : BodyType * option RequestBody :=
  match outcome with
  | Some parsed => (type, Some parsed)
  | None => (none, None)
  end.

(** [parseAndCloneBody(req)], current revision: [type] and [parsed] of the
    result, for the header [content-type] of the request ([None] when the
    request has none). *)
Definition parseAndCloneBody (header : option string) (clone : Clone)
  : BodyType * option RequestBody :=
  let contentType := default "" header in
  if includes "application/json" contentType then attempt json (c_json clone)
  else if includes "multipart/form-data" contentType
          || includes "application/x-www-form-urlencoded" contentType
  then attempt formData (c_formData clone)
  else if includes "text/plain" contentType then attempt text (c_text clone)
  else if includes "application/octet-stream" contentType
  then attempt arrayBuffer (c_arrayBuffer clone)
  else if includes "application/blob" contentType then attempt blob (c_blob clone)
  else (none, None).

(** The earlier revision awaits the reader outside of any [try]: the call
    rejects when the reader does, which is the result [None]. *)
Definition awaited (type : BodyType) (outcome : option RequestBody)
  : option (BodyType * option RequestBody) :=
  match outcome with
  | Some parsed => Some (type, Some parsed)
  | None => None
  end.

Definition parseAndCloneBody_earlier (header : option string) (clone : Clone)
  : option (BodyType * option RequestBody) :=
  let contentType := default "" header in
  if includes "application/json" contentType then awaited json (c_json clone)
  else if includes "multipart/form-data" contentType
          || includes "application/x-www-form-urlencoded" contentType
  then awaited formData (c_formData clone)
  else if includes "text/plain" contentType then awaited text (c_text clone)
  else if includes "application/octet-stream" contentType
  then awaited arrayBuffer (c_arrayBuffer clone)
  else if includes "application/blob" contentType then awaited blob (c_blob clone)
  else Some (none, None).

End Readers.

End Body.

(** ** Proof steps *)

(** Case analysis on the tests of a block of [numberCheck]. *)
Ltac block_cases :=
  repeat match goal with
         | |- context [if ?c then _ else _] => destruct c
         | |- context [match ?x with Js.VNum _ => _ | _ => _ end] => destruct x
         end.

(** Decides the tests [def.type === "..."] once the tag is known. *)
Ltac pick_branch :=
  repeat match goal with
         | |- context [Js.isStr (Js.VStr ?a) ?b] =>
             let r := eval vm_compute in (Js.isStr (Js.VStr a) b) in
             change (Js.isStr (Js.VStr a) b) with r
         end;
  cbv iota.

(** * Properties *)

Section PathExamples.
Import Path.

Example mergePaths_api_tasks_1 : mergeMountPath "/api/" "/tasks" = "/api/tasks".
Proof. reflexivity. Qed.

Example mergePaths_api_tasks_2 : mergeMountPath "api" "tasks" = "/api/tasks".
Proof. reflexivity. Qed.

Example mergePaths_api_tasks_3 : mergeMountPath "/api" "/tasks/" = "/api/tasks".
Proof. reflexivity. Qed.

Example mergePaths_empty : mergeMountPath "" "//" = "/".
Proof. reflexivity. Qed.

Example convert_itemId :
  convertColonRoutesToBraces "/items/:itemId" = "/items/{itemId}".
Proof. reflexivity. Qed.

Example convert_inner_colon :
  convertColonRoutesToBraces "/a/:b:c/:/d:e" = "/a/{b:c}/:/d{e}".
Proof. reflexivity. Qed.

Example legacy_merge_1 : Legacy.mergePaths ["/api/"; "/tasks"] = "//api/tasks".
Proof. reflexivity. Qed.

Example legacy_merge_2 : Legacy.mergePaths ["api"; "tasks"] = "/api/tasks".
Proof. reflexivity. Qed.

Example legacy_merge_not_associative :
  Legacy.mergePaths [Legacy.mergePaths ["a"; "b"]; "c"] = "//a/b/c"
  /\ Legacy.mergePaths ["a"; Legacy.mergePaths ["b"; "c"]] = "/a/b/c".
Proof. split; reflexivity. Qed.

Example legacy_summary_is_empty :
  EndpointBuilder.summary (LegacyHono.buildEndpoint "/tasks" "get" [Hono.HFunction "list"])
  = [].
Proof. reflexivity. Qed.

Example current_summary_is_method_and_path :
  EndpointBuilder.summary (Hono.buildEndpoint "/tasks/:id" "delete" [Hono.HFunction "drop"])
  = JsString.units "DELETE /tasks/:id"
  /\ EndpointBuilder.path (Hono.buildEndpoint "/tasks/:id" "delete" [Hono.HFunction "drop"])
     = "/tasks/{id}".
Proof. split; reflexivity. Qed.

End PathExamples.

(** ** Strings *)

Section StringFacts.
Import JsString.

Lemma append_cons (c : ascii) (s t : string) :
  String c s +:+ t = String c (s +:+ t).
Proof. reflexivity. Qed.

Lemma append_nil_l (t : string) : "" +:+ t = t.
Proof. reflexivity. Qed.

Lemma append_empty_r (s : string) : s +:+ "" = s.
Proof.
  induction s as [|c s IH]; [reflexivity|].
  now rewrite append_cons, IH.
Qed.

Lemma append_assoc (s t u : string) : (s +:+ t) +:+ u = s +:+ (t +:+ u).
Proof.
  induction s as [|c s IH]; [reflexivity|].
  now rewrite !append_cons, IH.
Qed.

Lemma trimStart_fixed (c : ascii) (t : string) :
  isWhiteSpace c = false -> trimStart (String c t) = String c t.
Proof. intros H. simpl. now rewrite H. Qed.

Lemma trimEnd_head (c : ascii) (t : string) :
  isWhiteSpace c = false -> exists t', trimEnd (String c t) = String c t'.
Proof.
  intros H. simpl. destruct (trimEnd t) as [|d t'].
  - rewrite H. now exists "".
  - now exists (String d t').
Qed.

Lemma trimEnd_idem (s : string) : trimEnd (trimEnd s) = trimEnd s.
Proof.
  induction s as [|c t IH]; [reflexivity|].
  simpl. destruct (trimEnd t) as [|d t'] eqn:E.
  - destruct (isWhiteSpace c) eqn:W; simpl; [reflexivity | now rewrite W].
  - change (trimEnd (String c (String d t'))) with
      (match trimEnd (String d t') with
       | "" => if isWhiteSpace c then "" else String c ""
       | String d0 t0 => String c (String d0 t0)
       end).
    now rewrite IH.
Qed.

Lemma trimStart_cases (s : string) :
  trimStart s = "" \/ exists c t, trimStart s = String c t /\ isWhiteSpace c = false.
Proof.
  induction s as [|c t IH]; [now left|].
  simpl. destruct (isWhiteSpace c) eqn:W; [exact IH|].
  right. now exists c, t.
Qed.

Lemma trim_idem (s : string) : trim (trim s) = trim s.
Proof.
  unfold trim. destruct (trimStart_cases s) as [E | (c & t & E & W)]; rewrite E.
  - reflexivity.
  - destruct (trimEnd_head c t W) as [t' E']. rewrite E'.
    rewrite (trimStart_fixed c t' W). rewrite <- E'. apply trimEnd_idem.
Qed.

Lemma trimStart_no_char (a : ascii) (s : string) :
  includesChar a s = false -> includesChar a (trimStart s) = false.
Proof.
  induction s as [|c t IH]; [reflexivity|].
  intros H. simpl. destruct (isWhiteSpace c); [|exact H].
  apply IH. simpl in H. now apply orb_false_elim in H.
Qed.

Lemma trimEnd_no_char (a : ascii) (s : string) :
  includesChar a s = false -> includesChar a (trimEnd s) = false.
Proof.
  induction s as [|c t IH]; [reflexivity|].
  intros H. simpl in H. apply orb_false_elim in H as [Hc Ht].
  specialize (IH Ht). simpl. destruct (trimEnd t) as [|d t'].
  - destruct (isWhiteSpace c); [reflexivity|]. simpl. now rewrite Hc.
  - change (includesChar a (String c (String d t')))
      with (Ascii.eqb c a || includesChar a (String d t')).
    now rewrite Hc, IH.
Qed.

Lemma trim_no_char (a : ascii) (s : string) :
  includesChar a s = false -> includesChar a (trim s) = false.
Proof. intros H. unfold trim. now apply trimEnd_no_char, trimStart_no_char. Qed.

Lemma split_nonempty (sep : ascii) (s : string) : split sep s <> [].
Proof.
  induction s as [|c t IH]; simpl; [discriminate|].
  destruct (Ascii.eqb c sep); [discriminate|].
  destruct (split sep t); discriminate.
Qed.

Lemma split_no_sep (sep : ascii) (s : string) :
  Forall (fun x => includesChar sep x = false) (split sep s).
Proof.
  induction s as [|c t IH]; simpl.
  - now constructor.
  - destruct (Ascii.eqb c sep) eqn:E.
    + now constructor.
    + destruct (split sep t) as [|seg segs].
      * constructor; [|constructor]. simpl. now rewrite E.
      * inversion IH; subst. constructor; [|assumption]. simpl. now rewrite E.
Qed.

Lemma split_without_sep (sep : ascii) (x : string) :
  includesChar sep x = false -> split sep x = [x].
Proof.
  induction x as [|c t IH]; [reflexivity|].
  simpl. intros H. apply orb_false_elim in H as [Hc Ht].
  now rewrite Hc, (IH Ht).
Qed.

Lemma split_app_sep (sep : ascii) (x t : string) :
  includesChar sep x = false ->
  split sep (x +:+ String sep t) = x :: split sep t.
Proof.
  induction x as [|c x IH].
  - intros _. rewrite append_nil_l. simpl. now rewrite Ascii.eqb_refl.
  - intros H. simpl in H. apply orb_false_elim in H as [Hc Hx].
    rewrite append_cons. simpl. now rewrite Hc, (IH Hx).
Qed.

Lemma split_join (sep : ascii) (l : list string) :
  l <> [] ->
  Forall (fun x => includesChar sep x = false) l ->
  split sep (join (String sep "") l) = l.
Proof.
  induction l as [|x rest IH]; [congruence|].
  intros _ H. inversion H as [|? ? Hx Hrest]; subst.
  destruct rest as [|y r].
  - simpl. now apply split_without_sep.
  - change (join (String sep "") (x :: y :: r))
      with (x +:+ String sep "" +:+ join (String sep "") (y :: r)).
    change (String sep "" +:+ join (String sep "") (y :: r))
      with (String sep (join (String sep "") (y :: r))).
    rewrite (split_app_sep _ _ _ Hx). f_equal. now apply IH.
Qed.

End StringFacts.

(** ** Path merging *)

Section MergeFacts.
Import JsString Path.

Lemma mergePaths_segments (parts : list string) :
  mergePaths parts = "/" +:+ join "/" (flat_map segmentsOf parts).
Proof.
  unfold mergePaths. do 2 f_equal.
  induction parts as [|p rest IH]; [reflexivity|].
  simpl. rewrite List.filter_app, List.map_app, IH. reflexivity.
Qed.

Lemma segmentsOf_clean (p : string) : Forall cleanSegment (segmentsOf p).
Proof.
  unfold segmentsOf.
  pose proof (split_no_sep "/" p) as H.
  induction H as [|x l Hx _ IH]; simpl; [constructor|].
  unfold keepSegment at 1. destruct (truthy x && truthy (trim x)) eqn:K; [|exact IH].
  simpl. constructor; [|exact IH].
  apply andb_prop in K as [_ K].
  repeat split; [exact K | apply trim_idem | now apply trim_no_char].
Qed.

Lemma keep_clean (l : list string) :
  Forall cleanSegment l -> map trim (List.filter keepSegment l) = l.
Proof.
  induction 1 as [|x l (Hx & Ht & _) _ IH]; [reflexivity|].
  simpl. unfold keepSegment at 1. rewrite Ht, Hx. simpl. now rewrite Ht, IH.
Qed.

Lemma segmentsOf_out (l : list string) :
  Forall cleanSegment l -> segmentsOf ("/" +:+ join "/" l) = l.
Proof.
  intros H. unfold segmentsOf.
  change ("/" +:+ join "/" l) with (String "/" (join "/" l)).
  change (split "/" (String "/" (join "/" l)))
    with ("" :: split "/" (join "/" l)).
  change (List.filter keepSegment ("" :: split "/" (join "/" l)))
    with (List.filter keepSegment (split "/" (join "/" l))).
  destruct l as [|x rest]; [reflexivity|].
  rewrite split_join; [now apply keep_clean | discriminate |].
  eapply Forall_impl; [exact H|]. now intros y (_ & _ & Hy).
Qed.

Lemma mergePaths_pair (a b : string) :
  mergePaths [a; b] = "/" +:+ join "/" (segmentsOf a ++ segmentsOf b).
Proof. rewrite mergePaths_segments. simpl. now rewrite app_nil_r. Qed.

Lemma segmentsOf_mergePaths (parts : list string) :
  segmentsOf (mergePaths parts) = flat_map segmentsOf parts.
Proof.
  rewrite mergePaths_segments. apply segmentsOf_out.
  induction parts as [|p rest IH]; [constructor|].
  simpl. apply Forall_app. split; [apply segmentsOf_clean | exact IH].
Qed.

Lemma mergePaths_assoc (a b c : string) :
  mergePaths [mergePaths [a; b]; c] = mergePaths [a; mergePaths [b; c]].
Proof.
  rewrite (mergePaths_segments [mergePaths [a; b]; c]).
  rewrite (mergePaths_segments [a; mergePaths [b; c]]).
  simpl. rewrite !segmentsOf_mergePaths. simpl.
  rewrite !app_nil_r. now rewrite app_assoc.
Qed.

Lemma mergePaths_again (parts : list string) :
  mergePaths [mergePaths parts] = mergePaths parts.
Proof.
  rewrite (mergePaths_segments [mergePaths parts]). simpl.
  rewrite segmentsOf_mergePaths, app_nil_r. now rewrite <- mergePaths_segments.
Qed.

Lemma mergePaths_empty_r (parts : list string) :
  mergePaths [mergePaths parts; ""] = mergePaths parts.
Proof.
  rewrite (mergePaths_segments [mergePaths parts; ""]). simpl.
  rewrite segmentsOf_mergePaths, app_nil_r. now rewrite <- mergePaths_segments.
Qed.

Lemma mergePaths_empty_l (parts : list string) :
  mergePaths [""; mergePaths parts] = mergePaths parts.
Proof.
  rewrite (mergePaths_segments [""; mergePaths parts]). simpl.
  rewrite segmentsOf_mergePaths, app_nil_r. now rewrite <- mergePaths_segments.
Qed.

(** Trimming first and discarding the empty segments afterwards keeps the
    same segments as the filter and the map of the source. *)
Lemma segmentsOf_trim_first (l : list string) :
  map trim (List.filter keepSegment l) = List.filter truthy (map trim l).
Proof.
  induction l as [|x l IH]; [reflexivity|].
  simpl. unfold keepSegment at 1.
  destruct x as [|c t].
  - simpl. exact IH.
  - change (truthy (String c t)) with true. rewrite andb_true_l.
    destruct (truthy (trim (String c t))); simpl; now rewrite IH.
Qed.

End MergeFacts.

(** ** Path normalisation *)

Section ConvertFacts.
Import JsString Path.

Lemma split_cons_other (c : ascii) (o : string) :
  Ascii.eqb c "/" = false ->
  exists seg segs,
    split "/" o = seg :: segs /\ split "/" (String c o) = String c seg :: segs.
Proof.
  intros H. simpl. rewrite H.
  destruct (split "/" o) as [|seg segs] eqn:E.
  - now destruct (split_nonempty "/" o).
  - now exists seg, segs.
Qed.

(** A character other than [":"] and ["/"] in front of a path leaves it
    free of colon parameters when all segments but the first are. *)
Lemma hasColonParam_cons (c : ascii) (o : string) :
  Ascii.eqb c "/" = false ->
  Ascii.eqb c ":" = false ->
  existsb isColonParam (tail (split "/" o)) = false ->
  hasColonParam (String c o) = false.
Proof.
  intros Hs Hc H. unfold hasColonParam.
  destruct (split_cons_other c o Hs) as (seg & segs & E1 & E2).
  rewrite E2. rewrite E1 in H. simpl in H. simpl.
  rewrite H, orb_false_r. destruct seg; simpl; [reflexivity | exact Hc].
Qed.

Lemma colon_tail_weaken (o : string) :
  hasColonParam o = false -> existsb isColonParam (tail (split "/" o)) = false.
Proof.
  unfold hasColonParam. destruct (split "/" o) as [|seg segs]; [reflexivity|].
  simpl. intros H. now apply orb_false_elim in H.
Qed.

Lemma replaceParams_no_colon (s : string) :
  hasColonParam (replaceParams false s) = false /\
  existsb isColonParam (tail (split "/" (replaceParams true s))) = false.
Proof.
  induction s as [|c t [IHf IHt]]; [split; reflexivity|].
  split.
  - simpl. destruct (Ascii.eqb c ":") eqn:Hc.
    + destruct t as [|d t']; [reflexivity|].
      destruct (Ascii.eqb d "/") eqn:Hd.
      * (* a colon in front of a slash is kept; its segment is ":" alone *)
        apply Ascii.eqb_eq in Hd. subst d.
        revert IHf. simpl. unfold hasColonParam. simpl.
        intros IHf. exact IHf.
      * apply hasColonParam_cons; [reflexivity | reflexivity | exact IHt].
    + destruct (Ascii.eqb c "/") eqn:Hs.
      * apply Ascii.eqb_eq in Hs. subst c. exact IHf.
      * apply hasColonParam_cons; [exact Hs | exact Hc |].
        now apply colon_tail_weaken.
  - simpl. destruct (Ascii.eqb c "/") eqn:Hs.
    + exact IHf.
    + destruct (split_cons_other c (replaceParams true t) Hs)
        as (seg & segs & E1 & E2).
      rewrite E2. rewrite E1 in IHt. exact IHt.
Qed.

Lemma convert_no_colon (path : string) :
  hasColonParam (convertColonRoutesToBraces path) = false.
Proof. apply replaceParams_no_colon. Qed.

(** The three equations of the global replace. *)
Lemma convert_other (c : ascii) (t : string) :
  Ascii.eqb c ":" = false ->
  convertColonRoutesToBraces (String c t) = String c (convertColonRoutesToBraces t).
Proof. intros H. unfold convertColonRoutesToBraces. simpl. now rewrite H. Qed.

Lemma convert_colon_unmatched (t : string) :
  t = "" \/ (exists t', t = String "/" t') ->
  convertColonRoutesToBraces (String ":" t) = String ":" (convertColonRoutesToBraces t).
Proof. intros [-> | [t' ->]]; reflexivity. Qed.

Lemma replaceParams_name (name rest : string) :
  includesChar "/" name = false ->
  rest = "" \/ (exists t', rest = String "/" t') ->
  replaceParams true (name +:+ rest) = name +:+ "}" +:+ replaceParams false rest.
Proof.
  intros Hn Hr. induction name as [|c n IH].
  - rewrite !append_nil_l. destruct Hr as [-> | [t' ->]]; reflexivity.
  - simpl in Hn. apply orb_false_elim in Hn as [Hc Hn].
    rewrite !append_cons. simpl. rewrite Hc. now rewrite (IH Hn).
Qed.

Lemma convert_colon_matched (name rest : string) :
  truthy name = true ->
  includesChar "/" name = false ->
  rest = "" \/ (exists t', rest = String "/" t') ->
  convertColonRoutesToBraces (":" +:+ name +:+ rest)
  = "{" +:+ name +:+ "}" +:+ convertColonRoutesToBraces rest.
Proof.
  intros Ht Hn Hr. unfold convertColonRoutesToBraces.
  destruct name as [|c n]; [discriminate|].
  change (":" +:+ String c n +:+ rest) with (String ":" (String c (n +:+ rest))).
  change ("{" +:+ String c n +:+ "}" +:+ replaceParams false rest)
    with (String "{" (String c n +:+ "}" +:+ replaceParams false rest)).
  rewrite <- (replaceParams_name (String c n) rest Hn Hr).
  simpl in Hn. apply orb_false_elim in Hn as [Hc _].
  simpl. now rewrite Hc.
Qed.

End ConvertFacts.

(** ** The translator is defined on every node *)

Section TranslatorRecursion.
Import Js Translator.

Lemma height_lookupField (k : string) (fields : list (string * JsVal)) :
  height (lookupField k fields) < height (VObj fields).
Proof.
  induction fields as [|[k' v] rest IH]; simpl; [lia|].
  destruct (String.eqb k k'); simpl in *; lia.
Qed.

Lemma height_prop (v : JsVal) (k : string) : height (prop v k) <= height v.
Proof.
  destruct v; simpl; try lia.
  - destruct (String.eqb k "length"); simpl; lia.
  - destruct (String.eqb k "length"); simpl; lia.
  - pose proof (height_lookupField k fields) as H. simpl in H. lia.
  - destruct (String.eqb k "length"); simpl; lia.
  - destruct (String.eqb k "source"); simpl; lia.
Qed.

Lemma height_getOpt (v : JsVal) (k : string) : height (getOpt v k) <= height v.
Proof.
  unfold getOpt. destruct (isNullish v); [simpl; lia | apply height_prop].
Qed.

Lemma height_jsOr (a b : JsVal) (n : nat) :
  height a <= n -> height b <= n -> height (jsOr a b) <= n.
Proof. unfold jsOr. now destruct (truthy a). Qed.

Lemma height_callIfFunction (f : JsVal) : height (callIfFunction f) <= height f.
Proof. destruct f; simpl; lia. Qed.

Lemma height_items (items : list JsVal) :
  Forall (fun x => height x < height (VArr items)) items.
Proof.
  induction items as [|x rest IH]; constructor; simpl in *; [lia|].
  eapply Forall_impl; [exact IH|]. simpl. intros y Hy. lia.
Qed.

Lemma height_fields (fields : list (string * JsVal)) :
  Forall (fun kv => height (snd kv) < height (VObj fields)) fields.
Proof.
  induction fields as [|[k v] rest IH]; constructor; simpl in *; [lia|].
  eapply Forall_impl; [exact IH|]. simpl. intros y Hy. lia.
Qed.

Lemma height_indexed (l : list JsVal) (n i : nat) :
  Forall (fun x => height x <= n) l ->
  Forall (fun kv => height (snd kv) <= n) (indexed i l).
Proof.
  intros H. revert i. induction H as [|x rest Hx _ IH]; intros i; simpl;
    constructor; [exact Hx | apply IH].
Qed.

Lemma height_chars (s : string) (n : nat) : Forall (fun x => height x <= n) (chars s).
Proof. induction s; simpl; constructor; [simpl; lia | assumption]. Qed.

Lemma height_entriesOf (v : JsVal) :
  Forall (fun kv => height (snd kv) <= height v) (entriesOf v).
Proof.
  destruct v as [| | b | n | s | items | fields | r | src]; simpl; try constructor.
  - apply height_indexed, height_chars.
  - apply height_indexed. eapply Forall_impl; [apply height_items|].
    simpl. intros; lia.
  - eapply Forall_impl; [apply height_fields|]. simpl. intros; lia.
Qed.

Lemma bind_Ok {A B : Type} (a : A) (f : A -> result B) : (x ← Ok a; f x) = f a.
Proof. reflexivity. Qed.

Lemma bind_Err {A B : Type} (e : JsError) (f : A -> result B) :
  (x ← Err e; f x) = Err e.
Proof. reflexivity. Qed.

Lemma mapResult_ext {A B : Type} (f g : A -> result B) (l : list A) :
  Forall (fun x => f x = g x) l -> mapResult f l = mapResult g l.
Proof.
  induction 1 as [|x rest Hx _ IH]; [reflexivity|].
  simpl. now rewrite Hx, IH.
Qed.

Lemma jsMap_ext (v : JsVal) (f g : JsVal -> result JsVal) :
  (forall x, height x <= height v -> f x = g x) -> jsMap v f = jsMap v g.
Proof.
  intros H. destruct v as [| | b | n | s | items | fields | r | src]; try reflexivity.
  simpl. rewrite (mapResult_ext f g); [reflexivity|].
  eapply Forall_impl; [apply height_items|].
  intros x Hx. apply H. simpl in *. lia.
Qed.

Section Locality.
Variables rec1 rec2 : JsVal -> result JsVal.
Variable def : JsVal.
Hypothesis rec_agree : forall x, height x <= height def -> rec1 x = rec2 x.

Lemma arraySchema_local : arraySchema rec1 def = arraySchema rec2 def.
Proof.
  unfold arraySchema. rewrite rec_agree; [reflexivity|].
  repeat apply height_jsOr; apply height_prop.
Qed.

Lemma objectFields_local (entries : list (string * JsVal)) :
  Forall (fun kv => height (snd kv) <= height def) entries ->
  forall properties required,
    objectFields rec1 entries properties required
    = objectFields rec2 entries properties required.
Proof.
  induction 1 as [|[key value] rest Hv _ IH]; intros properties required; [reflexivity|].
  simpl. destruct (findDef value) as [propDef|e]; [|reflexivity]. simpl.
  rewrite (rec_agree value Hv).
  destruct (rec2 value) as [propSchema|e]; [|reflexivity]. simpl.
  destruct (assignKey properties key propSchema) as [properties'|e]; [|reflexivity].
  simpl. apply IH.
Qed.

Lemma objectSchema_local : objectSchema rec1 def = objectSchema rec2 def.
Proof.
  unfold objectSchema. rewrite objectFields_local; [reflexivity|].
  unfold jsOr. destruct (truthy (callIfFunction (prop def "shape"))); [|constructor].
  eapply Forall_impl; [apply height_entriesOf|].
  intros kv Hkv. simpl in Hkv. etransitivity; [exact Hkv|].
  etransitivity; [apply height_callIfFunction | apply height_prop].
Qed.

Lemma nullableSchema_local : nullableSchema rec1 def = nullableSchema rec2 def.
Proof. unfold nullableSchema. now rewrite rec_agree by apply height_prop. Qed.

Lemma defaultSchema_local : defaultSchema rec1 def = defaultSchema rec2 def.
Proof. unfold defaultSchema. now rewrite rec_agree by apply height_prop. Qed.

Lemma jsMap_local (k : string) :
  jsMap (jsOr (prop def k) (VArr [])) rec1 = jsMap (jsOr (prop def k) (VArr [])) rec2.
Proof.
  unfold jsOr. destruct (truthy (prop def k)); [|reflexivity].
  apply jsMap_ext. intros x Hx. apply rec_agree. pose proof (height_prop def k). lia.
Qed.

Lemma unionSchema_local : unionSchema rec1 def = unionSchema rec2 def.
Proof.
  unfold unionSchema. now rewrite jsMap_local.
Qed.

Lemma intersectionSchema_local :
  intersectionSchema rec1 def = intersectionSchema rec2 def.
Proof. unfold intersectionSchema. now rewrite !rec_agree by apply height_prop. Qed.

Lemma recordSchema_local : recordSchema rec1 def = recordSchema rec2 def.
Proof. unfold recordSchema. now rewrite rec_agree by apply height_prop. Qed.

Lemma tupleSchema_local : tupleSchema rec1 def = tupleSchema rec2 def.
Proof.
  unfold tupleSchema. rewrite jsMap_local.
  now rewrite rec_agree by apply height_prop.
Qed.

Lemma setSchema_local : setSchema rec1 def = setSchema rec2 def.
Proof. unfold setSchema. now rewrite rec_agree by apply height_prop. Qed.

Lemma mapSchema_local : mapSchema rec1 def = mapSchema rec2 def.
Proof. unfold mapSchema. now rewrite rec_agree by apply height_prop. Qed.

Lemma translateDef_local (schema : JsVal) :
  translateDef rec1 schema def = translateDef rec2 schema def.
Proof.
  unfold translateDef.
  rewrite arraySchema_local, objectSchema_local, nullableSchema_local,
    defaultSchema_local, unionSchema_local, intersectionSchema_local,
    recordSchema_local, tupleSchema_local, setSchema_local, mapSchema_local.
  now rewrite !rec_agree by apply height_prop.
Qed.

End Locality.

Lemma findDef_height (schema def : JsVal) :
  findDef schema = Ok def -> truthy def = true -> height def < height schema.
Proof.
  unfold findDef, get.
  destruct schema as [| | b | n | s | items | fields | r | src]; simpl;
    try discriminate; intros E T; inversion E; subst; clear E;
    try discriminate T.
  pose proof (height_lookupField "_zod" fields) as Hz.
  pose proof (height_lookupField "_def" fields) as H1.
  pose proof (height_lookupField "def" fields) as H2.
  pose proof (height_getOpt (lookupField "_zod" fields) "def") as H3.
  simpl in Hz, H1, H2.
  assert (height (jsOr (getOpt (lookupField "_zod" fields) "def")
            (jsOr (lookupField "_def" fields) (lookupField "def" fields)))
          <= fold_right (fun kv acc => Nat.max (height (snd kv)) acc) 0 fields)
    as H by (repeat apply height_jsOr; lia).
  lia.
Qed.

Lemma translateNode_local (rec1 rec2 : JsVal -> result JsVal) (schema : JsVal) :
  (forall x, height x < height schema -> rec1 x = rec2 x) ->
  translateNode rec1 schema = translateNode rec2 schema.
Proof.
  intros H. unfold translateNode.
  destruct (findDef schema) as [def|e] eqn:E; [|now rewrite !bind_Err].
  rewrite !bind_Ok.
  destruct (truthy def) eqn:T;
    [|change (negb false) with true; cbv iota; reflexivity].
  change (negb true) with false. cbv iota.
  apply translateDef_local. intros x Hx. apply H.
  pose proof (findDef_height schema def E T). lia.
Qed.

Lemma translate_fuel (n : nat) :
  forall (m : nat) (schema : JsVal),
    height schema < n -> height schema < m ->
    translate n schema = translate m schema.
Proof.
  induction n as [|n IH]; intros m schema Hn Hm; [lia|].
  destruct m as [|m]; [lia|].
  change (translateNode (translate n) schema = translateNode (translate m) schema).
  apply translateNode_local. intros x Hx. apply IH; lia.
Qed.

(** The equation of the source: the translator applied to a node is the
    body of the function, with the translator itself for the nodes below. *)
Lemma zodSchemaToOpenAPISchema_unfold (schema : JsVal) :
  zodSchemaToOpenAPISchema schema = translateNode zodSchemaToOpenAPISchema schema.
Proof.
  unfold zodSchemaToOpenAPISchema at 1.
  change (translate (S (height schema)) schema)
    with (translateNode (translate (height schema)) schema).
  apply translateNode_local. intros x Hx.
  unfold zodSchemaToOpenAPISchema. apply translate_fuel; lia.
Qed.

End TranslatorRecursion.

(** ** Objects as property lists *)

Section ObjectFacts.
Import Js.

Lemma lookup_replace_eq (fields : list (string * JsVal)) (k : string) (v : JsVal) :
  hasKey k fields = true -> lookupField k (replaceField fields k v) = v.
Proof.
  unfold hasKey. induction fields as [|[k' v'] rest IH]; simpl; [discriminate|].
  destruct (String.eqb k k') eqn:E; simpl.
  - now rewrite String.eqb_refl.
  - rewrite E. exact IH.
Qed.

Lemma lookup_replace_ne (fields : list (string * JsVal)) (k k' : string) (v : JsVal) :
  k <> k' -> lookupField k (replaceField fields k' v) = lookupField k fields.
Proof.
  intros N. apply String.eqb_neq in N.
  induction fields as [|[k0 v0] rest IH]; simpl; [reflexivity|].
  destruct (String.eqb k' k0) eqn:E; simpl.
  - apply String.eqb_eq in E. subst k0. now rewrite N.
  - destruct (String.eqb k k0); [reflexivity | exact IH].
Qed.

Lemma lookup_insert_eq (fields : list (string * JsVal)) (n : N) (k : string) (v : JsVal) :
  hasKey k fields = false -> lookupField k (insertIndex fields n k v) = v.
Proof.
  unfold hasKey. induction fields as [|[k' v'] rest IH]; simpl.
  - now rewrite String.eqb_refl.
  - intros H. apply orb_false_iff in H as [E H].
    destruct (arrayIndex k') as [m|]; [destruct (N.ltb m n)|]; simpl;
      rewrite ?String.eqb_refl, ?E; auto.
Qed.

Lemma lookup_insert_ne (fields : list (string * JsVal)) (n : N) (k k' : string)
    (v : JsVal) :
  k <> k' -> lookupField k (insertIndex fields n k' v) = lookupField k fields.
Proof.
  intros N. apply String.eqb_neq in N.
  induction fields as [|[k0 v0] rest IH]; simpl.
  - now rewrite N.
  - destruct (arrayIndex k0) as [m|]; [destruct (N.ltb m n)|]; simpl;
      rewrite ?N, ?IH; reflexivity.
Qed.

Lemma lookup_snoc_eq (fields : list (string * JsVal)) (k : string) (v : JsVal) :
  hasKey k fields = false -> lookupField k (fields ++ [(k, v)]) = v.
Proof.
  unfold hasKey. induction fields as [|[k' v'] rest IH]; simpl.
  - now rewrite String.eqb_refl.
  - intros H. apply orb_false_iff in H as [E H]. rewrite E. auto.
Qed.

Lemma lookup_snoc_ne (fields : list (string * JsVal)) (k k' : string) (v : JsVal) :
  k <> k' -> lookupField k (fields ++ [(k', v)]) = lookupField k fields.
Proof.
  intros N. apply String.eqb_neq in N.
  induction fields as [|[k0 v0] rest IH]; simpl.
  - now rewrite N.
  - now rewrite IH.
Qed.

Lemma lookup_assign_eq (fields : list (string * JsVal)) (k : string) (v : JsVal) :
  lookupField k (assignField fields k v) = v.
Proof.
  unfold assignField. destruct (hasKey k fields) eqn:H.
  - now apply lookup_replace_eq.
  - destruct (arrayIndex k); [now apply lookup_insert_eq | now apply lookup_snoc_eq].
Qed.

Lemma lookup_assign_ne (fields : list (string * JsVal)) (k k' : string) (v : JsVal) :
  k <> k' -> lookupField k (assignField fields k' v) = lookupField k fields.
Proof.
  intros N. unfold assignField. destruct (hasKey k' fields).
  - now apply lookup_replace_ne.
  - destruct (arrayIndex k'); [now apply lookup_insert_ne | now apply lookup_snoc_ne].
Qed.

Lemma assign_plain (o : JsVal) (k : string) (v : JsVal) :
  isPlainObject o = true -> isPlainObject (assign o k v) = true.
Proof. now destruct o. Qed.

Lemma prop_assign_eq (o : JsVal) (k : string) (v : JsVal) :
  isPlainObject o = true -> prop (assign o k v) k = v.
Proof. destruct o; try discriminate. intros _. apply lookup_assign_eq. Qed.

Lemma prop_assign_ne (o : JsVal) (k k' : string) (v : JsVal) :
  k <> k' -> prop (assign o k' v) k = prop o k.
Proof.
  intros N. destruct o; try reflexivity. simpl. now apply lookup_assign_ne.
Qed.

Lemma hasKey_replace (fields : list (string * JsVal)) (k k' : string) (v : JsVal) :
  hasKey k' fields = true -> hasKey k (replaceField fields k' v) = hasKey k fields.
Proof.
  unfold hasKey. induction fields as [|[k0 v0] rest IH]; simpl; [discriminate|].
  destruct (String.eqb k' k0) eqn:E; simpl.
  - apply String.eqb_eq in E. now subst k0.
  - intros H. now rewrite IH.
Qed.

Lemma hasKey_insert (fields : list (string * JsVal)) (n : N) (k k' : string)
    (v : JsVal) :
  hasKey k (insertIndex fields n k' v) = String.eqb k k' || hasKey k fields.
Proof.
  unfold hasKey. induction fields as [|[k0 v0] rest IH]; simpl; [reflexivity|].
  destruct (arrayIndex k0) as [m|]; [destruct (N.ltb m n)|]; simpl; try reflexivity.
  rewrite IH. destruct (String.eqb k k0), (String.eqb k k'); reflexivity.
Qed.

Lemma hasKey_snoc (fields : list (string * JsVal)) (k k' : string) (v : JsVal) :
  hasKey k (fields ++ [(k', v)]) = String.eqb k k' || hasKey k fields.
Proof.
  unfold hasKey. rewrite existsb_app. simpl.
  destruct (String.eqb k k'), (existsb _ fields); reflexivity.
Qed.

Lemma hasKey_assign (fields : list (string * JsVal)) (k k' : string) (v : JsVal) :
  existsb (fun kv => String.eqb k (fst kv)) (assignField fields k' v)
  = String.eqb k k' || existsb (fun kv => String.eqb k (fst kv)) fields.
Proof.
  change (hasKey k (assignField fields k' v) = String.eqb k k' || hasKey k fields).
  unfold assignField. destruct (hasKey k' fields) eqn:H.
  - rewrite hasKey_replace by exact H.
    destruct (String.eqb k k') eqn:E; [|reflexivity].
    apply String.eqb_eq in E. subst k'. now rewrite H.
  - destruct (arrayIndex k'); [apply hasKey_insert | apply hasKey_snoc].
Qed.

End ObjectFacts.

(** ** Number checks *)

Section NumberChecks.
Import Js Translator.

Lemma toInteger_plain (base : JsVal) :
  isPlainObject base = true -> isPlainObject (toInteger base) = true.
Proof. intros H. unfold toInteger. now do 2 apply assign_plain. Qed.

Lemma toInteger_other (base : JsVal) (k : string) :
  k <> "type" -> k <> "example" -> prop (toInteger base) k = prop base k.
Proof. intros H1 H2. unfold toInteger. now rewrite !prop_assign_ne. Qed.

Lemma isIntCheck_plain (base check : JsVal) :
  isPlainObject base = true -> isPlainObject (isIntCheck base check) = true.
Proof. intros H. unfold isIntCheck. block_cases; auto using toInteger_plain. Qed.

Lemma safeintCheck_plain (base check : JsVal) :
  isPlainObject base = true -> isPlainObject (safeintCheck base check) = true.
Proof. intros H. unfold safeintCheck. block_cases; auto using toInteger_plain. Qed.

Lemma minValueCheck_plain (base check : JsVal) :
  isPlainObject base = true -> isPlainObject (minValueCheck base check) = true.
Proof. intros H. unfold minValueCheck. block_cases; auto using assign_plain. Qed.

Lemma maxValueCheck_plain (base check : JsVal) :
  isPlainObject base = true -> isPlainObject (maxValueCheck base check) = true.
Proof. intros H. unfold maxValueCheck. block_cases; auto using assign_plain. Qed.

Lemma nestedDefCheck_plain (base check : JsVal) :
  isPlainObject base = true -> isPlainObject (nestedDefCheck base check) = true.
Proof. intros H. unfold nestedDefCheck. block_cases; auto using toInteger_plain. Qed.

Lemma structuredCheck_plain (base check : JsVal) :
  isPlainObject base = true -> isPlainObject (structuredCheck base check) = true.
Proof.
  intros H. unfold structuredCheck.
  now apply nestedDefCheck_plain, maxValueCheck_plain, minValueCheck_plain,
    safeintCheck_plain, isIntCheck_plain.
Qed.

Lemma isIntCheck_other (base check : JsVal) (k : string) :
  k <> "type" -> k <> "example" -> prop (isIntCheck base check) k = prop base k.
Proof. intros. unfold isIntCheck. block_cases; auto using toInteger_other. Qed.

Lemma safeintCheck_other (base check : JsVal) (k : string) :
  k <> "type" -> k <> "example" -> prop (safeintCheck base check) k = prop base k.
Proof. intros. unfold safeintCheck. block_cases; auto using toInteger_other. Qed.

Lemma nestedDefCheck_other (base check : JsVal) (k : string) :
  k <> "type" -> k <> "example" -> prop (nestedDefCheck base check) k = prop base k.
Proof. intros. unfold nestedDefCheck. block_cases; auto using toInteger_other. Qed.

Lemma minValueCheck_other (base check : JsVal) (k : string) :
  k <> "minimum" -> prop (minValueCheck base check) k = prop base k.
Proof. intros. unfold minValueCheck. block_cases; auto using prop_assign_ne. Qed.

Lemma maxValueCheck_other (base check : JsVal) (k : string) :
  k <> "maximum" -> prop (maxValueCheck base check) k = prop base k.
Proof. intros. unfold maxValueCheck. block_cases; auto using prop_assign_ne. Qed.

(** The blocks in front of the [switch] write [type], [example], [minimum]
    and [maximum] only. *)
Lemma structuredCheck_other (base check : JsVal) (k : string) :
  k <> "type" -> k <> "example" -> k <> "minimum" -> k <> "maximum" ->
  prop (structuredCheck base check) k = prop base k.
Proof.
  intros H1 H2 H3 H4. unfold structuredCheck.
  rewrite nestedDefCheck_other, maxValueCheck_other, minValueCheck_other,
    safeintCheck_other, isIntCheck_other by assumption.
  reflexivity.
Qed.

Lemma structuredCheck_minimum (base check : JsVal) (m : number) :
  isPlainObject base = true ->
  hasProp check "minValue" = true ->
  prop check "minValue" = VNum m ->
  prop (structuredCheck base check) "minimum"
  = if num_gt m MIN_SAFE_INTEGER then VNum m else prop base "minimum".
Proof.
  intros P H E. unfold structuredCheck.
  rewrite nestedDefCheck_other, maxValueCheck_other by discriminate.
  unfold minValueCheck. rewrite H, E.
  destruct (num_gt m MIN_SAFE_INTEGER).
  - apply prop_assign_eq. now apply safeintCheck_plain, isIntCheck_plain.
  - now rewrite safeintCheck_other, isIntCheck_other by discriminate.
Qed.

Lemma structuredCheck_maximum (base check : JsVal) (m : number) :
  isPlainObject base = true ->
  hasProp check "maxValue" = true ->
  prop check "maxValue" = VNum m ->
  prop (structuredCheck base check) "maximum"
  = if num_lt m MAX_SAFE_INTEGER then VNum m else prop base "maximum".
Proof.
  intros P H E. unfold structuredCheck.
  rewrite nestedDefCheck_other by discriminate.
  unfold maxValueCheck. rewrite H, E.
  destruct (num_lt m MAX_SAFE_INTEGER).
  - apply prop_assign_eq.
    now apply minValueCheck_plain, safeintCheck_plain, isIntCheck_plain.
  - now rewrite minValueCheck_other, safeintCheck_other, isIntCheck_other
      by discriminate.
Qed.

Lemma kindCheck_min (withInt : bool) (base check : JsVal) (v : number) :
  isPlainObject base = true ->
  isStr (prop check "kind") "min" = true ->
  prop check "value" = VNum v ->
  prop (kindCheck withInt base check) "minimum" = VNum v
  /\ prop (kindCheck withInt base check) "exclusiveMinimum"
     = if truthy (prop check "inclusive") then prop base "exclusiveMinimum"
       else VBool true.
Proof.
  intros P K V. unfold kindCheck. rewrite K, V.
  change (isNumber (VNum v)) with true. cbv iota.
  destruct (truthy (prop check "inclusive")); simpl negb; cbv iota.
  - split; [now apply prop_assign_eq | now rewrite prop_assign_ne by discriminate].
  - split.
    + rewrite prop_assign_ne by discriminate. now apply prop_assign_eq.
    + apply prop_assign_eq. now apply assign_plain.
Qed.

Lemma kindCheck_max (withInt : bool) (base check : JsVal) (v : number) :
  isPlainObject base = true ->
  isStr (prop check "kind") "max" = true ->
  prop check "value" = VNum v ->
  prop (kindCheck withInt base check) "maximum" = VNum v
  /\ prop (kindCheck withInt base check) "exclusiveMaximum"
     = if truthy (prop check "inclusive") then prop base "exclusiveMaximum"
       else VBool true.
Proof.
  intros P K V. unfold kindCheck.
  assert (isStr (prop check "kind") "min" = false) as N.
  { destruct (prop check "kind") as [| | | | s | | | |]; try discriminate K.
    simpl in *. apply String.eqb_eq in K. now subst s. }
  rewrite N, K, V.
  change (isNumber (VNum v)) with true. cbv iota.
  destruct (truthy (prop check "inclusive")); simpl negb; cbv iota.
  - split; [now apply prop_assign_eq | now rewrite prop_assign_ne by discriminate].
  - split.
    + rewrite prop_assign_ne by discriminate. now apply prop_assign_eq.
    + apply prop_assign_eq. now apply assign_plain.
Qed.

Lemma isStr_hasProp (check : JsVal) (k s : string) :
  isStr (prop check k) s = true -> hasProp check k = true \/ isPlainObject check = false.
Proof.
  destruct check as [| | | | | | fields | |]; try (now right).
  intros H. left. simpl in *.
  induction fields as [|[k' v'] rest IH]; simpl in *; [discriminate|].
  destruct (String.eqb k k'); [reflexivity | now apply IH].
Qed.

Lemma fold_numberCheck_plain (checks : list JsVal) (base : JsVal) :
  isPlainObject base = true ->
  isPlainObject (fold_left numberCheck checks base) = true.
Proof.
  revert base. induction checks as [|c rest IH]; intros base P; [exact P|].
  simpl. apply IH. unfold numberCheck.
  destruct (negb (isObject c)); [exact P|]. cbv zeta.
  destruct (hasProp c "kind"); [|now apply structuredCheck_plain].
  unfold kindCheck.
  pose proof (structuredCheck_plain base c P).
  block_cases; auto using assign_plain, toInteger_plain.
Qed.

(** A check added at the end of the checks is the last round of the loop. *)
Lemma numberSchema_snoc (def def' : JsVal) (pre : list JsVal) (check : JsVal) :
  prop def "checks" = VArr pre ->
  prop def' "checks" = VArr (pre ++ [check]) ->
  numberSchema def' = numberCheck (numberSchema def) check
  /\ isPlainObject (numberSchema def) = true.
Proof.
  intros E E'. unfold numberSchema, forChecks. rewrite E, E'.
  rewrite fold_left_app. split; [reflexivity|].
  now apply fold_numberCheck_plain.
Qed.

End NumberChecks.

(** ** The branches of the translator *)

Section TranslatorBranches.
Import Js Translator.

Lemma isStr_eq (v : JsVal) (s : string) : isStr v s = true -> v = VStr s.
Proof.
  destruct v; try discriminate. simpl. intros H.
  apply String.eqb_eq in H. now subst.
Qed.

Lemma tagged_truthy (def : JsVal) (tag : string) :
  isStr (prop def "type") tag = true -> truthy def = true.
Proof. destruct def; try discriminate; reflexivity. Qed.

Lemma translate_tagged (schema def : JsVal) (tag : string) :
  findDef schema = Ok def ->
  isStr (prop def "type") tag = true ->
  zodSchemaToOpenAPISchema schema = translateDef zodSchemaToOpenAPISchema schema def.
Proof.
  intros E T. rewrite zodSchemaToOpenAPISchema_unfold at 1.
  unfold translateNode. rewrite E, bind_Ok, (tagged_truthy def tag T).
  reflexivity.
Qed.

Lemma translate_number (schema def : JsVal) :
  findDef schema = Ok def ->
  isStr (prop def "type") "number" = true ->
  zodSchemaToOpenAPISchema schema = Ok (numberSchema def).
Proof.
  intros E T. rewrite (translate_tagged schema def "number" E T).
  unfold translateDef. rewrite (isStr_eq _ _ T). pick_branch. reflexivity.
Qed.

Lemma translate_object (schema def : JsVal) :
  findDef schema = Ok def ->
  isStr (prop def "type") "object" = true ->
  zodSchemaToOpenAPISchema schema = objectSchema zodSchemaToOpenAPISchema def.
Proof.
  intros E T. rewrite (translate_tagged schema def "object" E T).
  unfold translateDef. rewrite (isStr_eq _ _ T). pick_branch. reflexivity.
Qed.

(** A node that is an object without a definition is translated to the
    generic object schema. *)
Lemma translate_missing_def (schema def : JsVal) :
  findDef schema = Ok def ->
  truthy def = false ->
  zodSchemaToOpenAPISchema schema = Ok fallbackSchema.
Proof.
  intros E T. rewrite zodSchemaToOpenAPISchema_unfold.
  unfold translateNode. now rewrite E, bind_Ok, T.
Qed.

(** So is a node whose tag is none of the names of the chain. *)
Lemma translate_unrecognised (schema def : JsVal) :
  findDef schema = Ok def ->
  recognised (prop def "type") = false ->
  zodSchemaToOpenAPISchema schema = Ok fallbackSchema.
Proof.
  intros E R. rewrite zodSchemaToOpenAPISchema_unfold.
  unfold translateNode. rewrite E, bind_Ok.
  destruct (truthy def); [|reflexivity]. change (negb true) with false. cbv iota.
  unfold recognised, tagNames in R. cbn [existsb] in R.
  repeat (apply orb_false_elim in R as [?H R]).
  unfold translateDef.
  repeat match goal with
         | H : isStr _ _ = false |- _ => rewrite H; clear H
         end.
  reflexivity.
Qed.

(** The only node without a result for [findDef] is [null] or
    [undefined]. *)
Lemma findDef_defined (schema : JsVal) :
  isNullish schema = false -> exists def, findDef schema = Ok def.
Proof.
  intros H. unfold findDef, get. rewrite H. rewrite bind_Ok. eauto.
Qed.

End TranslatorBranches.

(** ** Object nodes *)

Section ObjectNodes.
Import Js Translator.

Lemma requiredKeys_cons (key : string) (value : JsVal) (rest : list (string * JsVal))
    (propDef : JsVal) :
  findDef value = Ok propDef ->
  requiredKeys ((key, value) :: rest)
  = (if isRequired propDef then [key] else []) ++ requiredKeys rest.
Proof.
  intros E. unfold requiredKeys, tagOf, isRequired. simpl. rewrite E.
  now destruct (negb (isStr (getOpt propDef "type") "optional")
                && negb (isStr (getOpt propDef "type") "default")).
Qed.

Lemma objectFields_spec (rec : JsVal -> result JsVal) (entries : list (string * JsVal)) :
  forall properties required properties' required',
    objectFields rec entries properties required = Ok (properties', required') ->
    required' = required ++ requiredKeys entries
    /\ forall k, hasKey k properties' = hasKey k properties || hasKey k entries.
Proof.
  induction entries as [|[key value] rest IH]; intros properties required properties' required' H.
  - simpl in H. inversion H; subst. split; [now rewrite app_nil_r|].
    intros k. simpl. now rewrite orb_false_r.
  - simpl in H.
    destruct (findDef value) as [propDef|e] eqn:E; [|discriminate].
    rewrite bind_Ok in H.
    destruct (rec value) as [propSchema|e]; [|discriminate].
    rewrite bind_Ok in H. unfold assignKey in H.
    destruct (String.eqb key "__proto__"); [discriminate|].
    rewrite bind_Ok in H.
    apply IH in H as [Hreq Hkeys].
    rewrite (requiredKeys_cons key value rest propDef E). split.
    + rewrite Hreq. destruct (isRequired propDef); simpl; [|reflexivity].
      now rewrite <- app_assoc.
    + intros k. rewrite Hkeys. unfold hasKey at 1. rewrite hasKey_assign.
      unfold hasKey. simpl. 
      destruct (String.eqb k key), (existsb _ properties); reflexivity.
Qed.

Lemma hasKey_In (k : string) (v : JsVal) (fields : list (string * JsVal)) :
  In (k, v) fields -> hasKey k fields = true.
Proof.
  intros H. unfold hasKey. apply existsb_exists. exists (k, v).
  split; [exact H | apply String.eqb_refl].
Qed.

Lemma requiredKeys_In (k : string) (entries : list (string * JsVal)) :
  In k (requiredKeys entries) ->
  exists v, In (k, v) entries
            /\ isStr (tagOf v) "optional" = false
            /\ isStr (tagOf v) "default" = false.
Proof.
  unfold requiredKeys. intros H. apply in_map_iff in H as ([k' v] & <- & H).
  apply filter_In in H as [H T]. exists v. split; [exact H|].
  simpl in T. apply andb_prop in T as [T1 T2].
  split; now apply negb_true_iff.
Qed.

Lemma NoDup_keys_unique (entries : list (string * JsVal)) (k : string) (v w : JsVal) :
  NoDup (map fst entries) -> In (k, v) entries -> In (k, w) entries -> v = w.
Proof.
  induction entries as [|[k0 v0] rest IH]; [now intros _ []|].
  simpl. intros N Hv Hw. apply NoDup_cons in N as [N1 N2].
  destruct Hv as [Hv|Hv], Hw as [Hw|Hw].
  - congruence.
  - inversion Hv; subst. destruct N1. apply list_elem_of_In.
    apply in_map_iff. now exists (k, w).
  - inversion Hw; subst. destruct N1. apply list_elem_of_In.
    apply in_map_iff. now exists (k, v).
  - now apply IH.
Qed.

(** The outcome of an object node, field by field of the result. *)
Lemma objectSchema_result (rec : JsVal -> result JsVal) (def s : JsVal) :
  objectSchema rec def = Ok s ->
  exists properties,
    objectFields rec (shapeOf def) [] [] = Ok (properties, requiredKeys (shapeOf def))
    /\ prop s "properties" = VObj properties
    /\ prop s "required"
       = match requiredKeys (shapeOf def) with
         | [] => VUndefined
         | _ :: _ => VArr (map VStr (requiredKeys (shapeOf def)))
         end
    /\ hasProp s "required"
       = match requiredKeys (shapeOf def) with
         | [] => false
         | _ :: _ => true
         end.
Proof.
  unfold objectSchema. fold (shapeOf def).
  destruct (objectFields rec (shapeOf def) [] []) as [[properties required]|e] eqn:E;
    [|discriminate].
  rewrite bind_Ok.
  destruct (objectFields_spec rec _ _ _ _ _ E) as [Hreq _]. simpl in Hreq. subst required.
  destruct (objectExample properties []) as [exampleObj|e]; [|discriminate].
  rewrite bind_Ok. intros H. exists properties. split; [reflexivity|].
  destruct (requiredKeys (shapeOf def)) as [|r rs], exampleObj as [|x xs];
    inversion H; subst; clear H; repeat split; reflexivity.
Qed.

End ObjectNodes.

(** ** Endpoint descriptors *)

Section EndpointFacts.
Import Path Hono.

Lemma addRawParameters_fields (ps : list Js.JsVal) (e : EndpointBuilder.t) :
  EndpointBuilder.method (fold_left EndpointBuilder.addRawParameter ps e)
  = EndpointBuilder.method e
  /\ EndpointBuilder.path (fold_left EndpointBuilder.addRawParameter ps e)
     = EndpointBuilder.path e
  /\ EndpointBuilder.summary (fold_left EndpointBuilder.addRawParameter ps e)
     = EndpointBuilder.summary e.
Proof.
  revert e. induction ps as [|p rest IH]; intros e; [now repeat split|].
  simpl. destruct (IH (EndpointBuilder.addRawParameter e p)) as (H1 & H2 & H3).
  now rewrite H1, H2, H3.
Qed.

(** The three fields of the descriptor the properties speak of. *)
Lemma buildEndpoint_fields (_path _method : string) (handlers : list Handler) :
  let docs := docsOf handlers in
  let method := strOr docs EndpointDocs.method _method in
  let e := buildEndpoint _path _method handlers in
  EndpointBuilder.method e = strOr docs EndpointDocs.method method
  /\ EndpointBuilder.path e
     = convertColonRoutesToBraces (strOr docs EndpointDocs.path _path)
  /\ EndpointBuilder.summary e
     = summaryOr docs
         (JsString.toUpperCase method ++ JsString.units (" " +:+ _path)).
Proof.
  cbv zeta. unfold buildEndpoint. cbv zeta.
  destruct (haveParameter _); [rewrite !(proj1 (addRawParameters_fields _ _)),
      !(proj1 (proj2 (addRawParameters_fields _ _))),
      !(proj2 (proj2 (addRawParameters_fields _ _)))|];
    destruct (haveJson _ && negb (previewFails _));
    destruct (docsOf handlers ≫= EndpointDocs.responses);
    repeat split; reflexivity.
Qed.




Lemma addRoute_app (w : World) (a : nat) (r : RouterEntry) (app : YelixHono) :
  apps w !! a = Some app ->
  apps (addRoute w a r) !! a
  = Some (mkYelixHono (hono app ++ [r]) (__openapi app) (__endpoints app)).
Proof. intros H. simpl. now rewrite list_lookup_alter_eq, H. Qed.

Lemma addRoute_heap (w : World) (a : nat) (r : RouterEntry) :
  heap (addRoute w a r) = heap w.
Proof. reflexivity. Qed.

Lemma addRoute_endpointsOf (w : World) (a b : nat) (r : RouterEntry) :
  endpointsOf (addRoute w a r) b = endpointsOf w b.
Proof.
  unfold endpointsOf. simpl. destruct (decide (a = b)) as [->|N].
  - rewrite list_lookup_alter_eq. now destruct (apps w !! b).
  - now rewrite list_lookup_alter_ne.
Qed.

Lemma addRoute_getOpenAPI (w : World) (a b : nat) (r : RouterEntry) :
  fst (getOpenAPI (addRoute w a r) b) = fst (getOpenAPI w b).
Proof.
  unfold getOpenAPI. rewrite addRoute_endpointsOf. simpl.
  destruct (decide (a = b)) as [->|N].
  - rewrite list_lookup_alter_eq. now destruct (apps w !! b).
  - rewrite list_lookup_alter_ne by exact N. now destruct (apps w !! b).
Qed.

(** The descriptors of an application are descriptors of the world. *)
Lemma endpointsOf_heap (w : World) (a : nat) (P : EndpointBuilder.t -> Prop) :
  Forall P (heap w) -> Forall P (endpointsOf w a).
Proof.
  intros H. unfold endpointsOf. destruct (apps w !! a) as [app|]; [|constructor].
  induction (__endpoints app) as [|l rest IH]; [constructor|].
  simpl. destruct (heap w !! l) as [e|] eqn:E; [|exact IH].
  constructor; [|exact IH].
  rewrite Forall_forall in H. apply H.
  eapply list_elem_of_lookup_2. exact E.
Qed.






End EndpointFacts.

(** ** Mounting *)

Section MountFacts.
Import Path Hono.

Lemma omap_cons {A B : Type} (f : A -> option B) (x : A) (l : list A) :
  omap f (x :: l)
  = match f x with
    | Some y => y :: omap f l
    | None => omap f l
    end.
Proof. reflexivity. Qed.

(** The loop of [route] rewrites each descriptor of the list once, when no
    descriptor is listed twice, and leaves every other descriptor alone. *)
Lemma rewrite_lookup (path : string) (ls : list nat) :
  NoDup ls ->
  forall (h : list EndpointBuilder.t) (l : nat),
    fold_left (rewriteEndpoint path) ls h !! l
    = if decide (l ∈ ls) then remount path <$> h !! l else h !! l.
Proof.
  induction 1 as [|x rest Hx _ IH]; intros h l.
  - simpl. destruct (decide (l ∈ [])) as [H|_]; [|reflexivity].
    now apply not_elem_of_nil in H.
  - simpl. rewrite IH. unfold rewriteEndpoint.
    destruct (decide (l ∈ rest)) as [Hl|Hl].
    + assert (x <> l) as N by (intros ->; contradiction).
      rewrite list_lookup_alter_ne by exact N.
      destruct (decide (l ∈ x :: rest)) as [_|H]; [reflexivity|].
      destruct H. now right.
    + destruct (decide (x = l)) as [->|N].
      * rewrite list_lookup_alter_eq.
        destruct (decide (l ∈ l :: rest)) as [_|H]; [reflexivity|].
        destruct H. now left.
      * rewrite list_lookup_alter_ne by exact N.
        destruct (decide (l ∈ x :: rest)) as [H|_]; [|reflexivity].
        apply elem_of_cons in H as [->|H]; [now destruct N | contradiction].
Qed.

Lemma rewrite_omap (path : string) (ls : list nat) (h : list EndpointBuilder.t) :
  NoDup ls ->
  omap (fun l => fold_left (rewriteEndpoint path) ls h !! l) ls
  = map (remount path) (omap (fun l => h !! l) ls).
Proof.
  intros N.
  assert (forall sub, (forall l, l ∈ sub -> l ∈ ls) ->
            omap (fun l => fold_left (rewriteEndpoint path) ls h !! l) sub
            = map (remount path) (omap (fun l => h !! l) sub)) as H.
  { induction sub as [|l rest IH]; intros Hsub; [reflexivity|].
    rewrite !omap_cons, (rewrite_lookup path ls N).
    destruct (decide (l ∈ ls)) as [_|Hl]; [|destruct Hl; apply Hsub; now left].
    rewrite IH by (intros l' Hl'; apply Hsub; now right).
    now destruct (h !! l). }
  now apply H.
Qed.

Lemma rewrite_braceSyntax (path : string) (ls : list nat) (h : list EndpointBuilder.t) :
  Forall (fun e => hasColonParam (EndpointBuilder.path e) = false) h ->
  Forall (fun e => hasColonParam (EndpointBuilder.path e) = false)
    (fold_left (rewriteEndpoint path) ls h).
Proof.
  revert h. induction ls as [|l rest IH]; intros h H; [exact H|].
  simpl. apply IH. unfold rewriteEndpoint. apply Forall_alter; [exact H|].
  intros e _ _. simpl. apply convert_no_colon.
Qed.

End MountFacts.

(** ** The invariant of the registry *)

Section RegistryInvariant.
Import Path Hono.

Lemma loadEndpointDocs_braceSyntax (w : World) (a : nat) (path method : string)
    (handlers : list Handler) :
  braceSyntax w -> braceSyntax (loadEndpointDocs w a path method handlers).
Proof.
  intros H. unfold loadEndpointDocs.
  destruct (hidden (docsOf handlers)); [exact H|].
  unfold braceSyntax. simpl. apply Forall_app. split; [exact H|].
  constructor; [|constructor].
  destruct (buildEndpoint_fields path method handlers) as (_ & -> & _).
  apply convert_no_colon.
Qed.

Lemma on_braceSyntax (w : World) (a : nat) (method path : string)
    (handlers : list Handler) :
  braceSyntax w -> braceSyntax (on w a method path handlers).
Proof. intros H. unfold on. now apply loadEndpointDocs_braceSyntax. Qed.

Lemma exec_braceSyntax (w : World) (c : Call) :
  braceSyntax w -> braceSyntax (exec w c).
Proof.
  intros H. destruct c as [|a method path handlers|a path handlers|a path handlers
                           |a path [b|router]|a|a params]; simpl.
  - exact H.
  - now apply on_braceSyntax.
  - unfold all, braceSyntax. rewrite addRoute_heap.
    cbn [fold_left]. now repeat apply loadEndpointDocs_braceSyntax.
  - exact H.
  - unfold route. destruct (apps w !! b) as [child|]; [|exact H].
    unfold braceSyntax. simpl. now apply rewrite_braceSyntax.
  - exact H.
  - unfold getOpenAPI. now destruct (apps w !! a).
  - unfold exposeScalarOpenAPI. cbv zeta. unfold get.
    apply on_braceSyntax.
    change (braceSyntax (on w a "get" (default "/openapi.json" (openapiJsonPath params))
              [openapi (EndpointDocs.mk (Some true) None None None None None None);
               HFunction ""])).
    now apply on_braceSyntax.
Qed.

Lemma run_braceSyntax (calls : list Call) : braceSyntax (run calls).
Proof.
  unfold run.
  assert (forall w, braceSyntax w -> braceSyntax (fold_left exec calls w)) as H.
  { induction calls as [|c rest IH]; intros w Hw; [exact Hw|].
    simpl. apply IH. now apply exec_braceSyntax. }
  apply H. constructor.
Qed.

End RegistryInvariant.

(** ** Fragments without white space *)

Section WhiteSpaceFree.
Import JsString Path.

Lemma trimEnd_noWhiteSpace (s : string) : noWhiteSpace s = true -> trimEnd s = s.
Proof.
  induction s as [|c t IH]; [reflexivity|].
  simpl. intros H. apply andb_prop in H as [Hc Ht].
  rewrite (IH Ht). apply negb_true_iff in Hc. rewrite Hc. now destruct t.
Qed.

Lemma trim_noWhiteSpace (s : string) : noWhiteSpace s = true -> trim s = s.
Proof.
  intros H. unfold trim. destruct s as [|c t]; [reflexivity|].
  pose proof H as H'. simpl in H'. apply andb_prop in H' as [Hc _].
  apply negb_true_iff in Hc. rewrite (trimStart_fixed c t Hc).
  now apply trimEnd_noWhiteSpace.
Qed.

Lemma split_noWhiteSpace (sep : ascii) (s : string) :
  noWhiteSpace s = true -> Forall (fun x => noWhiteSpace x = true) (split sep s).
Proof.
  induction s as [|c t IH]; simpl.
  - intros _. now repeat constructor.
  - intros H. apply andb_prop in H as [Hc Ht]. specialize (IH Ht).
    destruct (Ascii.eqb c sep).
    + now constructor.
    + destruct (split sep t) as [|seg segs].
      * repeat constructor. simpl. now rewrite Hc.
      * inversion IH; subst. constructor; [|assumption].
        simpl. now rewrite Hc.
Qed.

Lemma keep_noWhiteSpace (l : list string) :
  Forall (fun x => noWhiteSpace x = true) l ->
  map trim (List.filter keepSegment l) = List.filter truthy l.
Proof.
  induction 1 as [|x l Hx _ IH]; [reflexivity|].
  simpl. unfold keepSegment at 1. rewrite (trim_noWhiteSpace x Hx), andb_diag.
  destruct (truthy x); simpl; now rewrite ?(trim_noWhiteSpace x Hx), IH.
Qed.

Lemma mergeMountPath_doc_agrees (a b : string) :
  noWhiteSpace a = true -> noWhiteSpace b = true ->
  mergeMountPath a b = mergeMountPath_doc a b.
Proof.
  intros Ha Hb. unfold mergeMountPath, mergePaths, mergeMountPath_doc.
  simpl flat_map. rewrite app_nil_r. do 2 f_equal.
  apply keep_noWhiteSpace. apply Forall_app.
  split; now apply split_noWhiteSpace.
Qed.

End WhiteSpaceFree.

(** ** Registrations at the edges of the source *)

Section RegistrationExamples.
Import JsString Js Hono Examples RegistryExamples.

(** The upper-case form of a string can be longer than the string and can
    leave the Latin-1 range. *)
Example toUpperCase_special_cases :
  toUpperCase "get" = units "GET"
  /\ toUpperCase (String (ascii_of_nat 223) "") = units "SS"
  /\ toUpperCase (String (ascii_of_nat 181) "") = [924%N]
  /\ toUpperCase (String (ascii_of_nat 255) "") = [376%N]
  /\ toUpperCase (String (ascii_of_nat 247) "") = [247%N].
Proof. repeat split; reflexivity. Qed.

Example arrayIndex_cases :
  arrayIndex "10" = Some 10%N
  /\ arrayIndex "4294967294" = Some 4294967294%N
  /\ arrayIndex "4294967295" = None
  /\ arrayIndex "01" = None
  /\ arrayIndex "-1" = None
  /\ arrayIndex "" = None.
Proof. repeat split; reflexivity. Qed.

(** An array index is enumerated before the other names, whenever it was
    written. *)
Example merged_body_enumeration :
  objectAssign (objectAssign [] (VObj [("b", VNum (ofNat 1))]))
    (VObj [("1", VNum (ofNat 2)); ("b", VNum (ofNat 3))])
  = [("1", VNum (ofNat 2)); ("b", VNum (ofNat 3))]
  /\ objectAssign [("2", VNull); ("a", VNull)] (VObj [("10", VNull); ("1", VNull); ("c", VNull)])
     = [("1", VNull); ("2", VNull); ("10", VNull); ("a", VNull); ("c", VNull)].
Proof. split; reflexivity. Qed.

(** A schema of parameters with an item [null] adds none of its items; the
    schema of another validation is added all the same. *)
Example null_parameter_item :
  EndpointBuilder.parameters
    (buildEndpoint "/search" "get"
       [validator "query" (VArr [queryParameter; VNull]);
        validator "header" (VArr [headerParameter]);
        HFunction "search"])
  = [headerParameter].
Proof. reflexivity. Qed.

(** No request body is set where the preview of the merged schema throws. *)
Example body_without_preview :
  EndpointBuilder.requestBody
    (buildEndpoint "/tasks" "post"
       [validator "json" (VObj [("toJSON", VFun VUndefined)]); HFunction "create"])
  = None
  /\ EndpointBuilder.requestBody
       (buildEndpoint "/tasks" "post"
          [validator "json" (VObj [("toJSON", VFun VNull)]); HFunction "create"])
     = Some (VObj [("toJSON", VFun VNull)]).
Proof. split; reflexivity. Qed.

(** The router of a new application holds the middleware of the
    constructor, and a route comes after it. *)
Example router_of_a_new_application :
  map hono (apps twoApps)
  = [[UseRaw "*" requestMiddleware];
     [UseRaw "*" requestMiddleware;
      Route "get" "/ping" [mkWrapped (Some "handler") (HFunction "ping")]]].
Proof. reflexivity. Qed.

End RegistrationExamples.

(** * The properties of the documentation *)

Section Claims.
Import JsString Path Js Translator Hono Examples.

(** C1 (as the code has it). [A.route(p, B)] rewrites the descriptors of
    [B] in place and shares them with [A]: the collection of [B] keeps the
    same references, the collection of [A] is extended by these very
    references, and every descriptor of [B] has afterwards the path
    [convertColonRoutesToBraces(mergePaths(p, old path))], its other
    fields unchanged; a descriptor of neither collection is untouched. *)
Theorem C1_route_rewrites_in_place (w : World) (a b : nat) (p : string)
    (parent child : YelixHono) :
  apps w !! a = Some parent ->
  apps w !! b = Some child ->
  a <> b ->
  NoDup (__endpoints child) ->
  let w' := route w a p (IYelix b) in
  apps w' !! b = Some child
  /\ (exists parent', apps w' !! a = Some parent'
        /\ __endpoints parent' = __endpoints parent ++ __endpoints child)
  /\ endpointsOf w' b = map (remount p) (endpointsOf w b)
  /\ (forall l, l ∉ __endpoints child -> heap w' !! l = heap w !! l).
Proof.
  intros Ha Hb N D. cbv zeta. unfold route. rewrite Hb. repeat split.
  - simpl. now rewrite list_lookup_alter_ne.
  - eexists. split; [simpl; rewrite list_lookup_alter_eq, Ha; reflexivity|].
    reflexivity.
  - unfold endpointsOf. simpl. rewrite list_lookup_alter_ne by exact N.
    rewrite Hb. now apply rewrite_omap.
  - intros l Hl. simpl. rewrite (rewrite_lookup p _ D).
    now destruct (decide (l ∈ __endpoints child)).
Qed.

(** C1, at the mount of the application with [GET /ping] under [/svc]. *)
Lemma C1_route_rewrites_in_place_witness :
  endpointsOf (route twoApps 0 "/svc" (IYelix 1)) 1
  = map (remount "/svc") (endpointsOf twoApps 1).
Proof.
  refine (proj1 (proj2 (proj2
    (C1_route_rewrites_in_place twoApps 0 1 "/svc" _ _ eq_refl eq_refl _ _)))).
  - discriminate.
  - repeat constructor. intros H. now apply not_elem_of_nil in H.
Defined.

(** C1 as stated fails: after the mount the descriptor of [B] has the path
    under the prefix, and the document of [B] has lost the path [/ping]. *)
Lemma C1_counterexample :
  let w := twoApps in
  let w' := route w 0 "/svc" (IYelix 1) in
  map EndpointBuilder.path (endpointsOf w 1) = ["/ping"]
  /\ map EndpointBuilder.path (endpointsOf w' 1) = ["/svc/ping"]
  /\ endpointsOf w' 1 <> endpointsOf w 1
  /\ OpenAPI.hasPath (fst (getOpenAPI w 1)) "/ping" = true
  /\ OpenAPI.hasPath (fst (getOpenAPI w' 1)) "/ping" = false.
Proof. cbv zeta. repeat split; try reflexivity. discriminate. Qed.

(** C2 (as the code has it). The three examples evaluate to ["/api/tasks"].
    In general the merge splits both inputs on ["/"], trims the white space
    around each segment, discards the segments that are then empty, rejoins
    the others with single ["/"] and prefixes one ["/"]; for fragments
    without white space this is the split, discard, rejoin and prefix of
    the documentation. *)
Theorem C2_mergeMountPath :
  mergeMountPath "/api/" "/tasks" = "/api/tasks"
  /\ mergeMountPath "api" "tasks" = "/api/tasks"
  /\ mergeMountPath "/api" "/tasks/" = "/api/tasks"
  /\ (forall a b : string,
        mergeMountPath a b
        = "/" +:+ join "/" (List.filter JsString.truthy (map trim (split "/" a ++ split "/" b))))
  /\ (forall a b : string,
        noWhiteSpace a = true -> noWhiteSpace b = true ->
        mergeMountPath a b = mergeMountPath_doc a b).
Proof.
  repeat split; try reflexivity.
  - intros a b. unfold mergeMountPath, mergePaths. simpl flat_map.
    rewrite app_nil_r. do 2 f_equal. apply segmentsOf_trim_first.
  - apply mergeMountPath_doc_agrees.
Qed.

(** C2, at two fragments without white space. *)
Lemma C2_mergeMountPath_witness :
  mergeMountPath "/api//v1" "tasks/" = mergeMountPath_doc "/api//v1" "tasks/".
Proof.
  exact (proj2 (proj2 (proj2 (proj2 C2_mergeMountPath))) "/api//v1" "tasks/" eq_refl eq_refl).
Defined.

(** C2 as stated fails: a segment with white space is trimmed and a
    segment of white space is discarded, which is not the rejoining of the
    non-empty segments. *)
Lemma C2_counterexample :
  mergeMountPath "/a /" "b" = "/a/b"
  /\ mergeMountPath_doc "/a /" "b" = "/a /b"
  /\ mergeMountPath "/ /" "b" <> mergeMountPath_doc "/ /" "b".
Proof. repeat split; try reflexivity. discriminate. Qed.



(** C5 (the code breaks it). The translator throws on a node whose
    definition lacks the node below: a [set] without [valueType], a
    [transform] without [schema] (alone, or at the end of a [pipe]), an
    [optional] without [innerType]; the branch of [record] has the guard
    these branches miss, and [null] in the place of a node throws as
    well. *)
Theorem C5_translator_throws :
  zodSchemaToOpenAPISchema (VObj [("_def", VObj [("type", VStr "set")])]) = Err TypeError
  /\ zodSchemaToOpenAPISchema transformedString = Err TypeError
  /\ zodSchemaToOpenAPISchema (VObj [("_def", VObj [("type", VStr "transform")])])
     = Err TypeError
  /\ zodSchemaToOpenAPISchema (VObj [("_def", VObj [("type", VStr "optional")])])
     = Err TypeError
  /\ zodSchemaToOpenAPISchema (VObj [("_def", VObj [("type", VStr "record")])])
     = Ok (VObj [("type", VStr "object");
                 ("additionalProperties",
                  VObj [("type", VStr "string"); ("example", VStr "value")]);
                 ("example", VObj [("key", VStr "value")])])
  /\ zodSchemaToOpenAPISchema VNull = Err TypeError.
Proof. repeat split; vm_compute; reflexivity. Qed.

(** C6. For an object node that is translated, [required] is the list of
    the keys of the shape whose field has neither the tag [optional] nor
    the tag [default], in the order of the shape; it is absent when that
    list is empty; its keys, like every key of the shape, are keys of
    [properties]; a field tagged [optional] or [default] is not among
    them. *)
Theorem C6_object_required (schema def s : JsVal) :
  findDef schema = Ok def ->
  isStr (prop def "type") "object" = true ->
  zodSchemaToOpenAPISchema schema = Ok s ->
  prop s "required"
  = match requiredKeys (shapeOf def) with
    | [] => VUndefined
    | _ :: _ => VArr (map VStr (requiredKeys (shapeOf def)))
    end
  /\ hasProp s "required"
     = match requiredKeys (shapeOf def) with
       | [] => false
       | _ :: _ => true
       end
  /\ (forall k, In k (requiredKeys (shapeOf def)) ->
                hasProp (prop s "properties") k = true)
  /\ (forall k v, In (k, v) (shapeOf def) -> hasProp (prop s "properties") k = true)
  /\ (NoDup (map fst (shapeOf def)) ->
      forall k v, In (k, v) (shapeOf def) ->
                  isStr (tagOf v) "optional" || isStr (tagOf v) "default" = true ->
                  ~ In k (requiredKeys (shapeOf def))).
Proof.
  intros E T H. rewrite (translate_object schema def E T) in H.
  destruct (objectSchema_result _ def s H) as (properties & F & P & R & HR).
  destruct (objectFields_spec _ _ _ _ _ _ F) as [_ K].
  assert (forall k v, In (k, v) (shapeOf def) -> hasProp (prop s "properties") k = true)
    as Hkeys.
  { intros k v Hin. rewrite P. simpl. rewrite K.
    rewrite (hasKey_In k v _ Hin). apply orb_true_r. }
  repeat split; try assumption.
  - intros k Hk. destruct (requiredKeys_In k _ Hk) as (v & Hin & _).
    now apply (Hkeys k v).
  - intros D k v Hin Htag Hk.
    destruct (requiredKeys_In k _ Hk) as (v' & Hin' & T1 & T2).
    rewrite (NoDup_keys_unique _ k v v' D Hin Hin') in Htag.
    now rewrite T1, T2 in Htag.
Qed.

(** C6, at an object with a required, an optional and a defaulted field. *)
Lemma C6_object_required_witness :
  exists s, zodSchemaToOpenAPISchema searchNode = Ok s
            /\ prop s "required" = VArr [VStr "q"]
            /\ hasProp (prop s "properties") "limit" = true.
Proof.
  destruct (zodSchemaToOpenAPISchema searchNode) as [s|e] eqn:E;
    [|vm_compute in E; discriminate E].
  exists s. split; [reflexivity|].
  destruct (C6_object_required searchNode
              (VObj [("type", VStr "object");
                     ("shape", prop (prop searchNode "def") "shape")])
              s eq_refl eq_refl E) as (H1 & _ & _ & H4 & _).
  split.
  - exact H1.
  - apply (H4 "limit" (prop (prop (prop searchNode "def") "shape") "limit")).
    vm_compute. right. right. now left.
Defined.

(** C7 (as the code has it). For a number node, a check put at the end of
    the checks acts on each bound in one of two ways. A check of kind
    [min] (resp. [max]) with a numeric [value] sets [minimum] (resp.
    [maximum]) to it, the sentinel included, and sets [exclusiveMinimum]
    (resp. [exclusiveMaximum]) to [true] whenever [inclusive] is not truthy,
    absent included; otherwise the flag stays as it was. A check without
    [kind] and with a numeric [minValue] (resp. [maxValue]) sets the bound
    only when the value is greater than -9007199254740991 (resp. less than
    9007199254740991) and never touches the exclusive flag. *)
Theorem C7_number_bounds (schema schema' def def' : JsVal) (pre : list JsVal)
    (check : JsVal) :
  findDef schema = Ok def ->
  findDef schema' = Ok def' ->
  isStr (prop def "type") "number" = true ->
  isStr (prop def' "type") "number" = true ->
  prop def "checks" = VArr pre ->
  prop def' "checks" = VArr (pre ++ [check]) ->
  exists before after,
    zodSchemaToOpenAPISchema schema = Ok before
    /\ zodSchemaToOpenAPISchema schema' = Ok after
    /\ boundRule "min" "minimum" "exclusiveMinimum" "minValue"
         (fun m => num_gt m MIN_SAFE_INTEGER) before after check
    /\ boundRule "max" "maximum" "exclusiveMaximum" "maxValue"
         (fun m => num_lt m MAX_SAFE_INTEGER) before after check.
Proof.
  intros E E' T T' C C'.
  exists (numberSchema def), (numberSchema def').
  split; [now apply translate_number|]. split; [now apply translate_number|].
  destruct (numberSchema_snoc def def' pre check C C') as [-> P].
  assert (forall kind, isStr (prop check "kind") kind = true ->
            numberCheck (numberSchema def) check
            = kindCheck true (structuredCheck (numberSchema def) check) check) as Hkind.
  { intros kind K. destruct check as [| | | | | | fields | |]; try discriminate K.
    unfold numberCheck. change (negb (isObject (VObj fields))) with false.
    cbv iota zeta.
    destruct (isStr_hasProp (VObj fields) "kind" kind K) as [->|?];
      [reflexivity | discriminate]. }
  assert (forall key, hasProp check "kind" = false -> hasProp check key = true ->
            numberCheck (numberSchema def) check
            = structuredCheck (numberSchema def) check) as Hplain.
  { intros key K H. destruct check as [| | | | | | fields | |]; try discriminate H.
    unfold numberCheck. change (negb (isObject (VObj fields))) with false.
    cbv iota zeta. now rewrite K. }
  pose proof (structuredCheck_plain (numberSchema def) check P) as P'.
  split; split.
  - intros v K V. rewrite (Hkind "min" K).
    destruct (kindCheck_min true _ check v P' K V) as [H1 H2].
    split; [exact H1|]. rewrite H2.
    now rewrite structuredCheck_other by discriminate.
  - intros m K H V. rewrite (Hplain "minValue" K H). split.
    + now apply structuredCheck_minimum.
    + now rewrite structuredCheck_other by discriminate.
  - intros v K V. rewrite (Hkind "max" K).
    destruct (kindCheck_max true _ check v P' K V) as [H1 H2].
    split; [exact H1|]. rewrite H2.
    now rewrite structuredCheck_other by discriminate.
  - intros m K H V. rewrite (Hplain "maxValue" K H). split.
    + now apply structuredCheck_maximum.
    + now rewrite structuredCheck_other by discriminate.
Qed.

(** C7, at an inclusive check [min 5] added to a number without checks. *)
Lemma C7_number_bounds_witness :
  exists before after,
    zodSchemaToOpenAPISchema (numberWith []) = Ok before
    /\ zodSchemaToOpenAPISchema (numberWith [minCheck 5 (VBool true)]) = Ok after
    /\ prop after "minimum" = VNum (Fin (5 # 1))
    /\ prop after "exclusiveMinimum" = prop before "exclusiveMinimum".
Proof.
  destruct (C7_number_bounds (numberWith []) (numberWith [minCheck 5 (VBool true)])
              (VObj [("type", VStr "number"); ("checks", VArr [])])
              (VObj [("type", VStr "number"); ("checks", VArr [minCheck 5 (VBool true)])])
              [] (minCheck 5 (VBool true))
              eq_refl eq_refl eq_refl eq_refl eq_refl eq_refl)
    as (before & after & H1 & H2 & [Hmin _] & _).
  exists before, after. split; [exact H1|]. split; [exact H2|].
  exact (Hmin (Fin (5 # 1)) eq_refl eq_refl).
Defined.

(** C7 as stated fails: a check of kind [min] at the sentinel produces the
    field [minimum], and a check of kind [min] without [inclusive] sets
    [exclusiveMinimum]. *)
Lemma C7_counterexample :
  (exists s,
      zodSchemaToOpenAPISchema (numberWith [minCheck (-9007199254740991) (VBool true)])
      = Ok s
      /\ prop s "minimum" = VNum MIN_SAFE_INTEGER)
  /\ (exists s,
        zodSchemaToOpenAPISchema
          (numberWith [VObj [("kind", VStr "min"); ("value", VNum (Fin (5 # 1)))]])
        = Ok s
        /\ prop s "exclusiveMinimum" = VBool true).
Proof. split; eexists; split; vm_compute; reflexivity. Qed.




(** C9 (as the code has it). The merge is associative for all fragments,
    and merging an already merged path alone, or with an empty fragment on
    either side, changes nothing. *)
Theorem C9_mergePaths_algebra (a b c : string) :
  mergeMountPath (mergeMountPath a b) c = mergeMountPath a (mergeMountPath b c)
  /\ mergePaths [mergeMountPath a b] = mergeMountPath a b
  /\ mergeMountPath (mergeMountPath a b) "" = mergeMountPath a b
  /\ mergeMountPath "" (mergeMountPath a b) = mergeMountPath a b.
Proof.
  unfold mergeMountPath. repeat split.
  - apply mergePaths_assoc.
  - apply mergePaths_again.
  - apply mergePaths_empty_r.
  - apply mergePaths_empty_l.
Qed.

(** C9 as stated fails: merging a merged path with itself repeats its
    segments. *)
Lemma C9_counterexample :
  mergeMountPath (mergeMountPath "a" "b") (mergeMountPath "a" "b") = "/a/b/a/b"
  /\ mergeMountPath (mergeMountPath "a" "b") (mergeMountPath "a" "b")
     <> mergeMountPath "a" "b".
Proof. split; [reflexivity | discriminate]. Qed.

(** C10. After any sequence of calls (creations, registrations, mounts,
    document retrievals), no descriptor of the collection of an application
    has a path with a segment of the colon style. *)
Theorem C10_brace_syntax (calls : list Call) (a : nat) :
  Forall (fun e => hasColonParam (EndpointBuilder.path e) = false)
    (endpointsOf (run calls) a).
Proof. apply endpointsOf_heap. apply run_braceSyntax. Qed.

End Claims.

(** * Further properties of the code *)

(** ** Paths *)

Section ConvertShape.
Import JsString Path PathShape.

Lemma loneColons_fixed (s : string) :
  loneColons s = true -> replaceParams false s = s.
Proof.
  induction s as [|c t IH]; [reflexivity|].
  simpl. intros H. apply andb_prop in H as [H1 H2].
  destruct (Ascii.eqb c ":") eqn:E.
  - apply Ascii.eqb_eq in E. subst c.
    destruct t as [|d t']; [reflexivity|].
    rewrite H1. f_equal. now apply IH.
  - f_equal. now apply IH.
Qed.

Lemma fixed_loneColons (s : string) :
  replaceParams false s = s -> loneColons s = true.
Proof.
  induction s as [|c t IH]; [reflexivity|].
  simpl. destruct (Ascii.eqb c ":") eqn:E.
  - apply Ascii.eqb_eq in E. subst c.
    destruct t as [|d t']; [reflexivity|].
    destruct (Ascii.eqb d "/") eqn:Ed.
    + intros H. injection H as H. now rewrite IH.
    + intros H. discriminate H.
  - intros H. injection H as H. now rewrite IH.
Qed.

Lemma colonsLead_lone (s : string) :
  forall st : bool,
    colonsLead st s = true ->
    loneColons (replaceParams false s) = true
    /\ (st = false -> loneColons (replaceParams true s) = true).
Proof.
  induction s as [|c t IH]; intros st H.
  - split; reflexivity.
  - simpl in H. simpl replaceParams.
    destruct (Ascii.eqb c "/") eqn:Es.
    + apply Ascii.eqb_eq in Es. subst c.
      destruct (IH true H) as [IH1 _].
      split; [|intros _]; simpl; exact IH1.
    + destruct (Ascii.eqb c ":") eqn:Ec.
      * apply andb_prop in H as [Hst H]. subst st.
        destruct (IH false H) as [IH1 IH2].
        split; [|discriminate].
        destruct t as [|d t']; [reflexivity|].
        destruct (Ascii.eqb d "/") eqn:Ed.
        -- apply Ascii.eqb_eq in Ed. subst d.
           change (loneColons (String ":" (replaceParams false (String "/" t'))))
             with (true && loneColons (replaceParams false (String "/" t'))).
           exact IH1.
        -- simpl. now apply IH2.
      * destruct (IH false H) as [IH1 IH2].
        split; [|intros _]; simpl; rewrite Ec; simpl; [exact IH1 | now apply IH2].
Qed.

Lemma replaceParams_app (x t : string) :
  includesChar "/" x = false ->
  forall b : bool,
    replaceParams b (x +:+ String "/" t)
    = replaceParams b x +:+ String "/" (replaceParams false t).
Proof.
  induction x as [|c x' IH]; intros Hx b.
  - rewrite append_nil_l. destruct b; reflexivity.
  - simpl in Hx. apply orb_false_elim in Hx as [Hc Hx'].
    rewrite append_cons. destruct b.
    + simpl. rewrite Hc, append_cons. f_equal. now apply IH.
    + simpl replaceParams at 2. simpl replaceParams at 1.
      destruct (Ascii.eqb c ":") eqn:Ec.
      * destruct x' as [|d x''].
        -- reflexivity.
        -- rewrite append_cons. simpl in Hx'. apply orb_false_elim in Hx' as [Hd Hx''].
           rewrite Hd, append_cons. f_equal. rewrite <- append_cons. apply IH.
           simpl. now rewrite Hd.
      * rewrite append_cons. f_equal. now apply IH.
Qed.

Lemma convert_join (l : list string) :
  Forall (fun x => includesChar "/" x = false) l ->
  convertColonRoutesToBraces (join "/" l)
  = join "/" (map convertColonRoutesToBraces l).
Proof.
  induction 1 as [|x l Hx Hl IH]; [reflexivity|].
  destruct l as [|y l']; [reflexivity|].
  change (join "/" (x :: y :: l')) with (x +:+ "/" +:+ join "/" (y :: l')).
  change (join "/" (map convertColonRoutesToBraces (x :: y :: l')))
    with (convertColonRoutesToBraces x +:+ "/"
          +:+ join "/" (map convertColonRoutesToBraces (y :: l'))).
  rewrite <- IH. unfold convertColonRoutesToBraces.
  change ("/" +:+ join "/" (y :: l')) with (String "/" (join "/" (y :: l'))).
  now rewrite replaceParams_app.
Qed.

Lemma join_split (s : string) : join "/" (split "/" s) = s.
Proof.
  induction s as [|c t IH]; [reflexivity|].
  simpl split. pose proof (split_nonempty "/" t) as Hne.
  destruct (split "/" t) as [|seg segs]; [done|].
  destruct (Ascii.eqb c "/") eqn:E.
  - apply Ascii.eqb_eq in E. subst c.
    change (join "/" ("" :: seg :: segs)) with ("" +:+ "/" +:+ join "/" (seg :: segs)).
    now rewrite IH.
  - destruct segs as [|y r].
    + simpl in *. now rewrite IH.
    + change (join "/" (String c seg :: y :: r))
        with (String c seg +:+ "/" +:+ join "/" (y :: r)).
      rewrite append_cons. f_equal. exact IH.
Qed.

Lemma replaceParams_slashfree (x : string) :
  includesChar "/" x = false ->
  forall b : bool, includesChar "/" (replaceParams b x) = false.
Proof.
  induction x as [|c x' IH]; intros Hx b.
  - destruct b; reflexivity.
  - simpl in Hx. apply orb_false_elim in Hx as [Hc Hx'].
    destruct b; simpl.
    + rewrite Hc. simpl. rewrite Hc. now apply IH.
    + destruct (Ascii.eqb c ":") eqn:Ec.
      * destruct x' as [|d x'']; [reflexivity|].
        specialize (IH Hx' true).
        simpl in Hx'. apply orb_false_elim in Hx' as [Hd _].
        simpl in IH |- *. rewrite Hd in IH |- *. exact IH.
      * simpl. rewrite Hc. now apply IH.
Qed.

Lemma split_convert_segments (p : string) :
  split "/" (convertColonRoutesToBraces p)
  = map convertColonRoutesToBraces (split "/" p).
Proof.
  rewrite <- (join_split p) at 1.
  rewrite convert_join by apply split_no_sep.
  apply split_join.
  - pose proof (split_nonempty "/" p). now destruct (split "/" p).
  - apply Forall_map. eapply Forall_impl; [apply split_no_sep|].
    intros x Hx. now apply replaceParams_slashfree.
Qed.







Lemma clean_slashfree (l : list string) :
  Forall cleanSegment l -> Forall (fun x => includesChar "/" x = false) l.
Proof.
  intros H. eapply Forall_impl; [exact H|]. now intros x (_ & _ & Hx).
Qed.

Lemma flat_segments_clean (parts : list string) :
  Forall cleanSegment (flat_map segmentsOf parts).
Proof.
  induction parts as [|p parts IH]; [constructor|].
  simpl. apply Forall_app. split; [apply segmentsOf_clean | exact IH].
Qed.

End ConvertShape.

Section PathLaws.
Import JsString Path PathShape Hono.

(** X1. [convertColonRoutesToBraces] leaves a path as it is exactly when
    every [":"] of the path is followed by ["/"] or ends the path; a path
    without [":"], with or without braces, is such a path. *)
Theorem convert_fixed_iff (p : string) :
  (convertColonRoutesToBraces p = p <-> loneColons p = true)
  /\ (includesChar ":" p = false -> convertColonRoutesToBraces p = p).
Proof.
  split.
  - split; [apply fixed_loneColons | apply loneColons_fixed].
  - intros H. apply loneColons_fixed.
    induction p as [|c t IH]; [reflexivity|].
    simpl in H. apply orb_false_elim in H as [Hc Ht].
    simpl. rewrite Hc. now apply IH.
Qed.

(** X2. Converting twice is converting once for a path whose colons all
    stand at the start of a segment. *)
Theorem convert_idempotent (p : string) :
  colonsLead true p = true ->
  convertColonRoutesToBraces (convertColonRoutesToBraces p)
  = convertColonRoutesToBraces p.
Proof.
  intros H. apply loneColons_fixed. now apply (colonsLead_lone p true).
Qed.

Lemma convert_idempotent_witness :
  convertColonRoutesToBraces (convertColonRoutesToBraces "/tasks/:id/items/:itemId")
  = convertColonRoutesToBraces "/tasks/:id/items/:itemId".
Proof. apply convert_idempotent. reflexivity. Defined.

(** A parameter name with a colon inside is converted again by a second
    pass. *)
Example convert_twice_inner_colon :
  convertColonRoutesToBraces "/:a:b" = "/{a:b}"
  /\ convertColonRoutesToBraces (convertColonRoutesToBraces "/:a:b") = "/{a{b}}".
Proof. split; reflexivity. Qed.

(** X3. The conversion works segment by segment: the converted path has
    the segments of the path, each converted on its own, and it is these
    converted segments joined by ["/"]. *)
Theorem convert_segmentwise (p : string) :
  split "/" (convertColonRoutesToBraces p)
  = map convertColonRoutesToBraces (split "/" p)
  /\ convertColonRoutesToBraces p
     = join "/" (map convertColonRoutesToBraces (split "/" p)).
Proof.
  split; [apply split_convert_segments|].
  rewrite <- (join_split p) at 1. apply convert_join, split_no_sep.
Qed.

(** X4. The merged path is ["/"], when no part has a segment, or it is
    one ["/"] followed by the segments of the parts joined by ["/"]: split
    at ["/"] it gives an empty first piece and then segments that are not
    empty, trimmed and without ["/"]. *)
Theorem mergePaths_shape (parts : list string) :
  (flat_map segmentsOf parts = [] /\ mergePaths parts = "/")
  \/ (exists seg segs,
        flat_map segmentsOf parts = seg :: segs
        /\ split "/" (mergePaths parts) = "" :: seg :: segs
        /\ Forall cleanSegment (seg :: segs)).
Proof.
  rewrite mergePaths_segments.
  pose proof (flat_segments_clean parts) as Hc.
  destruct (flat_map segmentsOf parts) as [|seg segs].
  - left. split; reflexivity.
  - right. exists seg, segs. split; [reflexivity|]. split; [|exact Hc].
    change ("/" +:+ join "/" (seg :: segs)) with (String "/" (join "/" (seg :: segs))).
    change (split "/" (String "/" (join "/" (seg :: segs))))
      with ("" :: split "/" (join "/" (seg :: segs))).
    f_equal. apply split_join; [discriminate|]. now apply clean_slashfree.
Qed.

(** X5. Merging all the parts at once is merging the merged groups. *)
Theorem mergePaths_app (xs ys : list string) :
  mergePaths (xs ++ ys) = mergePaths [mergePaths xs; mergePaths ys].
Proof.
  rewrite mergePaths_pair, !segmentsOf_mergePaths, mergePaths_segments.
  now rewrite flat_map_app.
Qed.


(** X6. In the earlier revision of [mergePaths], a first part that
    begins with ["/"] and holds another character gives a merged path that
    begins with two slashes. *)
Theorem earlier_mergePaths_double_slash (p t : string) (rest : list string) :
  trim p = String "/" t ->
  Legacy.stripTrailingSlashes t <> "" ->
  exists u, Legacy.mergePaths (p :: rest) = String "/" (String "/" u).
Proof.
  intros T N. unfold Legacy.mergePaths. cbn [map List.filter]. rewrite T.
  cbn [truthy]. cbn [Legacy.stripTrailingSlashes].
  destruct (Legacy.stripTrailingSlashes t) as [|d t'] eqn:S; [now destruct N|].
  destruct (Legacy.stripRest (List.filter truthy (map trim rest))) as [|y ys].
  - now exists (String d t').
  - eexists. cbn [join]. rewrite !append_cons. reflexivity.
Qed.

Lemma earlier_mergePaths_double_slash_witness :
  exists u, Legacy.mergePaths ["/api/"; "/tasks"] = String "/" (String "/" u).
Proof.
  apply (earlier_mergePaths_double_slash "/api/" "api/" ["/tasks"]).
  - reflexivity.
  - discriminate.
Defined.

End PathLaws.

(** ** The translator *)

Section ResultShape.
Import Js Translator.

Lemma bind_inv {A B : Type} (e : result A) (k : A -> result B) (b : B) :
  (x ← e; k x) = Ok b -> exists a, e = Ok a /\ k a = Ok b.
Proof. destruct e as [a|err]; [eauto | discriminate]. Qed.

Lemma deleteProp_plain (o : JsVal) (k : string) :
  isPlainObject o = true -> isPlainObject (deleteProp o k) = true.
Proof. now destruct o. Qed.

Lemma applyFormat_plain (base : JsVal) (name : option string) :
  isPlainObject base = true -> isPlainObject (applyFormat base name) = true.
Proof.
  intros P. destruct name as [n|]; [|exact P]. unfold applyFormat.
  destruct (cannedFormat n). now apply assign_plain, assign_plain.
Qed.

Lemma applyFormat_other (base : JsVal) (name : option string) (k : string) :
  k <> "format" -> k <> "example" -> prop (applyFormat base name) k = prop base k.
Proof.
  intros F X. destruct name as [n|]; [|reflexivity]. unfold applyFormat.
  destruct (cannedFormat n). now rewrite !prop_assign_ne.
Qed.

Lemma stringCheck_plain (base check : JsVal) :
  isPlainObject base = true -> isPlainObject (stringCheck base check) = true.
Proof.
  intros P. unfold stringCheck.
  destruct (negb (isObject check)); [exact P|]. cbv zeta.
  repeat match goal with
         | |- context [if ?c then _ else _] => destruct c
         end;
    repeat first [exact P | apply assign_plain | apply applyFormat_plain].
Qed.

Lemma fold_stringCheck_plain (checks : list JsVal) (base : JsVal) :
  isPlainObject base = true ->
  isPlainObject (fold_left stringCheck checks base) = true.
Proof.
  revert base. induction checks as [|c rest IH]; intros base P; [exact P|].
  cbn [fold_left]. now apply IH, stringCheck_plain.
Qed.

Lemma stringSchema_plain (schema def : JsVal) :
  isPlainObject (stringSchema schema def) = true.
Proof.
  unfold stringSchema, forChecks. cbv zeta.
  assert (forall b, isPlainObject b = true ->
                    isPlainObject (match prop def "checks" with
                                   | VArr checks => fold_left stringCheck checks b
                                   | _ => b
                                   end) = true) as F.
  { intros b P. destruct (prop def "checks"); try exact P.
    now apply fold_stringCheck_plain. }
  destruct (isStr _ "email"); [apply applyFormat_plain|]; apply F;
    repeat match goal with
           | |- context [if ?c then _ else _] => destruct c
           end;
    repeat first [reflexivity | apply assign_plain].
Qed.

Lemma kindCheck_plain (withInt : bool) (base check : JsVal) :
  isPlainObject base = true -> isPlainObject (kindCheck withInt base check) = true.
Proof.
  intros P. unfold kindCheck. cbv zeta.
  repeat match goal with
         | |- context [if ?c then _ else _] => destruct c
         end;
    repeat first [exact P | apply assign_plain | apply toInteger_plain].
Qed.

Lemma integerSchema_plain (def : JsVal) : isPlainObject (integerSchema def) = true.
Proof.
  unfold integerSchema, forChecks.
  destruct (prop def "checks") as [| | | | | checks | | |]; try reflexivity.
  generalize (VObj [("type", VStr "integer"); ("example", VNum (Fin (123 # 1)))])
    (eq_refl : isPlainObject
                 (VObj [("type", VStr "integer"); ("example", VNum (Fin (123 # 1)))])
               = true).
  induction checks as [|c rest IH]; intros base P; [exact P|].
  cbn [fold_left]. apply IH. unfold integerCheck.
  destruct (isObject c && hasProp c "kind"); [now apply kindCheck_plain | exact P].
Qed.

Lemma numberSchema_plain (def : JsVal) : isPlainObject (numberSchema def) = true.
Proof.
  unfold numberSchema, forChecks.
  destruct (prop def "checks"); try reflexivity.
  now apply fold_numberCheck_plain.
Qed.

Lemma literalSchema_plain (def s : JsVal) :
  literalSchema def = Ok s -> isPlainObject s = true.
Proof.
  unfold literalSchema. cbv zeta. intros H.
  apply bind_inv in H as (value & _ & H).
  destruct (_ || _) in H; injection H as <-; reflexivity.
Qed.

Lemma enumSchema_plain (def s : JsVal) :
  enumSchema def = Ok s -> isPlainObject s = true.
Proof.
  unfold enumSchema. cbv zeta. intros H.
  apply bind_inv in H as (first & _ & H). now injection H as <-.
Qed.

Section Branches.
Variable rec : JsVal -> result JsVal.

Lemma arraySchema_plain (def s : JsVal) :
  arraySchema rec def = Ok s -> isPlainObject s = true.
Proof.
  unfold arraySchema. cbv zeta. intros H.
  apply bind_inv in H as (itemSchema & _ & H).
  apply bind_inv in H as (example & _ & H).
  destruct (negb (isUndefined (prop def "exactLength"))).
  - apply bind_inv in H as (v & _ & H). now injection H as <-.
  - apply bind_inv in H as (base & Hb & H).
    assert (isPlainObject base = true) as P.
    { destruct (negb (isUndefined (prop def "minLength"))).
      - apply bind_inv in Hb as (v & _ & Hb). now injection Hb as <-.
      - now injection Hb as <-. }
    destruct (negb (isUndefined (prop def "maxLength"))).
    + apply bind_inv in H as (v & _ & H). injection H as <-. now apply assign_plain.
    + now injection H as <-.
Qed.

Lemma objectSchema_plain (def s : JsVal) :
  objectSchema rec def = Ok s -> isPlainObject s = true.
Proof.
  intros H. destruct (objectSchema_result _ _ _ H) as (properties & _ & P & _).
  destruct s; try discriminate P; reflexivity.
Qed.

Lemma tupleSchema_plain (def s : JsVal) :
  tupleSchema rec def = Ok s -> isPlainObject s = true.
Proof.
  unfold tupleSchema. cbv zeta. intros H.
  apply bind_inv in H as (items & _ & H).
  apply bind_inv in H as (len & _ & H).
  apply bind_inv in H as (itemsSchema & _ & H).
  apply bind_inv in H as (example & _ & H).
  destruct (truthy (prop def "rest")).
  - apply bind_inv in H as (additionalItems & _ & H). now injection H as <-.
  - now injection H as <-.
Qed.

Lemma translateDef_plain (schema def s : JsVal) :
  (forall x r, rec x = Ok r -> isPlainObject r = true) ->
  translateDef rec schema def = Ok s -> isPlainObject s = true.
Proof.
  intros Hrec H. unfold translateDef in H. cbv zeta in H.
  repeat match type of H with
         | (if isStr ?a ?b then _ else _) = _ => destruct (isStr a b)
         end;
    try (injection H as <-;
         first [reflexivity | apply stringSchema_plain | apply numberSchema_plain
               | apply integerSchema_plain]);
    try (now apply (Hrec _ _ H)).
  - now apply literalSchema_plain in H.
  - now apply enumSchema_plain in H.
  - now apply arraySchema_plain in H.
  - now apply objectSchema_plain in H.
  - unfold nullableSchema in H. apply bind_inv in H as (i & _ & H). now injection H as <-.
  - unfold nullableSchema in H. apply bind_inv in H as (i & _ & H). now injection H as <-.
  - unfold defaultSchema in H. apply bind_inv in H as (i & _ & H). now injection H as <-.
  - unfold unionSchema in H. apply bind_inv in H as (i & _ & H). now injection H as <-.
  - unfold intersectionSchema in H. apply bind_inv in H as (l & _ & H).
    apply bind_inv in H as (r & _ & H). now injection H as <-.
  - unfold recordSchema in H. cbv zeta in H. apply bind_inv in H as (l & _ & H).
    apply bind_inv in H as (r & _ & H). now injection H as <-.
  - now apply tupleSchema_plain in H.
  - unfold setSchema in H. apply bind_inv in H as (l & _ & H).
    apply bind_inv in H as (r & _ & H). now injection H as <-.
  - unfold mapSchema in H. apply bind_inv in H as (l & _ & H).
    apply bind_inv in H as (r & _ & H). now injection H as <-.
Qed.

End Branches.

Lemma translate_plain (n : nat) :
  forall schema s : JsVal, translate n schema = Ok s -> isPlainObject s = true.
Proof.
  induction n as [|n IH]; intros schema s H; [discriminate H|].
  change (translate (S n) schema) with (translateNode (translate n) schema) in H.
  unfold translateNode in H. apply bind_inv in H as (def & _ & H).
  destruct (negb (truthy def)).
  - now injection H as <-.
  - now apply (translateDef_plain (translate n) schema def s IH).
Qed.

Lemma zod_plain (schema s : JsVal) :
  zodSchemaToOpenAPISchema schema = Ok s -> isPlainObject s = true.
Proof. apply translate_plain. Qed.

End ResultShape.

Section StringLengths.
Import Js Translator Checks.

Lemma stringCheck_keeps (field kind : string) (base check : JsVal) :
  lengthBound field kind ->
  writesLength field kind check = false ->
  prop (stringCheck base check) field = prop base field.
Proof.
  intros [[-> ->]|[-> ->]]; unfold writesLength, stringCheck;
    (destruct (isObject check); [|reflexivity]);
    change (negb true) with false; cbv iota zeta;
    rewrite andb_true_l; intros W; apply orb_false_elim in W as [W1 W2];
    rewrite W1; revert W2;
    repeat match goal with
           | |- context [if ?c then _ else _] => destruct c eqn:?
           end;
    intros W2; try discriminate W2;
    repeat first [rewrite prop_assign_ne by discriminate
                 | rewrite applyFormat_other by discriminate];
    try reflexivity.
Qed.

Lemma fold_stringCheck_keeps (field kind : string) (post : list JsVal) :
  lengthBound field kind ->
  forallb (fun c => negb (writesLength field kind c)) post = true ->
  forall base, prop (fold_left stringCheck post base) field = prop base field.
Proof.
  intros B. induction post as [|c post IH]; intros W base; [reflexivity|].
  cbn [forallb] in W. apply andb_prop in W as [Wc W].
  cbn [fold_left]. rewrite (IH W).
  apply (stringCheck_keeps field kind); [exact B|].
  now destruct (writesLength field kind c).
Qed.

Lemma isStr_kind (check : JsVal) (s : string) :
  isStr (prop check "kind") s = true ->
  isObject check = true /\ hasProp check "kind" = true.
Proof.
  intros H. destruct (isStr_hasProp check "kind" s H) as [P|P].
  - destruct check; try discriminate P. now split.
  - destruct check; try discriminate P; discriminate H.
Qed.

Lemma stringCheck_sets (field kind : string) (base check : JsVal) (v : number) :
  lengthBound field kind ->
  isPlainObject base = true ->
  isStr (prop check "kind") kind = true ->
  prop check "value" = VNum v ->
  prop (stringCheck base check) field = VNum v.
Proof.
  intros B P K V. destruct (isStr_kind check kind K) as [O HK].
  unfold stringCheck. rewrite O, HK, V, (isStr_eq _ _ K).
  change (negb true) with false. change (isNumber (VNum v)) with true.
  destruct B as [[-> ->]|[-> ->]]; pick_branch; cbv zeta;
    apply prop_assign_eq;
    repeat match goal with
           | |- context [if ?c then _ else _] => destruct c
           end;
    repeat first [exact P | apply assign_plain | apply applyFormat_plain].
Qed.

Lemma stringSchema_length (field kind : string) (schema def : JsVal)
    (pre post : list JsVal) (check : JsVal) (v : number) :
  lengthBound field kind ->
  prop def "checks" = VArr (pre ++ check :: post) ->
  isStr (prop check "kind") kind = true ->
  prop check "value" = VNum v ->
  forallb (fun c => negb (writesLength field kind c)) post = true ->
  prop (stringSchema schema def) field = VNum v.
Proof.
  intros B E K V W. unfold stringSchema, forChecks. rewrite E. cbv zeta.
  assert (field <> "format" /\ field <> "example") as [F X].
  { destruct B as [[-> _]|[-> _]]; split; discriminate. }
  destruct (isStr _ "email"); [rewrite applyFormat_other by assumption|];
    rewrite fold_left_app; cbn [fold_left];
    rewrite (fold_stringCheck_keeps field kind post B W);
    apply (stringCheck_sets field kind _ check v B); try assumption;
    apply fold_stringCheck_plain;
    repeat match goal with
           | |- context [if ?c then _ else _] => destruct c
           end;
    repeat first [reflexivity | apply assign_plain].
Qed.

End StringLengths.

Section TranslatorLaws.
Import Js Translator Checks Examples.

(** X7. Whenever the translator returns, it returns an object: never
    [undefined], [null], a string or an array. *)
Theorem translator_returns_object (schema s : JsVal) :
  zodSchemaToOpenAPISchema schema = Ok s -> exists fields, s = VObj fields.
Proof.
  intros H. apply zod_plain in H. destruct s; try discriminate H. eauto.
Qed.

Lemma translator_returns_object_witness :
  exists fields,
    VObj [("type", VStr "string"); ("example", VStr "string")] = VObj fields.
Proof. apply (translator_returns_object stringNode). reflexivity. Defined.

(** X8. In the schema of a string node, [minLength] is the value of the
    last check of the kind [min] when no later check writes [minLength],
    and [maxLength] that of the last check of the kind [max]. *)
Theorem string_length_last_wins (field kind : string) (schema def : JsVal)
    (pre post : list JsVal) (check : JsVal) (v : number) :
  lengthBound field kind ->
  findDef schema = Ok def ->
  isStr (prop def "type") "string" = true ->
  prop def "checks" = VArr (pre ++ check :: post) ->
  isStr (prop check "kind") kind = true ->
  prop check "value" = VNum v ->
  forallb (fun c => negb (writesLength field kind c)) post = true ->
  exists s, zodSchemaToOpenAPISchema schema = Ok s /\ prop s field = VNum v.
Proof.
  intros B E T C K V W. exists (stringSchema schema def). split.
  - rewrite (translate_tagged schema def "string" E T).
    unfold translateDef. rewrite (isStr_eq _ _ T). pick_branch. reflexivity.
  - now apply (stringSchema_length field kind schema def pre post check v).
Qed.

Lemma string_length_last_wins_witness :
  exists s, zodSchemaToOpenAPISchema MoreExamples.boundedString = Ok s
            /\ prop s "minLength" = VNum (Fin (3 # 1)).
Proof.
  apply (string_length_last_wins "minLength" "min" MoreExamples.boundedString
           (prop MoreExamples.boundedString "def") []
           [VObj [("kind", VStr "max"); ("value", VNum (Fin (10 # 1)))]]
           (VObj [("kind", VStr "min"); ("value", VNum (Fin (3 # 1)))])
           (Fin (3 # 1)));
    first [reflexivity | left; split; reflexivity].
Defined.

End TranslatorLaws.

Section CompositeFacts.
Import Js Translator.

Lemma mapResult_Forall2 {A B : Type} (f : A -> result B) (l : list A) (rs : list B) :
  mapResult f l = Ok rs <-> Forall2 (fun x r => f x = Ok r) l rs.
Proof.
  revert rs. induction l as [|x l IH]; intros rs; simpl.
  - split.
    + intros [= <-]. constructor.
    + intros H. now inversion H.
  - split.
    + intros H. apply bind_inv in H as (y & Ey & H).
      apply bind_inv in H as (ys & Eys & H). injection H as <-.
      constructor; [exact Ey | now apply IH].
    + intros H. inversion H as [|? r ? rs' Hx Hl]; subst.
      apply IH in Hl. now rewrite Hx, bind_Ok, Hl, bind_Ok.
Qed.

Lemma mapResult_length {A B : Type} (f : A -> result B) (l : list A) (rs : list B) :
  mapResult f l = Ok rs -> length rs = length l.
Proof.
  intros H. apply mapResult_Forall2 in H. symmetry. exact (Forall2_length _ _ _ H).
Qed.

Lemma translate_union (schema def : JsVal) :
  findDef schema = Ok def ->
  isStr (prop def "type") "union" = true ->
  zodSchemaToOpenAPISchema schema = unionSchema zodSchemaToOpenAPISchema def.
Proof.
  intros E T. rewrite (translate_tagged schema def "union" E T).
  unfold translateDef. rewrite (isStr_eq _ _ T). pick_branch. reflexivity.
Qed.

Lemma translate_nullable (schema def : JsVal) :
  findDef schema = Ok def ->
  isStr (prop def "type") "optional" || isStr (prop def "type") "nullable" = true ->
  zodSchemaToOpenAPISchema schema = nullableSchema zodSchemaToOpenAPISchema def.
Proof.
  intros E T. apply orb_prop in T as [T|T].
  - rewrite (translate_tagged schema def "optional" E T).
    unfold translateDef. rewrite (isStr_eq _ _ T). pick_branch. reflexivity.
  - rewrite (translate_tagged schema def "nullable" E T).
    unfold translateDef. rewrite (isStr_eq _ _ T). pick_branch. reflexivity.
Qed.

Lemma translate_default (schema def : JsVal) :
  findDef schema = Ok def ->
  isStr (prop def "type") "default" = true ->
  zodSchemaToOpenAPISchema schema = defaultSchema zodSchemaToOpenAPISchema def.
Proof.
  intros E T. rewrite (translate_tagged schema def "default" E T).
  unfold translateDef. rewrite (isStr_eq _ _ T). pick_branch. reflexivity.
Qed.

Lemma translate_array (schema def : JsVal) :
  findDef schema = Ok def ->
  isStr (prop def "type") "array" = true ->
  zodSchemaToOpenAPISchema schema = arraySchema zodSchemaToOpenAPISchema def.
Proof.
  intros E T. rewrite (translate_tagged schema def "array" E T).
  unfold translateDef. rewrite (isStr_eq _ _ T). pick_branch. reflexivity.
Qed.

Lemma translate_tuple (schema def : JsVal) :
  findDef schema = Ok def ->
  isStr (prop def "type") "tuple" = true ->
  zodSchemaToOpenAPISchema schema = tupleSchema zodSchemaToOpenAPISchema def.
Proof.
  intros E T. rewrite (translate_tagged schema def "tuple" E T).
  unfold translateDef. rewrite (isStr_eq _ _ T). pick_branch. reflexivity.
Qed.

Lemma spreadWith_eq (inner : JsVal) (k : string) (v : JsVal) :
  prop (spreadWith inner k v) k = v.
Proof. apply lookup_assign_eq. Qed.

Lemma spreadWith_ne (fields : list (string * JsVal)) (k k' : string) (v : JsVal) :
  k <> k' -> prop (spreadWith (VObj fields) k' v) k = prop (VObj fields) k.
Proof. intros N. now apply lookup_assign_ne. Qed.

End CompositeFacts.

Section CompositeLaws.
Import Js Translator MoreExamples Examples.

(** X9. A union node is translated exactly when each of its options is,
    and its schema is [anyOf] with the schemas of the options, one for
    each option and in their order. *)
Theorem union_anyOf (schema def : JsVal) (opts : list JsVal) (s : JsVal) :
  findDef schema = Ok def ->
  isStr (prop def "type") "union" = true ->
  prop def "options" = VArr opts ->
  zodSchemaToOpenAPISchema schema = Ok s
  <-> exists rs, Forall2 (fun o r => zodSchemaToOpenAPISchema o = Ok r) opts rs
                 /\ s = VObj [("anyOf", VArr rs)].
Proof.
  intros E T O. rewrite (translate_union schema def E T).
  unfold unionSchema. rewrite O.
  change (jsOr (VArr opts) (VArr [])) with (VArr opts). unfold jsMap.
  split.
  - intros H. apply bind_inv in H as (options & H1 & H).
    apply bind_inv in H1 as (rs & H1 & H2).
    injection H2 as <-. injection H as <-.
    exists rs. split; [now apply mapResult_Forall2 | reflexivity].
  - intros (rs & H & ->). apply mapResult_Forall2 in H.
    now rewrite H, !bind_Ok.
Qed.

Lemma union_anyOf_witness :
  zodSchemaToOpenAPISchema stringOrNumber
  = Ok (VObj [("anyOf",
               VArr [VObj [("type", VStr "string"); ("example", VStr "string")];
                     VObj [("type", VStr "number");
                           ("example", VNum (Fin (12345 # 100)))]])]).
Proof.
  apply (union_anyOf stringOrNumber (prop stringOrNumber "def")
           [stringNode; numberNode]); [reflexivity | reflexivity | reflexivity |].
  eexists. split; [|reflexivity].
  repeat constructor.
Defined.

(** X10. The schema of an optional or nullable node is the schema of the
    wrapped node with [nullable: true]: every other field is that of the
    inner schema. *)
Theorem nullable_overlay (schema def s : JsVal) :
  findDef schema = Ok def ->
  isStr (prop def "type") "optional" || isStr (prop def "type") "nullable" = true ->
  zodSchemaToOpenAPISchema schema = Ok s ->
  exists inner,
    zodSchemaToOpenAPISchema (prop def "innerType") = Ok inner
    /\ prop s "nullable" = VBool true
    /\ forall k, k <> "nullable" -> prop s k = prop inner k.
Proof.
  intros E T H. rewrite (translate_nullable schema def E T) in H.
  unfold nullableSchema in H. apply bind_inv in H as (inner & Hi & H).
  injection H as <-. exists inner. split; [exact Hi|].
  pose proof (zod_plain _ _ Hi) as P.
  destruct inner as [| | | | | | fields | |]; try discriminate P.
  split; [apply spreadWith_eq | intros k N; now apply spreadWith_ne].
Qed.

Lemma nullable_overlay_witness :
  exists inner,
    zodSchemaToOpenAPISchema (prop (prop optionalNumber "def") "innerType") = Ok inner
    /\ prop (VObj [("type", VStr "number"); ("example", VNum (Fin (12345 # 100)));
                   ("nullable", VBool true)]) "nullable" = VBool true
    /\ forall k, k <> "nullable" ->
                 prop (VObj [("type", VStr "number");
                             ("example", VNum (Fin (12345 # 100)));
                             ("nullable", VBool true)]) k
                 = prop inner k.
Proof.
  apply (nullable_overlay optionalNumber (prop optionalNumber "def")); reflexivity.
Defined.

(** X11. The schema of a node with a default is the schema of the wrapped
    node with [default] set to the default value, which is the result of
    the call when the definition holds a function. *)
Theorem default_overlay (schema def s : JsVal) :
  findDef schema = Ok def ->
  isStr (prop def "type") "default" = true ->
  zodSchemaToOpenAPISchema schema = Ok s ->
  exists inner,
    zodSchemaToOpenAPISchema (prop def "innerType") = Ok inner
    /\ prop s "default" = callIfFunction (prop def "defaultValue")
    /\ forall k, k <> "default" -> prop s k = prop inner k.
Proof.
  intros E T H. rewrite (translate_default schema def E T) in H.
  unfold defaultSchema in H. apply bind_inv in H as (inner & Hi & H).
  injection H as <-. exists inner. split; [exact Hi|].
  pose proof (zod_plain _ _ Hi) as P.
  destruct inner as [| | | | | | fields | |]; try discriminate P.
  split; [apply spreadWith_eq | intros k N; now apply spreadWith_ne].
Qed.

Lemma default_overlay_witness :
  exists inner,
    zodSchemaToOpenAPISchema (prop (prop numberWithDefault "def") "innerType") = Ok inner
    /\ prop (VObj [("type", VStr "number"); ("example", VNum (Fin (12345 # 100)));
                   ("default", VNum (Fin (10 # 1)))]) "default"
       = callIfFunction (prop (prop numberWithDefault "def") "defaultValue")
    /\ forall k, k <> "default" ->
                 prop (VObj [("type", VStr "number");
                             ("example", VNum (Fin (12345 # 100)));
                             ("default", VNum (Fin (10 # 1)))]) k
                 = prop inner k.
Proof.
  apply (default_overlay numberWithDefault (prop numberWithDefault "def")); reflexivity.
Defined.

(** X12. An array node without [element] has the generic object schema
    for its items: the tag of the definition stands in for the missing
    element, and the string placeholder of the source is never used. *)
Theorem array_items_without_element (schema def s : JsVal) :
  findDef schema = Ok def ->
  isStr (prop def "type") "array" = true ->
  truthy (prop def "element") = false ->
  zodSchemaToOpenAPISchema schema = Ok s ->
  prop s "items" = fallbackSchema /\ prop s "example" = VArr [VObj []].
Proof.
  intros E T X H. rewrite (translate_array schema def E T) in H.
  assert (jsOr (prop def "element") (jsOr (prop def "type") (prop def "items"))
          = VStr "array") as J.
  { unfold jsOr at 1. rewrite X, (isStr_eq _ _ T). reflexivity. }
  unfold arraySchema in H. cbv zeta in H. rewrite J in H.
  change (truthy (VStr "array")) with true in H. cbv iota in H.
  assert (zodSchemaToOpenAPISchema (VStr "array") = Ok fallbackSchema) as F
      by (vm_compute; reflexivity).
  rewrite F, bind_Ok in H.
  change (get fallbackSchema "example") with (Ok (VObj [])) in H.
  rewrite bind_Ok in H.
  destruct (negb (isUndefined (prop def "exactLength"))).
  - apply bind_inv in H as (v & _ & H). injection H as <-. now split.
  - apply bind_inv in H as (base & Hb & H).
    assert (prop base "items" = fallbackSchema /\ prop base "example" = VArr [VObj []])
      as [B1 B2].
    { destruct (negb (isUndefined (prop def "minLength"))).
      - apply bind_inv in Hb as (v & _ & Hb). injection Hb as <-. now split.
      - injection Hb as <-. now split. }
    destruct (negb (isUndefined (prop def "maxLength"))).
    + apply bind_inv in H as (v & _ & H). injection H as <-.
      now rewrite !prop_assign_ne by discriminate.
    + injection H as <-. now split.
Qed.

Lemma array_items_without_element_witness :
  prop (VObj [("type", VStr "array"); ("items", fallbackSchema);
              ("example", VArr [VObj []])]) "items" = fallbackSchema
  /\ prop (VObj [("type", VStr "array"); ("items", fallbackSchema);
                 ("example", VArr [VObj []])]) "example" = VArr [VObj []].
Proof.
  apply (array_items_without_element bareArray (prop bareArray "def")); reflexivity.
Defined.

(** X13. The schema of a tuple node has [minItems] equal to the number of
    its items; [maxItems] is that number too when the tuple has no rest,
    and is absent when it has one. *)
Theorem tuple_item_counts (schema def s : JsVal) (items : list JsVal) :
  findDef schema = Ok def ->
  isStr (prop def "type") "tuple" = true ->
  prop def "items" = VArr items ->
  zodSchemaToOpenAPISchema schema = Ok s ->
  prop s "minItems" = VNum (ofNat (length items))
  /\ (if truthy (prop def "rest")
      then hasProp s "maxItems" = false
           /\ exists r, zodSchemaToOpenAPISchema (prop def "rest") = Ok r
                        /\ prop s "additionalItems" = r
      else prop s "maxItems" = VNum (ofNat (length items))).
Proof.
  intros E T I H. rewrite (translate_tuple schema def E T) in H.
  unfold tupleSchema in H. rewrite I in H.
  change (jsOr (VArr items) (VArr [])) with (VArr items) in H.
  apply bind_inv in H as (its & H1 & H). unfold jsMap in H1.
  apply bind_inv in H1 as (rs & H1 & H2). injection H2 as <-.
  apply mapResult_length in H1.
  change (get (VArr rs) "length") with (Ok (VNum (ofNat (length rs)))) in H.
  rewrite bind_Ok, H1 in H.
  apply bind_inv in H as (itemsSchema & _ & H).
  apply bind_inv in H as (example & _ & H). cbv zeta in H.
  destruct (truthy (prop def "rest")).
  - apply bind_inv in H as (r & Hr & H). injection H as <-.
    split; [reflexivity|]. split; [reflexivity|]. now exists r.
  - injection H as <-. now split.
Qed.

Lemma tuple_item_counts_witness :
  (exists s, zodSchemaToOpenAPISchema pairTuple = Ok s
             /\ prop s "minItems" = VNum (ofNat 2)
             /\ prop s "maxItems" = VNum (ofNat 2))
  /\ (exists s, zodSchemaToOpenAPISchema openTuple = Ok s
                /\ prop s "minItems" = VNum (ofNat 1)
                /\ hasProp s "maxItems" = false).
Proof.
  split.
  - destruct (zodSchemaToOpenAPISchema pairTuple) as [s|e] eqn:H;
      [|vm_compute in H; discriminate H].
    exists s. split; [reflexivity|].
    exact (tuple_item_counts pairTuple (prop pairTuple "def") s
             [stringNode; numberNode] eq_refl eq_refl eq_refl H).
  - destruct (zodSchemaToOpenAPISchema openTuple) as [s|e] eqn:H;
      [|vm_compute in H; discriminate H].
    exists s. split; [reflexivity|].
    destruct (tuple_item_counts openTuple (prop openTuple "def") s
                [stringNode] eq_refl eq_refl eq_refl H) as [H1 [H2 _]].
    now split.
Defined.

End CompositeLaws.

Section NumberTypes.
Import Js Translator Checks.

Lemma toInteger_type (base : JsVal) :
  isPlainObject base = true -> prop (toInteger base) "type" = VStr "integer".
Proof.
  intros P. unfold toInteger. rewrite prop_assign_ne by discriminate.
  now apply prop_assign_eq.
Qed.

Lemma kindCheck_type (base check : JsVal) :
  isPlainObject base = true ->
  prop (kindCheck true base check) "type"
  = if isStr (prop check "kind") "int" then VStr "integer" else prop base "type".
Proof.
  intros P. unfold kindCheck. cbv zeta. cbn [andb].
  destruct (isStr (prop check "kind") "min") eqn:K1.
  { rewrite (isStr_eq _ _ K1). change (isStr (VStr "min") "int") with false. cbv iota.
    destruct (isNumber _); [|reflexivity].
    destruct (negb _); now rewrite ?prop_assign_ne by discriminate. }
  destruct (isStr (prop check "kind") "max") eqn:K2.
  { rewrite (isStr_eq _ _ K2). change (isStr (VStr "max") "int") with false. cbv iota.
    destruct (isNumber _); [|reflexivity].
    destruct (negb _); now rewrite ?prop_assign_ne by discriminate. }
  destruct (isStr (prop check "kind") "int"); [now apply toInteger_type|].
  destruct (isStr (prop check "kind") "multipleOf"); [|reflexivity].
  destruct (isNumber _); [|reflexivity]. now rewrite prop_assign_ne by discriminate.
Qed.

Lemma structuredCheck_type (base check : JsVal) :
  isPlainObject base = true ->
  prop (structuredCheck base check) "type"
  = if (hasProp check "isInt" && truthy (prop check "isInt"))
       || (hasProp check "format" && isStr (prop check "format") "safeint")
       || (hasProp check "def"
           && (isStr (getOpt (prop check "def") "format") "safeint"
               || isStr (getOpt (prop check "def") "check") "int"))
    then VStr "integer" else prop base "type".
Proof.
  intros P. unfold structuredCheck.
  assert (isPlainObject (isIntCheck base check) = true) as P1
      by now apply isIntCheck_plain.
  assert (isPlainObject (safeintCheck (isIntCheck base check) check) = true) as P2
      by now apply safeintCheck_plain.
  assert (isPlainObject
            (maxValueCheck (minValueCheck (safeintCheck (isIntCheck base check) check)
                              check) check) = true) as P3
      by now apply maxValueCheck_plain, minValueCheck_plain.
  unfold nestedDefCheck at 1.
  destruct (hasProp check "def"); cbn [andb].
  - cbv zeta.
    destruct (isStr (getOpt (prop check "def") "format") "safeint"
              || isStr (getOpt (prop check "def") "check") "int").
    + rewrite orb_true_r. now apply toInteger_type.
    + rewrite orb_false_r, maxValueCheck_other, minValueCheck_other by discriminate.
      unfold safeintCheck.
      destruct (hasProp check "format" && isStr (prop check "format") "safeint").
      * rewrite orb_true_r. now apply toInteger_type.
      * rewrite orb_false_r. unfold isIntCheck.
        destruct (hasProp check "isInt" && truthy (prop check "isInt"));
          [now apply toInteger_type | reflexivity].
  - rewrite orb_false_r, maxValueCheck_other, minValueCheck_other by discriminate.
    unfold safeintCheck.
    destruct (hasProp check "format" && isStr (prop check "format") "safeint").
    + rewrite orb_true_r. now apply toInteger_type.
    + rewrite orb_false_r. unfold isIntCheck.
      destruct (hasProp check "isInt" && truthy (prop check "isInt"));
        [now apply toInteger_type | reflexivity].
Qed.

Lemma numberCheck_type (base check : JsVal) :
  isPlainObject base = true ->
  prop (numberCheck base check) "type"
  = if promotes check then VStr "integer" else prop base "type".
Proof.
  intros P. unfold numberCheck, promotes.
  destruct (isObject check); cbn [negb andb]; [|reflexivity]. cbv zeta.
  pose proof (structuredCheck_plain base check P) as P'.
  destruct (hasProp check "kind"); cbn [andb].
  - rewrite kindCheck_type by exact P'.
    destruct (isStr (prop check "kind") "int"); [now rewrite orb_true_r|].
    rewrite orb_false_r. now apply structuredCheck_type.
  - rewrite orb_false_r. now apply structuredCheck_type.
Qed.

Lemma fold_numberCheck_type (checks : list JsVal) :
  forall base : JsVal,
    isPlainObject base = true ->
    prop (fold_left numberCheck checks base) "type"
    = if existsb promotes checks then VStr "integer" else prop base "type".
Proof.
  induction checks as [|c checks IH] using rev_ind; intros base P; [reflexivity|].
  rewrite fold_left_app, existsb_app. cbn [fold_left existsb].
  rewrite numberCheck_type by now apply fold_numberCheck_plain.
  rewrite orb_false_r. destruct (promotes c); [now rewrite orb_true_r|].
  rewrite orb_false_r. now apply IH.
Qed.

Lemma gtZero_length (n : nat) : gtZero (VNum (ofNat (S n))) = Ok true.
Proof. reflexivity. Qed.

End NumberTypes.

Section LeafLaws.
Import Js Translator Checks MoreExamples.

(** X14. The schema of a number node has the type [integer] exactly when
    one of its checks asks for an integer, wherever that check stands among
    the others, and the type [number] otherwise. *)
Theorem number_type_promotion (schema def : JsVal) (checks : list JsVal) :
  findDef schema = Ok def ->
  isStr (prop def "type") "number" = true ->
  prop def "checks" = VArr checks ->
  exists s, zodSchemaToOpenAPISchema schema = Ok s
            /\ prop s "type"
               = VStr (if existsb promotes checks then "integer" else "number").
Proof.
  intros E T C. exists (numberSchema def). split; [now apply translate_number|].
  unfold numberSchema, forChecks. rewrite C.
  rewrite fold_numberCheck_type by reflexivity.
  now destruct (existsb promotes checks).
Qed.

Lemma number_type_promotion_witness :
  exists s, zodSchemaToOpenAPISchema safeInteger = Ok s
            /\ prop s "type" = VStr "integer".
Proof.
  apply (number_type_promotion safeInteger (prop safeInteger "def")
           [VObj [("kind", VStr "min"); ("value", VNum (Fin (0 # 1)))];
            VObj [("format", VStr "safeint")]]); reflexivity.
Defined.

(** X15. A literal node documents the first of its values only: as an
    [enum] of that one value when it is a string, a number or a boolean, as
    a [const] otherwise. *)
Theorem literal_first_value (schema def value : JsVal) (others : list JsVal) :
  findDef schema = Ok def ->
  isStr (prop def "type") "literal" = true ->
  prop def "values" = VArr (value :: others) ->
  zodSchemaToOpenAPISchema schema
  = Ok (if String.eqb (typeOf value) "string" || String.eqb (typeOf value) "number"
           || String.eqb (typeOf value) "boolean"
        then VObj [("type", VStr (typeOf value)); ("enum", VArr [value]);
                   ("example", value)]
        else VObj [("const", value); ("example", value)]).
Proof.
  intros E T V. rewrite (translate_tagged schema def "literal" E T).
  unfold translateDef. rewrite (isStr_eq _ _ T). pick_branch.
  unfold literalSchema. cbv zeta. rewrite V.
  change (truthy (VArr (value :: others))) with true. cbv iota.
  change (prop (VArr (value :: others)) "length")
    with (VNum (ofNat (S (length others)))).
  rewrite gtZero_length, bind_Ok.
  change (get0 (VArr (value :: others))) with (Ok value). rewrite bind_Ok.
  now destruct (_ || _).
Qed.

Lemma literal_first_value_witness :
  zodSchemaToOpenAPISchema (literalOf [VStr "a"; VStr "b"])
  = Ok (VObj [("type", VStr "string"); ("enum", VArr [VStr "a"]);
              ("example", VStr "a")]).
Proof.
  apply (literal_first_value (literalOf [VStr "a"; VStr "b"])
           (prop (literalOf [VStr "a"; VStr "b"]) "def") (VStr "a") [VStr "b"]);
    reflexivity.
Defined.

End LeafLaws.

(** ** The registry *)

Section RegistryGrowth.
Import Path Hono Registry.

Lemma extends_refl (w : World) : extends w w.
Proof. intros b. exists []. now rewrite app_nil_r. Qed.

Lemma extends_trans (w1 w2 w3 : World) :
  extends w1 w2 -> extends w2 w3 -> extends w1 w3.
Proof.
  intros H1 H2 b. destruct (H1 b) as [x Hx]. destruct (H2 b) as [y Hy].
  exists (x ++ y). now rewrite Hy, Hx, app_assoc.
Qed.

Lemma extends_eq (w w' : World) :
  (forall b, endpointsOf w' b = endpointsOf w b) -> extends w w'.
Proof. intros H b. exists []. now rewrite H, app_nil_r. Qed.

Lemma omap_lookup_ext (h h' : list EndpointBuilder.t) (ls : list nat) :
  Forall (fun l => h' !! l = h !! l) ls ->
  omap (fun l => h' !! l) ls = omap (fun l => h !! l) ls.
Proof.
  induction 1 as [|l ls Hl _ IH]; [reflexivity|].
  now rewrite !omap_cons, Hl, IH.
Qed.

Lemma updateApp_endpointsOf (w : World) (a b : nat) (f : YelixHono -> YelixHono) :
  (forall app, __endpoints (f app) = __endpoints app) ->
  endpointsOf (updateApp w a f) b = endpointsOf w b.
Proof.
  intros Hf. unfold endpointsOf, updateApp. cbn [apps heap].
  destruct (decide (a = b)) as [->|N].
  - rewrite list_lookup_alter_eq. destruct (apps w !! b) as [app|]; [|reflexivity].
    cbn [fmap option_fmap option_map]. now rewrite Hf.
  - now rewrite list_lookup_alter_ne.
Qed.

Lemma updateApp_wellFormed (w : World) (a : nat) (f : YelixHono -> YelixHono) :
  (forall app, __endpoints (f app) = __endpoints app) ->
  wellFormed w -> wellFormed (updateApp w a f).
Proof.
  intros Hf W b app. unfold updateApp. cbn [apps heap].
  destruct (decide (a = b)) as [->|N].
  - rewrite list_lookup_alter_eq. destruct (apps w !! b) as [app0|] eqn:E; [|discriminate].
    intros [= <-]. rewrite Hf. now apply (W b).
  - rewrite list_lookup_alter_ne by exact N. apply W.
Qed.

Lemma pushEndpoint_wellFormed (w : World) (a : nat) (e : EndpointBuilder.t) :
  wellFormed w -> wellFormed (pushEndpoint w a e).
Proof.
  intros W b app. unfold pushEndpoint. cbn [apps heap]. rewrite length_app.
  cbn [length]. destruct (decide (a = b)) as [->|N].
  - rewrite list_lookup_alter_eq. destruct (apps w !! b) as [app0|] eqn:E; [|discriminate].
    intros [= <-]. cbn [__endpoints]. apply Forall_app. split.
    + eapply Forall_impl; [apply (W b app0 E)|]. intros l Hl. simpl in Hl. lia.
    + repeat constructor. lia.
  - rewrite list_lookup_alter_ne by exact N. intros E.
    eapply Forall_impl; [apply (W b app E)|]. intros l Hl. simpl in Hl. lia.
Qed.

Lemma pushEndpoint_endpointsOf (w : World) (a b : nat) (e : EndpointBuilder.t) :
  wellFormed w ->
  endpointsOf (pushEndpoint w a e) b
  = endpointsOf w b
    ++ (if decide (a = b) then match apps w !! b with Some _ => [e] | None => [] end
        else []).
Proof.
  intros W. unfold endpointsOf, pushEndpoint. cbn [apps heap].
  assert (forall app, apps w !! b = Some app ->
            omap (fun l => (heap w ++ [e]) !! l) (__endpoints app)
            = omap (fun l => heap w !! l) (__endpoints app)) as Old.
  { intros app E. apply omap_lookup_ext.
    eapply Forall_impl; [apply (W b app E)|]. intros l Hl. simpl in Hl.
    now apply lookup_app_l. }
  destruct (decide (a = b)) as [->|N].
  - rewrite list_lookup_alter_eq. destruct (apps w !! b) as [app|] eqn:E; [|reflexivity].
    cbn [fmap option_fmap option_map __endpoints].
    rewrite omap_app, (Old app eq_refl). f_equal.
    rewrite omap_cons, lookup_app_r by lia. now rewrite Nat.sub_diag.
  - rewrite list_lookup_alter_ne by exact N.
    destruct (apps w !! b) as [app|] eqn:E; [|reflexivity].
    now rewrite (Old app eq_refl), app_nil_r.
Qed.

Lemma pushEndpoint_extends (w : World) (a : nat) (e : EndpointBuilder.t) :
  wellFormed w -> extends w (pushEndpoint w a e).
Proof.
  intros W b. rewrite pushEndpoint_endpointsOf by exact W.
  rewrite map_app. eauto.
Qed.

Lemma loadEndpointDocs_grows (w : World) (a : nat) (path method : string)
    (handlers : list Handler) :
  wellFormed w ->
  wellFormed (loadEndpointDocs w a path method handlers)
  /\ extends w (loadEndpointDocs w a path method handlers).
Proof.
  intros W. unfold loadEndpointDocs. destruct (hidden (docsOf handlers)).
  - split; [exact W | apply extends_refl].
  - split; [now apply pushEndpoint_wellFormed | now apply pushEndpoint_extends].
Qed.

Lemma addRoute_grows (w : World) (a : nat) (r : RouterEntry) :
  wellFormed w -> wellFormed (addRoute w a r) /\ extends w (addRoute w a r).
Proof.
  intros W. split.
  - now apply updateApp_wellFormed.
  - apply extends_eq. intros b. apply addRoute_endpointsOf.
Qed.

Lemma on_grows (w : World) (a : nat) (method path : string) (handlers : list Handler) :
  wellFormed w ->
  wellFormed (on w a method path handlers) /\ extends w (on w a method path handlers).
Proof.
  intros W. unfold on.
  destruct (loadEndpointDocs_grows w a path method handlers W) as [W1 E1].
  destruct (addRoute_grows (loadEndpointDocs w a path method handlers) a
              (Route method path (parseMiddlewares handlers true)) W1) as [W2 E2].
  split; [exact W2 | now apply (extends_trans _ _ _ E1 E2)].
Qed.

Lemma loads_grow (a : nat) (path : string) (handlers : list Handler)
    (methods : list string) :
  forall w, wellFormed w ->
    let w' := fold_left (fun (w : World) (method : string) =>
                           loadEndpointDocs w a path method handlers) methods w in
    wellFormed w' /\ extends w w'.
Proof.
  induction methods as [|m ms IH]; intros w W.
  - split; [exact W | apply extends_refl].
  - cbn [fold_left]. destruct (loadEndpointDocs_grows w a path m handlers W) as [W1 E1].
    destruct (IH _ W1) as [W2 E2].
    split; [exact W2 | now apply (extends_trans _ _ _ E1 E2)].
Qed.

Lemma forget_remount (path : string) (e : EndpointBuilder.t) :
  forgetPath (remount path e) = forgetPath e.
Proof. reflexivity. Qed.

Lemma forget_rewrite (path : string) (ls : list nat) :
  forall (h : list EndpointBuilder.t) (l : nat),
    forgetPath <$> fold_left (rewriteEndpoint path) ls h !! l = forgetPath <$> h !! l.
Proof.
  induction ls as [|x rest IH]; intros h l; [reflexivity|].
  cbn [fold_left]. rewrite IH. unfold rewriteEndpoint.
  destruct (decide (x = l)) as [->|N].
  - rewrite list_lookup_alter_eq. now destruct (h !! l).
  - now rewrite list_lookup_alter_ne.
Qed.

Lemma length_rewrite (path : string) (ls : list nat) :
  forall h : list EndpointBuilder.t,
    length (fold_left (rewriteEndpoint path) ls h) = length h.
Proof.
  induction ls as [|x rest IH]; intros h; [reflexivity|].
  cbn [fold_left]. rewrite IH. apply length_alter.
Qed.

Lemma map_forget_omap (h h' : list EndpointBuilder.t) (ls : list nat) :
  (forall l, forgetPath <$> h' !! l = forgetPath <$> h !! l) ->
  map forgetPath (omap (fun l => h' !! l) ls)
  = map forgetPath (omap (fun l => h !! l) ls).
Proof.
  intros H. induction ls as [|l ls IH]; [reflexivity|].
  rewrite !omap_cons. specialize (H l).
  destruct (h' !! l) as [e'|], (h !! l) as [e|]; try discriminate H.
  - cbn [fmap option_fmap option_map] in H.
    assert (forgetPath e' = forgetPath e) as H' by congruence.
    cbn [map]. now rewrite H', IH.
  - exact IH.
Qed.

Lemma route_grows (w : World) (a : nat) (path : string) (instance : Instance) :
  wellFormed w ->
  wellFormed (route w a path instance) /\ extends w (route w a path instance).
Proof.
  intros W. destruct instance as [b|router]; [|now apply addRoute_grows].
  unfold route. destruct (apps w !! b) as [child|] eqn:Eb;
    [|split; [exact W | apply extends_refl]].
  cbv zeta. split.
  - intros c app. cbn [apps heap]. rewrite length_rewrite.
    destruct (decide (a = c)) as [->|N].
    + rewrite list_lookup_alter_eq.
      destruct (apps w !! c) as [app0|] eqn:E; [|discriminate].
      intros [= <-]. cbn [__endpoints]. apply Forall_app.
      split; [now apply (W c) | now apply (W b)].
    + rewrite list_lookup_alter_ne by exact N. apply W.
  - intros c. unfold endpointsOf. cbn [apps heap].
    destruct (decide (a = c)) as [->|N].
    + rewrite list_lookup_alter_eq. destruct (apps w !! c) as [app0|]; [|now exists []].
      cbn [fmap option_fmap option_map __endpoints].
      rewrite omap_app, map_app.
      rewrite (map_forget_omap (heap w) _ (__endpoints app0))
        by apply forget_rewrite.
      eauto.
    + rewrite list_lookup_alter_ne by exact N.
      destruct (apps w !! c) as [app0|]; [|now exists []].
      exists []. rewrite app_nil_r. apply map_forget_omap, forget_rewrite.
Qed.

Lemma create_grows (w : World) :
  wellFormed w -> wellFormed (create w) /\ extends w (create w).
Proof.
  intros W. unfold create. split.
  - intros b app. cbn [apps heap]. intros E.
    apply lookup_app_Some in E as [E|[_ E]]; [now apply (W b)|].
    destruct (b - length (apps w)) as [|n]; [|discriminate E].
    injection E as <-. constructor.
  - intros b. unfold endpointsOf. cbn [apps heap].
    destruct (apps w !! b) as [app|] eqn:E.
    + rewrite (lookup_app_l_Some _ _ _ _ E). exists []. now rewrite app_nil_r.
    + now eexists.
Qed.

Lemma exposeScalarOpenAPI_grows (w : World) (a : nat) (params : OpenAPIExposeOptions) :
  wellFormed w ->
  wellFormed (exposeScalarOpenAPI w a params)
  /\ extends w (exposeScalarOpenAPI w a params).
Proof.
  intros W. unfold exposeScalarOpenAPI. cbv zeta. unfold get.
  set (hide := [openapi (EndpointDocs.mk (Some true) None None None None None None);
                HFunction ""]).
  destruct (on_grows w a "get" (default "/openapi.json" (openapiJsonPath params)) hide W)
    as [W1 E1].
  set (w1 := on w a "get" (default "/openapi.json" (openapiJsonPath params)) hide) in *.
  set (f := fun app : YelixHono =>
              mkYelixHono (hono app)
                (OpenAPI.mkInfo (orDefault (x_title params) "API Documentation")
                   (orDefault (x_description params) "API Documentation")
                   (OpenAPI.version (__openapi app)))
                (__endpoints app)).
  assert (wellFormed (updateApp w1 a f)) as W2
      by now apply updateApp_wellFormed.
  assert (extends w1 (updateApp w1 a f)) as E2.
  { apply extends_eq. intros b. now apply updateApp_endpointsOf. }
  destruct (on_grows (updateApp w1 a f) a "get" (default "/docs" (docsPath params))
              hide W2) as [W3 E3].
  split; [exact W3|].
  exact (extends_trans _ _ _ E1 (extends_trans _ _ _ E2 E3)).
Qed.

Lemma exec_grows (w : World) (c : Call) :
  wellFormed w -> wellFormed (exec w c) /\ extends w (exec w c).
Proof.
  intros W. destruct c as [|a method path handlers|a path handlers|a path handlers
                           |a path instance|a|a params]; cbn [exec].
  - now apply create_grows.
  - now apply on_grows.
  - unfold all.
    destruct (loads_grow a path handlers
                ["post"; "get"; "put"; "delete"; "patch"; "options"] w W) as [W1 E1].
    destruct (addRoute_grows _ a (Route "all" path (parseMiddlewares handlers true)) W1)
      as [W2 E2].
    split; [exact W2 | exact (extends_trans _ _ _ E1 E2)].
  - now apply addRoute_grows.
  - now apply route_grows.
  - unfold getOpenAPI. destruct (apps w !! a); (split; [exact W | apply extends_refl]).
  - now apply exposeScalarOpenAPI_grows.
Qed.

Lemma run_snoc (calls : list Call) (c : Call) :
  run (calls ++ [c]) = exec (run calls) c.
Proof. unfold run. now rewrite fold_left_app. Qed.

Lemma run_wellFormed (calls : list Call) : wellFormed (run calls).
Proof.
  induction calls as [|c calls IH] using rev_ind.
  - intros a app E. discriminate E.
  - rewrite run_snoc. now apply exec_grows.
Qed.

End RegistryGrowth.

Section RegistrationFacts.
Import Path Hono Registry.

Lemma fold_addRawParameter (ps : list Js.JsVal) (e : EndpointBuilder.t) :
  EndpointBuilder.parameters (fold_left EndpointBuilder.addRawParameter ps e)
  = EndpointBuilder.parameters e ++ ps.
Proof.
  revert e. induction ps as [|p ps IH]; intros e; [now rewrite app_nil_r|].
  cbn [fold_left]. rewrite IH. cbn [EndpointBuilder.parameters EndpointBuilder.addRawParameter].
  now rewrite <- app_assoc.
Qed.

Lemma no_nullish_item (l : list Js.JsVal) :
  Forall (fun p => Js.isNullish p = false) l -> existsb Js.isNullish l = false.
Proof.
  induction 1 as [|p l Hp _ IH]; [reflexivity|]. cbn [existsb]. now rewrite Hp.
Qed.

Lemma validations_parameters (vs : list Handler) :
  Forall (fun h => Forall (fun p => Js.isNullish p = false) (schemaItems (schemaOf h))) vs ->
  forall v : Validations,
    let v' := fold_left validationStep vs v in
    parameters v'
    = parameters v
      ++ flat_map (fun h => schemaItems (schemaOf h)) (List.filter isParameterValidation vs)
    /\ haveParameter v'
       = haveParameter v || existsb isParameterValidation vs.
Proof.
  induction 1 as [|h vs Hh _ IH]; intros v; cbv zeta.
  - cbn. now rewrite app_nil_r, orb_false_r.
  - cbn [fold_left List.filter existsb]. destruct (IH (validationStep v h)) as [H1 H2].
    rewrite H1, H2. destruct h as [n|n inner md]; cbn [validationStep isParameterValidation].
    + now split.
    + destruct (Js.isStr (from md) "json" || Js.isStr (from md) "form");
        cbn [negb andb parameters haveParameter orb]; [now split|].
      destruct (existsb (Js.isStr (from md)) ["query"; "header"; "cookie"; "path"; "param"]);
        cbn [parameters haveParameter flat_map schemaOf]; [|now split].
      rewrite orb_true_r. split; [|reflexivity].
      cbn [schemaOf] in Hh.
      destruct (schema md); cbn [schemaItems] in *; rewrite ?app_nil_l; try reflexivity.
      rewrite (no_nullish_item _ Hh). now rewrite app_assoc.
Qed.

Lemma existsb_filter_nil {A : Type} (f : A -> bool) (l : list A) :
  existsb f l = false -> List.filter f l = [].
Proof.
  induction l as [|x l IH]; [reflexivity|]. cbn [existsb List.filter].
  destruct (f x); [discriminate|]. exact IH.
Qed.

Lemma validations_json (vs : list Handler) :
  forall v : Validations,
    let v' := fold_left validationStep vs v in
    json v'
    = fold_left objectAssign (map schemaOf (List.filter isBodyValidation vs)) (json v)
    /\ haveJson v' = haveJson v || existsb isBodyValidation vs.
Proof.
  induction vs as [|h vs IH]; intros v; cbv zeta.
  - cbn. now rewrite orb_false_r.
  - cbn [fold_left List.filter existsb]. destruct (IH (validationStep v h)) as [H1 H2].
    rewrite H1, H2. destruct h as [n|n inner md]; cbn [validationStep isBodyValidation].
    + now split.
    + destruct (Js.isStr (from md) "json" || Js.isStr (from md) "form");
        cbn [json haveJson orb map fold_left schemaOf].
      * now rewrite orb_true_r.
      * destruct (existsb (Js.isStr (from md)) ["query"; "header"; "cookie"; "path"; "param"]);
          now split.
Qed.

Lemma fold_assign_other {A : Type}
    (step : list (string * Js.JsVal) -> string * A -> list (string * Js.JsVal))
    (g : string -> A -> option Js.JsVal) :
  (forall acc k a, step acc (k, a) = match g k a with
                                      | Some x => Js.assignField acc k x
                                      | None => acc
                                      end) ->
  forall (l : list (string * A)) (acc : list (string * Js.JsVal)) (k : string),
    ~ In k (map fst l) ->
    Js.lookupField k (fold_left step l acc) = Js.lookupField k acc.
Proof.
  intros Hstep. induction l as [|[k' a'] l IH]; intros acc k N; [reflexivity|].
  cbn [fold_left]. rewrite IH by (intros H; apply N; now right).
  rewrite Hstep. destruct (g k' a'); [|reflexivity].
  apply lookup_assign_ne. intros ->. apply N. now left.
Qed.

Lemma fold_assign_lookup {A : Type}
    (step : list (string * Js.JsVal) -> string * A -> list (string * Js.JsVal))
    (g : string -> A -> option Js.JsVal) :
  (forall acc k a, step acc (k, a) = match g k a with
                                      | Some x => Js.assignField acc k x
                                      | None => acc
                                      end) ->
  forall l : list (string * A),
    NoDup (map fst l) ->
    forall (acc : list (string * Js.JsVal)) (k : string) (a : A),
      In (k, a) l ->
      Js.lookupField k (fold_left step l acc)
      = match g k a with
        | Some x => x
        | None => Js.lookupField k acc
        end.
Proof.
  intros Hstep. induction l as [|[k' a'] l IH]; intros D acc k a Hin; [destruct Hin|].
  cbn [map fst] in D. apply NoDup_cons in D as [Hk' D].
  rewrite list_elem_of_In in Hk'.
  cbn [fold_left]. destruct Hin as [[= -> ->]|Hin].
  - rewrite (fold_assign_other step g Hstep) by exact Hk'.
    rewrite Hstep. destruct (g k a); [apply lookup_assign_eq | reflexivity].
  - rewrite (IH D _ k a Hin). destruct (g k a); [reflexivity|].
    rewrite Hstep. destruct (g k' a'); [|reflexivity].
    apply lookup_assign_ne. intros ->. apply Hk'.
    apply (in_map fst) in Hin. exact Hin.
Qed.

Lemma objectAssign_lookup (target src : list (string * Js.JsVal)) (k : string) :
  NoDup (map fst src) ->
  Js.lookupField k (objectAssign target (Js.VObj src))
  = if Js.hasKey k src then Js.lookupField k src else Js.lookupField k target.
Proof.
  intros D. unfold objectAssign. cbn [Js.entriesOf].
  set (step := fun (t : list (string * Js.JsVal)) (kv : string * Js.JsVal) =>
                 Js.assignField t (fst kv) (snd kv)).
  assert (forall acc k a, step acc (k, a) = match Some a with
                                             | Some x => Js.assignField acc k x
                                             | None => acc
                                             end) as Hstep by reflexivity.
  destruct (Js.hasKey k src) eqn:K.
  - assert (In (k, Js.lookupField k src) src) as Hin.
    { clear D Hstep. induction src as [|[k' v'] src IH]; [discriminate K|].
      cbn [Js.hasKey existsb fst] in K. cbn [Js.lookupField].
      destruct (String.eqb k k') eqn:E.
      - apply String.eqb_eq in E. subst. now left.
      - right. now apply IH. }
    exact (fold_assign_lookup step (fun _ a => Some a) Hstep src D target k _ Hin).
  - apply (fold_assign_other step (fun _ a => Some a) Hstep).
    clear D Hstep. induction src as [|[k' v'] src IH]; [now intros []|].
    cbn [Js.hasKey existsb fst] in K. apply orb_false_elim in K as [E K].
    cbn [map fst In]. intros [<-|H]; [now rewrite String.eqb_refl in E | now apply IH].
Qed.

End RegistrationFacts.

Section RegistryLaws.
Import JsString Path PathShape Js Hono Registry Examples.

(** X16. A call never removes a descriptor from an application: after
    any further call of a program, every application has the descriptors it
    had, in their order and with everything but their path unchanged, and
    possibly more descriptors after them. *)
Theorem descriptors_never_removed (calls : list Call) (c : Call) (b : nat) :
  exists added,
    map forgetPath (endpointsOf (run (calls ++ [c])) b)
    = map forgetPath (endpointsOf (run calls) b) ++ added.
Proof.
  rewrite run_snoc. apply (exec_grows (run calls) c). apply run_wellFormed.
Qed.





(** X19. The parameters of a descriptor are the items of the array
    schemas of the request validations of the query, the headers, the
    cookies and the path, in the order of the handlers; a validation with an
    empty name, or with a schema that is not an array, gives none. The
    source reads the name of each item before it adds the items of a
    schema, so the items are taken to be neither [null] nor [undefined]. *)
Theorem documented_parameters (path method : string) (handlers : list Handler) :
  Forall (fun h => Forall (fun p => isNullish p = false) (schemaItems (schemaOf h)))
    (getMiddlewaresByKey "requestValidation" handlers) ->
  EndpointBuilder.parameters (buildEndpoint path method handlers)
  = flat_map (fun h => schemaItems (schemaOf h))
      (List.filter isParameterValidation
         (getMiddlewaresByKey "requestValidation" handlers)).
Proof.
  intros F. unfold buildEndpoint. cbv zeta.
  destruct (validations_parameters (getMiddlewaresByKey "requestValidation" handlers) F
              (mkValidations false [] false [])) as [H1 H2].
  cbn [parameters haveParameter app orb] in H1, H2.
  rewrite H2. destruct (existsb isParameterValidation _) eqn:X.
  - rewrite fold_addRawParameter, H1.
    destruct (haveJson _ && negb (previewFails _)),
      (docsOf handlers ≫= EndpointDocs.responses); reflexivity.
  - rewrite (existsb_filter_nil _ _ X).
    destruct (haveJson _ && negb (previewFails _)),
      (docsOf handlers ≫= EndpointDocs.responses); reflexivity.
Qed.

Lemma documented_parameters_witness :
  EndpointBuilder.parameters
    (buildEndpoint "/search" "get" RegistryExamples.validatedHandlers)
  = [RegistryExamples.queryParameter; RegistryExamples.headerParameter].
Proof.
  apply (documented_parameters "/search" "get" RegistryExamples.validatedHandlers).
  repeat constructor.
Defined.

(** X20. The request body of a descriptor is present exactly when a
    request validation of the body (json or form) is attached, and it is
    the schemas of these validations merged in the order of the handlers,
    its properties in the order of enumeration of the runtime (the array
    indices first). The merged object is taken to have no [toJSON]
    function, which can make the preview of the source fail, and no key
    [__proto__]. *)
Theorem documented_request_body (path method : string) (handlers : list Handler) :
  let vs := getMiddlewaresByKey "requestValidation" handlers in
  let merged := fold_left objectAssign (map schemaOf (List.filter isBodyValidation vs)) [] in
  isFunction (lookupField "toJSON" merged) = false ->
  hasKey "__proto__" merged = false ->
  EndpointBuilder.requestBody (buildEndpoint path method handlers)
  = if existsb isBodyValidation vs then Some (VObj merged) else None.
Proof.
  cbv zeta. intros T _. unfold buildEndpoint. cbv zeta.
  destruct (validations_json (getMiddlewaresByKey "requestValidation" handlers)
              (mkValidations false [] false [])) as [H1 H2].
  cbn [json haveJson orb] in H1, H2. rewrite H2, H1.
  assert (forall ps e, EndpointBuilder.requestBody
                         (fold_left EndpointBuilder.addRawParameter ps e)
                       = EndpointBuilder.requestBody e) as P.
  { induction ps as [|p ps IH]; intros e; [reflexivity|]. cbn [fold_left]. now rewrite IH. }
  replace (previewFails _) with false
    by (unfold previewFails; destruct (lookupField "toJSON" _); try reflexivity;
        discriminate T).
  destruct (haveParameter _); rewrite ?P;
    destruct (existsb isBodyValidation _), (docsOf handlers ≫= EndpointDocs.responses);
    reflexivity.
Qed.

Lemma documented_request_body_witness :
  EndpointBuilder.requestBody
    (buildEndpoint "/search" "get" RegistryExamples.validatedHandlers)
  = Some (VObj [("application/json", VObj [("schema", VObj [])])]).
Proof.
  apply (documented_request_body "/search" "get" RegistryExamples.validatedHandlers);
    reflexivity.
Defined.

(** X21. In the loop over the request validations, a key of the schema
    of a later validation of the body replaces the same key of the earlier
    ones, and every other key of the merged schema is kept. *)
Theorem later_body_schema_wins (vs : list Handler) (h : Handler)
    (src : list (string * JsVal)) (k : string) (v0 : Validations) :
  isBodyValidation h = true ->
  schemaOf h = VObj src ->
  NoDup (map fst src) ->
  k <> "__proto__" ->
  lookupField k (json (fold_left validationStep (vs ++ [h]) v0))
  = if hasKey k src then lookupField k src
    else lookupField k (json (fold_left validationStep vs v0)).
Proof.
  intros B S D _. rewrite fold_left_app. cbn [fold_left].
  destruct h as [n|n inner md]; [discriminate B|].
  cbn [isBodyValidation] in B. cbn [schemaOf] in S.
  cbn [validationStep]. rewrite B, S. cbn [json].
  now apply objectAssign_lookup.
Qed.

Lemma later_body_schema_wins_witness :
  lookupField "a"
    (json (fold_left validationStep
             ([RegistryExamples.validator "json"
                 (VObj [("a", VNum (ofNat 1)); ("b", VNum (ofNat 2))])]
              ++ [RegistryExamples.validator "form" (VObj [("a", VNum (ofNat 3))])])
             (mkValidations false [] false [])))
  = VNum (ofNat 3).
Proof.
  apply (later_body_schema_wins
           [RegistryExamples.validator "json"
              (VObj [("a", VNum (ofNat 1)); ("b", VNum (ofNat 2))])]
           (RegistryExamples.validator "form" (VObj [("a", VNum (ofNat 3))]))
           [("a", VNum (ofNat 3))] "a").
  - reflexivity.
  - reflexivity.
  - apply NoDup_ListNoDup. repeat constructor; cbn; intuition discriminate.
  - discriminate.
Defined.

(** X22. When several documentation descriptors are attached to a route,
    the first one is the one that is used: a later one, and its [hide], is
    ignored. *)
Theorem first_documentation_wins (pre post : list Handler) (docs : EndpointDocs.t) :
  Forall (fun h => hasYelixKey "openapi" h = false) pre ->
  docsOf (pre ++ openapi docs :: post) = Some docs
  /\ hidden (docsOf (pre ++ openapi docs :: post)) = default false (EndpointDocs.hide docs).
Proof.
  intros H.
  assert (docsOf (pre ++ openapi docs :: post) = Some docs) as D.
  { unfold docsOf, getMiddlewareByKey.
    induction H as [|h pre Hh _ IH]; [reflexivity|].
    cbn [app List.find]. now rewrite Hh. }
  now rewrite D.
Qed.

Lemma first_documentation_wins_witness :
  docsOf ([HFunction "auth"] ++ openapi RegistryExamples.userDocs
          :: [openapi (EndpointDocs.mk (Some true) None None None None None None);
              HFunction "user"])
  = Some RegistryExamples.userDocs
  /\ hidden (docsOf ([HFunction "auth"] ++ openapi RegistryExamples.userDocs
                     :: [openapi (EndpointDocs.mk (Some true) None None None None None None);
                         HFunction "user"]))
     = default false (EndpointDocs.hide RegistryExamples.userDocs).
Proof.
  apply first_documentation_wins. repeat constructor.
Defined.

(** X23. The router receives as many handlers as the registration gives;
    for a route, the last of them is wrapped under the name [handler],
    whatever it is, and the others keep their own name. *)
Theorem last_handler_is_named (front : list Handler) (last : Handler) :
  parseMiddlewares (front ++ [last]) true
  = parseMiddlewares front false ++ [mkWrapped (Some "handler") last]
  /\ length (parseMiddlewares (front ++ [last]) true) = length (front ++ [last])
  /\ parseMiddlewares [] true = [].
Proof.
  assert (parseMiddlewares (front ++ [last]) true
          = parseMiddlewares front false ++ [mkWrapped (Some "handler") last]) as H.
  { unfold parseMiddlewares, nameLast. rewrite reverse_snoc, reverse_involutive.
    now rewrite map_app. }
  split; [exact H|]. split; [|reflexivity].
  rewrite H. unfold parseMiddlewares. now rewrite !length_app, length_map.
Qed.

(** X24. Handlers attached with [use], and the routes of a plain router
    that is mounted, are handed to the router and never documented: the
    descriptors and the documents of every application stay as they
    are. *)
Theorem undocumented_registrations (w : World) (a : nat) (app : YelixHono)
    (path : option string) (handlers : list Handler)
    (prefix : string) (router : list RouterEntry) :
  apps w !! a = Some app ->
  onlyRouted w (use w a path handlers) a app (Use path (parseMiddlewares handlers false))
  /\ onlyRouted w (route w a prefix (IHono router)) a app (Mount prefix router).
Proof.
  intros E. unfold use, route, onlyRouted. split.
  - repeat split.
    + intros b. apply addRoute_endpointsOf.
    + intros b. apply addRoute_getOpenAPI.
    + now apply addRoute_app.
  - repeat split.
    + intros b. apply addRoute_endpointsOf.
    + intros b. apply addRoute_getOpenAPI.
    + now apply addRoute_app.
Qed.

Lemma undocumented_registrations_witness :
  onlyRouted twoApps (use twoApps 1 (Some "/ping") [openapi RegistryExamples.userDocs])
    1 RegistryExamples.pingApp
    (Use (Some "/ping") (parseMiddlewares [openapi RegistryExamples.userDocs] false))
  /\ onlyRouted twoApps (route twoApps 1 "/legacy" (IHono [])) 1 RegistryExamples.pingApp
       (Mount "/legacy" []).
Proof. apply undocumented_registrations. reflexivity. Defined.

(** X25. [exposeScalarOpenAPI] hands two routes of the method [get] to the
    router and documents neither; it sets the title and the description of
    the document, each to ["API Documentation"] when the options give none,
    and keeps the version. *)
Theorem expose_registers_undocumented_routes (w : World) (a : nat) (app : YelixHono)
    (params : OpenAPIExposeOptions) :
  apps w !! a = Some app ->
  let w' := exposeScalarOpenAPI w a params in
  let hide := [openapi (EndpointDocs.mk (Some true) None None None None None None);
               HFunction ""] in
  heap w' = heap w
  /\ (forall b, endpointsOf w' b = endpointsOf w b)
  /\ apps w' !! a
     = Some (mkYelixHono
               (hono app
                ++ [Route "get" (default "/openapi.json" (openapiJsonPath params))
                      (parseMiddlewares hide true);
                    Route "get" (default "/docs" (docsPath params))
                      (parseMiddlewares hide true)])
               (OpenAPI.mkInfo (orDefault (x_title params) "API Documentation")
                  (orDefault (x_description params) "API Documentation")
                  (OpenAPI.version (__openapi app)))
               (__endpoints app)).
Proof.
  intros E. cbv zeta. unfold exposeScalarOpenAPI, get, on, loadEndpointDocs.
  cbv zeta.
  change (hidden (docsOf [openapi (EndpointDocs.mk (Some true) None None None None None None);
                          HFunction ""])) with true.
  cbv iota. split; [reflexivity|]. split.
  - intros b. rewrite addRoute_endpointsOf, updateApp_endpointsOf by reflexivity.
    apply addRoute_endpointsOf.
  - erewrite addRoute_app; [|unfold updateApp; cbn [apps];
                              rewrite list_lookup_alter_eq;
                              erewrite addRoute_app by exact E; reflexivity].
    cbn [hono __openapi __endpoints]. now rewrite <- app_assoc.
Qed.

Lemma expose_registers_undocumented_routes_witness :
  endpointsOf (exposeScalarOpenAPI twoApps 1 (mkExpose None None None None)) 1
  = endpointsOf twoApps 1.
Proof.
  apply (expose_registers_undocumented_routes twoApps 1 RegistryExamples.pingApp
           (mkExpose None None None None) eq_refl).
Defined.

(** X26. Every response of the documentation is documented under its
    status with its description, or with [HTTP <status> response] when it
    has none, and with its content reduced to the media types that have a
    schema. *)
Theorem responses_documented (responses : list (string * option EndpointDocs.Response))
    (status : string) (response : EndpointDocs.Response) :
  NoDup (map fst responses) ->
  In (status, Some response) responses ->
  status <> "__proto__" ->
  prop (transformResponses responses) status
  = VObj [("description",
           VStr (orDefault (EndpointDocs.r_description response)
                   ("HTTP " +:+ status +:+ " response")));
          ("content",
           match EndpointDocs.r_content response with
           | Some content => transformContent content
           | None => VUndefined
           end)].
Proof.
  intros D Hin _. unfold transformResponses. cbn [prop].
  set (g := fun (k : string) (a : option EndpointDocs.Response) =>
              match a with
              | Some response =>
                  Some (VObj [("description",
                               VStr (orDefault (EndpointDocs.r_description response)
                                       ("HTTP " +:+ k +:+ " response")));
                              ("content",
                               match EndpointDocs.r_content response with
                               | Some content => transformContent content
                               | None => VUndefined
                               end)])
              | None => None
              end).
  match goal with
  | |- lookupField _ (fold_left ?f _ _) = _ =>
      rewrite (fold_assign_lookup f g) with (a := Some response)
  end; [reflexivity| |exact D|exact Hin].
  intros acc k [r|]; [|reflexivity]. cbn [snd fst g]. unfold orDefault.
  now destruct (EndpointDocs.r_description r).
Qed.

Lemma responses_documented_witness :
  prop (transformResponses RegistryExamples.someResponses) "404"
  = VObj [("description", VStr "HTTP 404 response");
          ("content", VObj [("application/json", VObj [("schema", VObj [])])])].
Proof.
  apply (responses_documented RegistryExamples.someResponses "404"
           (EndpointDocs.mkResponse None
              (Some [("application/json", VObj [("schema", VObj [])]);
                     ("text/plain", VObj [])]))).
  - apply NoDup_ListNoDup. repeat constructor; cbn; intuition discriminate.
  - right. now left.
  - discriminate.
Defined.

(** X27. The content of a documented response holds exactly the media
    types of the documentation whose value has a schema, each reduced to
    that schema. *)
Theorem content_documented (content : list (string * JsVal)) (media : string)
    (value : JsVal) :
  NoDup (map fst content) ->
  In (media, value) content ->
  media <> "__proto__" ->
  prop (transformContent content) media
  = if truthy value && truthy (getOpt value "schema")
    then VObj [("schema", prop value "schema")]
    else VUndefined.
Proof.
  intros D Hin _. unfold transformContent. cbn [prop].
  set (g := fun (k : string) (mediaValue : JsVal) =>
              if truthy mediaValue && truthy (getOpt mediaValue "schema")
              then Some (VObj [("schema", prop mediaValue "schema")])
              else None).
  match goal with
  | |- lookupField _ (fold_left ?f _ _) = _ =>
      rewrite (fold_assign_lookup f g) with (a := value)
  end; [| |exact D|exact Hin].
  - unfold g. now destruct (truthy value && truthy (getOpt value "schema")).
  - intros acc k a. cbn [snd fst]. unfold g.
    now destruct (truthy a && truthy (getOpt a "schema")).
Qed.

Lemma content_documented_witness :
  prop (transformContent [("application/json", VObj [("schema", VObj [])]);
                          ("text/plain", VObj [])]) "text/plain"
  = VUndefined.
Proof.
  apply (content_documented [("application/json", VObj [("schema", VObj [])]);
                             ("text/plain", VObj [])] "text/plain" (VObj [])).
  - apply NoDup_ListNoDup. repeat constructor; cbn; intuition discriminate.
  - right. now left.
  - discriminate.
Defined.

(** X28. A child mounted under two parents is rewritten twice: its
    descriptors, which the first parent holds too, carry the second prefix
    merged in front of the first. *)
Theorem mounted_twice (w : World) (a c b : nat) (p q : string) (child : YelixHono) :
  apps w !! b = Some child ->
  a <> b ->
  c <> b ->
  NoDup (__endpoints child) ->
  let w1 := route w a p (IYelix b) in
  let w2 := route w1 c q (IYelix b) in
  endpointsOf w2 b = map (remount q) (map (remount p) (endpointsOf w b))
  /\ (forall l, l ∈ __endpoints child ->
                heap w2 !! l = remount q <$> (remount p <$> heap w !! l))
  /\ (forall parent, apps w !! a = Some parent -> a <> c ->
       exists parent', apps w2 !! a = Some parent'
                       /\ __endpoints parent' = __endpoints parent ++ __endpoints child).
Proof.
  intros Eb Na Nc D. cbv zeta.
  assert (apps (route w a p (IYelix b)) !! b = Some child) as Eb1.
  { unfold route. rewrite Eb. cbn [apps]. now rewrite list_lookup_alter_ne. }
  assert (heap (route w a p (IYelix b))
          = fold_left (rewriteEndpoint p) (__endpoints child) (heap w)) as H1.
  { unfold route. now rewrite Eb. }
  assert (heap (route (route w a p (IYelix b)) c q (IYelix b))
          = fold_left (rewriteEndpoint q) (__endpoints child)
              (fold_left (rewriteEndpoint p) (__endpoints child) (heap w))) as H2.
  { unfold route at 1. rewrite Eb1. cbn [heap]. now rewrite H1. }
  assert (apps (route (route w a p (IYelix b)) c q (IYelix b)) !! b = Some child) as Eb2.
  { unfold route at 1. rewrite Eb1. cbn [apps]. now rewrite list_lookup_alter_ne. }
  split; [|split].
  - unfold endpointsOf. rewrite Eb2, Eb, H2.
    now rewrite !rewrite_omap.
  - intros l Hl. rewrite H2, !rewrite_lookup by exact D.
    now destruct (decide (l ∈ __endpoints child)).
  - intros parent Ea Nac. exists (mkYelixHono (hono parent ++ [Mount p (hono child)])
                                    (__openapi parent)
                                    (__endpoints parent ++ __endpoints child)).
    split; [|reflexivity].
    unfold route at 1. rewrite Eb1. cbn [apps].
    rewrite list_lookup_alter_ne by (intros ->; now apply Nac).
    unfold route. rewrite Eb. cbn [apps]. now rewrite list_lookup_alter_eq, Ea.
Qed.

Lemma mounted_twice_witness :
  map EndpointBuilder.path
    (endpointsOf (route (route RegistryExamples.threeApps 0 "/v1" (IYelix 1))
                    2 "/admin" (IYelix 1)) 1)
  = ["/admin/v1/ping"].
Proof.
  destruct (mounted_twice RegistryExamples.threeApps 0 2 1 "/v1" "/admin"
              RegistryExamples.pingApp eq_refl) as (H & _).
  - discriminate.
  - discriminate.
  - apply NoDup_ListNoDup. repeat constructor; cbn; intuition discriminate.
  - rewrite H. reflexivity.
Defined.



End RegistryLaws.

(** ** The body of a request *)

Section BodyLaws.
Import Body.

(** X30. A reader of the clone that rejects does not make
    [parseAndCloneBody] reject: where the earlier revision returns, the
    current one returns the same type and body, and where the earlier
    revision rejects with the reader, the current one returns the type
    [none] without a body. The result has a body exactly when its type is
    not [none]. *)
Theorem unreadable_body_gives_none (RequestBody : Type) (header : option string)
    (clone : Clone RequestBody) :
  parseAndCloneBody RequestBody header clone
  = default (none, None) (parseAndCloneBody_earlier RequestBody header clone)
  /\ (fst (parseAndCloneBody RequestBody header clone) = none
      <-> snd (parseAndCloneBody RequestBody header clone) = None).
Proof.
  unfold parseAndCloneBody, parseAndCloneBody_earlier, attempt, awaited. cbv zeta.
  repeat match goal with
         | |- context [if ?c then _ else _] => destruct c
         end;
    try (match goal with
         | |- context [match ?o with Some _ => _ | None => _ end] => destruct o
         end);
    cbn [default fst snd]; (split; [reflexivity|]); split; intros H; try reflexivity;
    discriminate H.
Qed.

End BodyLaws.
